(** * pray-cli: the resilient data-acquisition layer

    A shallow embedding of the retrying HTTP client
    ([internal/api/client.go]), the request parameters
    ([internal/api/params.go]), the file cache ([internal/cache]), the
    caching client ([internal/api/cached_client.go]) and the IP
    geolocation resolver ([internal/location]), with the properties the
    specification states about them; and, with properties read off the
    code, the operations of the cache on its whole directory, the
    validators ([internal/api/validator.go]), the table of calculation
    methods ([internal/config]), the builders of the calendar URL
    ([BuildICSURL], [internal/calendar]) with the helpers that name the
    downloaded file, and the helpers of [internal/prayer],
    [internal/output] and the commands.

    Conventions.  A Go [string] or [[]byte] is a Rocq [string] (a
    sequence of bytes; the nil slice and the empty one are both [""]).
    Go's [int], [int64] and [time.Duration] are 64-bit: integers in [Z]
    reduced with [wrap64] after every arithmetic operation.  [float64]
    is Rocq's primitive binary64 [float].  A Go function with side
    effects takes the world it runs in and returns the world it leaves:
    the clock, which advances while the program sleeps or waits for the
    network and not otherwise, the files, and the log of what was done.
    A loop that may not terminate takes fuel.  The network, the
    scheduler and the decoders of [encoding/json] for the API and the
    geolocation providers are parameters; [fmt], [strconv], [time],
    [crypto/sha256] and the part of [encoding/json] the cache uses are
    modelled and can be run, and so are [net/url]'s query encoding and
    [os.ReadDir] on directories without subdirectories. *)

From Stdlib Require Import ZArith Lia List Bool Ascii String.
From Stdlib Require Import DecimalString DecimalPos DecimalZ.
From Stdlib Require Import PrimFloat FloatOps SpecFloat FloatAxioms.
From stdpp Require Import gmap strings sorting.
Import ListNotations.

Local Open Scope string_scope.
Local Open Scope Z_scope.

(** ** Machine integers *)

Definition two63 : Z := 9223372036854775808.
Definition two64 : Z := 18446744073709551616.

(** Two's-complement reduction into the range of [int64]. *)
Definition wrap64 (z : Z) : Z := (z + two63) mod two64 - two63.

Definition int64_range (z : Z) : Prop := - two63 <= z < two63.

Definition int_add (a b : Z) : Z := wrap64 (a + b).
Definition int_mul (a b : Z) : Z := wrap64 (a * b).

(** [fmt]'s [%d] of an [int]. *)
Definition itoa (z : Z) : string := NilZero.string_of_int (Z.to_int z).

(** A text with a quotation mark for every apostrophe written here. *)
Fixpoint quoted (s : string) : string :=
  match s with
  | EmptyString => EmptyString
  | String a rest =>
      String (if Ascii.eqb a "'"%char then ascii_of_nat 34 else a) (quoted rest)
  end.

(** ** Errors

    A Go [error] value: the two context errors, an error handed back by
    a library, and [fmt.Errorf]: without a [%w] verb, with [%w] given an
    error, and with [%w] given [nil]. *)

Inductive error : Type :=
| Canceled
| DeadlineExceeded
| LibraryError (msg : string)
| Errorf (msg : string)
| Wrapf (msg : string) (cause : error)
| WrapfNil (msg : string).

Definition wrap_error (msg : string) (cause : option error) : error :=
  match cause with
  | Some e => Wrapf msg e
  | None => WrapfNil msg
  end.

Inductive result (A : Type) : Type :=
| Ok (a : A)
| Err (e : error).
Arguments Ok {A} a.
Arguments Err {A} e.

(** ** Time *)

Definition Millisecond : Z := 1000000.
Definition Second : Z := 1000000000.
Definition Hour : Z := 3600 * Second.

(** A [time.Time]: the instant, in nanoseconds since the zero time
    (January 1, year 1, 00:00:00 UTC), and the offset east of UTC, in
    seconds, that its location has at that instant. *)
Record Time : Type := mkTime { wall : Z; zone : Z }.

Definition Time_IsZero (t : Time) : bool := wall t =? 0.
Definition Time_After (t u : Time) : bool := wall t >? wall u.
Definition Time_Add (t : Time) (d : Z) : Time := mkTime (wall t + d) (zone t).

(** ** The world a call runs in *)

(** What the retry loop and the resolver do, in order. *)
Inductive event : Type :=
| EvBackoff (attempt : Z) (d : Z)
| EvAttempt (attempt : Z) (finished : Z) (failure : option error)
| EvGet (url : string).

(** A path is the directory and the file name inside it:
    [filepath.Join(dir, name)]. *)
Definition path : Type := (string * string)%type.

Record World : Type := mkWorld {
  now : Z;                      (* the clock, as [wall] *)
  tz : Z;                       (* offset of the local zone *)
  sent : nat;                   (* round trips made so far *)
  log : list event;
  dirs : gset string;           (* directories that exist *)
  files : gmap path string      (* files and their contents *)
}.

Definition time_Now (w : World) : Time := mkTime (now w) (tz w).

Definition set_now (t : Z) (w : World) : World :=
  mkWorld t (tz w) (sent w) (log w) (dirs w) (files w).
Definition record (e : event) (w : World) : World :=
  mkWorld (now w) (tz w) (sent w) (log w ++ [e])%list (dirs w) (files w).
Definition count_sent (w : World) : World :=
  mkWorld (now w) (tz w) (S (sent w)) (log w) (dirs w) (files w).
Definition set_files (f : gmap path string) (w : World) : World :=
  mkWorld (now w) (tz w) (sent w) (log w) (dirs w) f.
Definition set_dirs (d : gset string) (w : World) : World :=
  mkWorld (now w) (tz w) (sent w) (log w) d (files w).

(** Time passing while the program waits. *)
Definition elapse (d : Z) (w : World) : World := set_now (now w + d) w.

(** ** [context.Context] *)

(** The instant at which [Done] is closed, if it ever is, and the error
    [Err] reports from then on. *)
Record Context : Type := mkContext {
  doneAt : option Z;
  reason : error
}.

Definition ctx_Err (ctx : Context) (t : Z) : option error :=
  match doneAt ctx with
  | Some d => if d <=? t then Some (reason ctx) else None
  | None => None
  end.

Definition never_done (ctx : Context) : Prop := doneAt ctx = None.

(** ** The network *)

(** What one request comes to. *)
Inductive http_outcome : Type :=
| NewRequestFailed (e : error)
| DoFailed (e : error)
| ReadFailed (status : Z) (e : error)
| Responded (status : Z) (body : string).

Record Exchange : Type := mkExchange {
  outcome : http_outcome;
  took : Z
}.

(** The remote side: what the [n]-th round trip of the run, a request
    [method url], comes to. *)
Definition Network : Type := nat -> string -> string -> Exchange.

(** * Library functions the program calls *)

(** ** [fmt] and [strconv] *)

Module GoFmt.

Definition digit (n : Z) : ascii := ascii_of_nat (48 + Z.to_nat n).

(** The decimal digits of [n >= 0], at least [width] of them (zero
    padded), most significant first, in front of [acc]. *)
Fixpoint digits (width : nat) (fuel : nat) (n : Z) (acc : string) : string :=
  match fuel with
  | O => acc
  | S fuel' =>
      let acc' := String (digit (n mod 10)) acc in
      let n' := n / 10 in
      let width' := Nat.pred width in
      if (n' =? 0) && (Nat.eqb width' 0) then acc'
      else digits width' fuel' n' acc'
  end.

(** Enough fuel for the digits of [n] or [width] zeros. *)
Definition digit_fuel (width : nat) (n : Z) : nat :=
  (width + Z.to_nat (Z.log2 n) + 1)%nat.

(** [appendInt(b, x, width)] of package [time]: a sign for a negative
    [x], then its magnitude zero padded to [width] digits. *)
Definition appendInt (x : Z) (width : nat) : string :=
  (if x <? 0 then "-" else "")
  ++ digits width (digit_fuel width (Z.abs x)) (Z.abs x) "".

(** [num / den] rounded to the nearest integer, ties to even; for
    [0 <= num] and [0 < den]. *)
Definition round_half_even (num den : Z) : Z :=
  let q := num / den in
  let r := num mod den in
  if 2 * r <? den then q
  else if den <? 2 * r then q + 1
  else if Z.even q then q else q + 1.

(** The magnitude [m * 2^e], times [10^prec], rounded to an integer. *)
Definition scaled (prec : nat) (m : positive) (e : Z) : Z :=
  if 0 <=? e then Zpos m * 2 ^ e * 10 ^ Z.of_nat prec
  else round_half_even (Zpos m * 10 ^ Z.of_nat prec) (2 ^ (- e)).

(** The digits [ds] with a decimal point in front of the last [prec]. *)
Definition place_point (prec : nat) (ds : string) : string :=
  let n := (String.length ds - prec)%nat in
  match prec with
  | O => ds
  | _ => substring 0 n ds ++ "." ++ substring n prec ds
  end.

(** [strconv.FormatFloat(f, 'f', prec, 64)], the text [fmt] prints for
    the verb [%.<prec>f]: the exact value of [f], correctly rounded to
    [prec] decimals. *)
Definition FormatFixed (prec : nat) (f : float) : string :=
  match Prim2SF f with
  | S754_nan => "NaN"
  | S754_infinity s => if s then "-Inf" else "+Inf"
  | S754_zero s =>
      (if s then "-" else "") ++ place_point prec (digits (S prec) (S prec) 0 "")
  | S754_finite s m e =>
      let n := scaled prec m e in
      (if s then "-" else "")
      ++ place_point prec (digits (S prec) (digit_fuel (S prec) n) n "")
  end.

(** The shortest decimal that reads back as the same [float64]
    ([strconv.FormatFloat(f, 'g', -1, 64)], the text [fmt] prints for a
    [float64] under [%v]). *)

(** Compare [a * 10^p * 2^q] with [b], for [a] and [b] not negative. *)
Definition compare_scaled (a p q b : Z) : comparison :=
  let l := a * (if 0 <=? p then 10 ^ p else 1) * (if 0 <=? q then 2 ^ q else 1) in
  let r := b * (if 0 <=? p then 1 else 10 ^ (- p)) * (if 0 <=? q then 1 else 2 ^ (- q)) in
  l ?= r.

(** [floor (b * 2^q * 10^s)] *)
Definition floor_scaled (b q s : Z) : Z :=
  (b * (if 0 <=? q then 2 ^ q else 1) * (if 0 <=? s then 10 ^ s else 1))
  / ((if 0 <=? q then 1 else 2 ^ (- q)) * (if 0 <=? s then 1 else 10 ^ (- s))).

(** The [k] with [10^k <= m * 2^e < 10^(k+1)]. *)
Definition decimal_exponent (m e : Z) : Z :=
  let k0 := ((Z.log2 m + e) * 30103) / 100000 in
  let fix down (fuel : nat) (k : Z) : Z :=
    match fuel with
    | O => k
    | S fuel' =>
        match compare_scaled 1 k (- e) m with
        | Gt => down fuel' (k - 1)
        | _ => k
        end
    end in
  let fix up (fuel : nat) (k : Z) : Z :=
    match fuel with
    | O => k
    | S fuel' =>
        match compare_scaled 1 (k + 1) (- e) m with
        | Gt => k
        | _ => up fuel' (k + 1)
        end
    end in
  up 3%nat (down 3%nat k0).

(** The decimals that read back as [m * 2^e] lie between the midpoints
    to the neighbouring floats, the midpoints included when [m] is
    even.  In units of [2^(e-2)] the value is [4m]. *)
Definition reads_back (m e : Z) (c s : Z) : bool :=
  let lo := if (m =? 2 ^ 52) && (-1074 <? e) then 4 * m - 1 else 4 * m - 2 in
  let hi := 4 * m + 2 in
  let above := match compare_scaled c (- s) (2 - e) lo with
               | Gt => true | Eq => Z.even m | Lt => false end in
  let below := match compare_scaled c (- s) (2 - e) hi with
               | Lt => true | Eq => Z.even m | Gt => false end in
  above && below.

(** With [n] digits: the decimal just below the value or the one just
    above, if one reads back; the nearer one if both do. *)
Definition shortest_at (m e k : Z) (n : Z) : option (Z * Z) :=
  let s := n - 1 - k in
  let c := floor_scaled m e s in
  let down := reads_back m e c s in
  let up := reads_back m e (c + 1) s in
  (* twice the value against the sum of the two candidates *)
  let nearer_up :=
    match compare_scaled (2 * c + 1) (- s) (- 1 - e) m with
    | Lt => true
    | Eq => Z.odd c
    | Gt => false
    end in
  if down && up then Some (if nearer_up then c + 1 else c, s)
  else if down then Some (c, s)
  else if up then Some (c + 1, s)
  else None.

Fixpoint shortest_from (fuel : nat) (m e k : Z) (n : Z) : Z * Z :=
  match fuel with
  | O => (floor_scaled m e (n - 1 - k), n - 1 - k)
  | S fuel' =>
      match shortest_at m e k n with
      | Some r => r
      | None => shortest_from fuel' m e k (n + 1)
      end
  end.

Fixpoint strip_zeros (fuel : nat) (c s : Z) : Z * Z :=
  match fuel with
  | O => (c, s)
  | S fuel' => if (c mod 10 =? 0) && negb (c =? 0) then strip_zeros fuel' (c / 10) (s - 1) else (c, s)
  end.

(** The digits [ds] and the position [dp] of the decimal point: the
    value is [0.ds * 10^dp]. *)
Definition shortest_digits (m e : Z) : string * Z :=
  let k := decimal_exponent m e in
  let (c, s) := let (c, s) := shortest_from 17 m e k 1 in strip_zeros 20 c s in
  let ds := digits 1 (digit_fuel 1 c) c "" in
  (ds, Z.of_nat (String.length ds) - s).

Definition zeros (n : Z) : string := string_of_list_ascii (repeat "0"%char (Z.to_nat n)).

(** [%e] with the digits [ds]: [d.ddde+XX]. *)
Definition fmtE (ds : string) (dp : Z) : string :=
  let exp := dp - 1 in
  substring 0 1 ds
  ++ (if (1 <? String.length ds)%nat then "." ++ substring 1 (String.length ds - 1) ds else "")
  ++ "e" ++ (if exp <? 0 then "-" else "+")
  ++ digits 2 (digit_fuel 2 (Z.abs exp)) (Z.abs exp) "".

(** [%f] with the digits [ds] and as many decimals as they need. *)
Definition fmtF (ds : string) (dp : Z) : string :=
  let nd := Z.of_nat (String.length ds) in
  (if 0 <? dp
   then substring 0 (Z.to_nat dp) ds ++ zeros (dp - nd)
   else "0")
  ++ (if dp <? nd
      then "." ++ zeros (- dp) ++ substring (Z.to_nat dp) (Z.to_nat (nd - Z.max dp 0)) ds
      else "").

Definition FormatShortest (f : float) : string :=
  match Prim2SF f with
  | S754_nan => "NaN"
  | S754_infinity s => if s then "-Inf" else "+Inf"
  | S754_zero s => if s then "-0" else "0"
  | S754_finite s m e =>
      let (ds, dp) := shortest_digits (Zpos m) e in
      let exp := dp - 1 in
      (if s then "-" else "")
      ++ (if (exp <? -4) || (exp >=? 6) then fmtE ds dp else fmtF ds dp)
  end.

End GoFmt.

(** ** [crypto/sha256] and [encoding/hex] *)

Module Sha256.

Definition word (x : Z) : Z := x mod 2 ^ 32.
Definition add (a b : Z) : Z := word (a + b).
Definition rotr (n x : Z) : Z := Z.lor (Z.shiftr x n) (word (Z.shiftl x (32 - n))).

Definition Ch (x y z : Z) : Z := Z.lxor (Z.land x y) (Z.land (Z.lnot x) z).
Definition Maj (x y z : Z) : Z :=
  Z.lxor (Z.land x y) (Z.lxor (Z.land x z) (Z.land y z)).
Definition Sigma0 (x : Z) : Z := Z.lxor (rotr 2 x) (Z.lxor (rotr 13 x) (rotr 22 x)).
Definition Sigma1 (x : Z) : Z := Z.lxor (rotr 6 x) (Z.lxor (rotr 11 x) (rotr 25 x)).
Definition sigma0 (x : Z) : Z := Z.lxor (rotr 7 x) (Z.lxor (rotr 18 x) (Z.shiftr x 3)).
Definition sigma1 (x : Z) : Z := Z.lxor (rotr 17 x) (Z.lxor (rotr 19 x) (Z.shiftr x 10)).

(** The primes among [n], [n + 1], ... until [count] are found. *)
Fixpoint primes_from (fuel count : nat) (n : Z) (found_ : list Z) : list Z :=
  match fuel, count with
  | S fuel', S count' =>
      if forallb (fun p => negb (n mod p =? 0)) found_
      then primes_from fuel' count' (n + 1) (found_ ++ [n])%list
      else primes_from fuel' count (n + 1) found_
  | _, _ => found_
  end.

Definition primes : list Z := primes_from 400 64 2 [].

(** The largest [r] below [2^bits] with [r^3 <= n]. *)
Fixpoint cube_root (bits : nat) (n r : Z) : Z :=
  match bits with
  | O => r
  | S bits' =>
      let r' := r + 2 ^ Z.of_nat bits' in
      cube_root bits' n (if r' * r' * r' <=? n then r' else r)
  end.

(** The first 32 bits of the fractional parts of the cube roots of the
    first 64 primes. *)
Definition K : list Z :=
  Eval vm_compute in map (fun p => word (cube_root 36 (p * 2 ^ 96) 0)) primes.

(** The first 32 bits of the fractional parts of the square roots of
    the first 8 primes. *)
Definition H0 : list Z :=
  Eval vm_compute in map (fun p => word (Z.sqrt (p * 2 ^ 64))) (firstn 8 primes).

(** Big-endian words of a block of bytes. *)
Fixpoint words (bs : list Z) : list Z :=
  match bs with
  | b0 :: b1 :: b2 :: b3 :: rest =>
      (b0 * 16777216 + b1 * 65536 + b2 * 256 + b3) :: words rest
  | _ => []
  end.

(** The message schedule: [n] more words after the words [w]. *)
Fixpoint expand (n : nat) (w : list Z) : list Z :=
  match n with
  | O => w
  | S n' =>
      let t := List.length w in
      let at_ i := nth (t - i) w 0 in
      expand n' (w ++ [add (add (sigma1 (at_ 2%nat)) (at_ 7%nat))
                           (add (sigma0 (at_ 15%nat)) (at_ 16%nat))])%list
  end.

Definition round (s : list Z) (kw : Z * Z) : list Z :=
  match s with
  | [a; b; c; d; e; f; g; h] =>
      let t1 := add (add (add h (Sigma1 e)) (add (Ch e f g) (fst kw))) (snd kw) in
      let t2 := add (Sigma0 a) (Maj a b c) in
      [add t1 t2; a; b; c; add d t1; e; f; g]
  | _ => s
  end.

Definition compress (h : list Z) (block : list Z) : list Z :=
  let w := expand 48 (words block) in
  let s := fold_left round (combine K w) h in
  map (fun p => add (fst p) (snd p)) (combine h s).

Fixpoint blocks (n : nat) (h : list Z) (bs : list Z) : list Z :=
  match n with
  | O => h
  | S n' => blocks n' (compress h (firstn 64 bs)) (skipn 64 bs)
  end.

Definition be64 (n : Z) : list Z :=
  map (fun i => (n / 256 ^ (7 - Z.of_nat i)) mod 256) (seq 0 8).

(** The message, the byte 0x80, zeros up to 56 modulo 64, and the
    length in bits. *)
Definition pad (bs : list Z) : list Z :=
  let l := Z.of_nat (List.length bs) in
  (bs ++ [128] ++ repeat 0 (Z.to_nat ((55 - l) mod 64)) ++ be64 (8 * l))%list.

Definition bytes_of (s : string) : list Z :=
  map (fun a => Z.of_nat (nat_of_ascii a)) (list_ascii_of_string s).

(** [sha256.Sum256]: the digest, as eight 32-bit words. *)
Definition Sum256 (s : string) : list Z :=
  let m := pad (bytes_of s) in
  blocks (List.length m / 64) H0 m.

Definition hex_digit (n : Z) : ascii :=
  if n <? 10 then ascii_of_nat (48 + Z.to_nat n) else ascii_of_nat (87 + Z.to_nat n).

Definition hex_word (x : Z) : string :=
  string_of_list_ascii
    (map (fun i => hex_digit ((x / 16 ^ (7 - Z.of_nat i)) mod 16)) (seq 0 8)).

(** [hex.EncodeToString] of the digest: 64 lowercase hexadecimal digits. *)
Definition hexdigest (s : string) : string :=
  fold_right (fun x acc => hex_word x ++ acc) "" (Sum256 s).

End Sha256.

(** ** [encoding/json]: the scanner and [appendCompact] *)

Module GoJson.

Definition quote : ascii := ascii_of_nat 34.

Definition eqc (a b : ascii) : bool := Ascii.eqb a b.
Definition between (lo hi a : ascii) : bool :=
  (nat_of_ascii lo <=? nat_of_ascii a)%nat && (nat_of_ascii a <=? nat_of_ascii hi)%nat.

Definition isSpace (c : ascii) : bool :=
  eqc c " " || eqc c (ascii_of_nat 9) || eqc c (ascii_of_nat 13) || eqc c (ascii_of_nat 10).
Definition isDigit (c : ascii) : bool := between "0" "9" c.
Definition isHex (c : ascii) : bool :=
  between "0" "9" c || between "a" "f" c || between "A" "F" c.

(** The step functions of scanner.go. *)
Inductive state : Type :=
| stateBeginValue | stateBeginValueOrEmpty | stateBeginStringOrEmpty | stateBeginString
| stateEndValue | stateEndTop
| stateInString | stateInStringEsc
| stateInStringEscU | stateInStringEscU1 | stateInStringEscU12 | stateInStringEscU123
| stateNeg | state1 | state0 | stateDot | stateDot0 | stateE | stateESign | stateE0
| stateT | stateTr | stateTru | stateF | stateFa | stateFal | stateFals
| stateN | stateNu | stateNul
| stateError.

Inductive parse : Type := parseObjectKey | parseObjectValue | parseArrayValue.

(** What a step reports. *)
Inductive code : Type :=
| scanContinue | scanBeginLiteral | scanBeginObject | scanObjectKey | scanObjectValue
| scanEndObject | scanBeginArray | scanArrayValue | scanEndArray | scanSkipSpace
| scanEnd | scanError.

(** [v >= scanSkipSpace] *)
Definition skipped (v : code) : bool :=
  match v with scanSkipSpace | scanEnd | scanError => true | _ => false end.

Record scanner : Type := mkScanner {
  step : state;
  parseState : list parse;      (* the innermost first *)
  endTop : bool;
  err : bool
}.

Definition maxNestingDepth : Z := 10000.

Definition reset : scanner := mkScanner stateBeginValue [] false false.

Definition goto (st : state) (s : scanner) : scanner :=
  mkScanner st (parseState s) (endTop s) (err s).

Definition error_ (s : scanner) : scanner * code :=
  (mkScanner stateError (parseState s) (endTop s) true, scanError).

Definition pushParseState (s : scanner) (st : state) (p : parse) (success : code)
  : scanner * code :=
  let s' := mkScanner st (p :: parseState s) (endTop s) (err s) in
  if Z.of_nat (List.length (parseState s')) <=? maxNestingDepth then (s', success)
  else error_ s'.

Definition popParseState (s : scanner) : scanner :=
  match parseState s with
  | [] => s
  | [_] => mkScanner stateEndTop [] true (err s)
  | _ :: rest => mkScanner stateEndValue rest (endTop s) (err s)
  end.

Definition setTop (p : parse) (s : scanner) : scanner :=
  match parseState s with
  | [] => s
  | _ :: rest => mkScanner (step s) (p :: rest) (endTop s) (err s)
  end.

Definition do_stateEndTop (s : scanner) (c : ascii) : scanner * code :=
  if isSpace c then (s, scanEnd) else (fst (error_ s), scanEnd).

Definition do_stateEndValue (s : scanner) (c : ascii) : scanner * code :=
  match parseState s with
  | [] => do_stateEndTop (mkScanner stateEndTop [] true (err s)) c
  | ps :: _ =>
      if isSpace c then (goto stateEndValue s, scanSkipSpace)
      else match ps with
           | parseObjectKey =>
               if eqc c ":" then (goto stateBeginValue (setTop parseObjectValue s), scanObjectKey)
               else error_ s
           | parseObjectValue =>
               if eqc c "," then (goto stateBeginString (setTop parseObjectKey s), scanObjectValue)
               else if eqc c "}" then (popParseState s, scanEndObject)
               else error_ s
           | parseArrayValue =>
               if eqc c "," then (goto stateBeginValue s, scanArrayValue)
               else if eqc c "]" then (popParseState s, scanEndArray)
               else error_ s
           end
  end.

Definition do_stateBeginValue (s : scanner) (c : ascii) : scanner * code :=
  if isSpace c then (s, scanSkipSpace)
  else if eqc c "{" then pushParseState s stateBeginStringOrEmpty parseObjectKey scanBeginObject
  else if eqc c "[" then pushParseState s stateBeginValueOrEmpty parseArrayValue scanBeginArray
  else if eqc c quote then (goto stateInString s, scanBeginLiteral)
  else if eqc c "-" then (goto stateNeg s, scanBeginLiteral)
  else if eqc c "0" then (goto state0 s, scanBeginLiteral)
  else if eqc c "t" then (goto stateT s, scanBeginLiteral)
  else if eqc c "f" then (goto stateF s, scanBeginLiteral)
  else if eqc c "n" then (goto stateN s, scanBeginLiteral)
  else if between "1" "9" c then (goto state1 s, scanBeginLiteral)
  else error_ s.

Definition do_stateBeginString (s : scanner) (c : ascii) : scanner * code :=
  if isSpace c then (s, scanSkipSpace)
  else if eqc c quote then (goto stateInString s, scanBeginLiteral)
  else error_ s.

Definition do_state0 (s : scanner) (c : ascii) : scanner * code :=
  if eqc c "." then (goto stateDot s, scanContinue)
  else if eqc c "e" || eqc c "E" then (goto stateE s, scanContinue)
  else do_stateEndValue s c.

Definition do_stateESign (s : scanner) (c : ascii) : scanner * code :=
  if isDigit c then (goto stateE0 s, scanContinue) else error_ s.

(** Expect the byte [x], then go on in [st]. *)
Definition expect (x : ascii) (st : state) (s : scanner) (c : ascii) : scanner * code :=
  if eqc c x then (goto st s, scanContinue) else error_ s.

Definition expectHex (st : state) (s : scanner) (c : ascii) : scanner * code :=
  if isHex c then (goto st s, scanContinue) else error_ s.

(** [s.step(s, c)] *)
Definition step_ (s : scanner) (c : ascii) : scanner * code :=
  match step s with
  | stateBeginValue => do_stateBeginValue s c
  | stateBeginValueOrEmpty =>
      if isSpace c then (s, scanSkipSpace)
      else if eqc c "]" then do_stateEndValue s c
      else do_stateBeginValue s c
  | stateBeginStringOrEmpty =>
      if isSpace c then (s, scanSkipSpace)
      else if eqc c "}" then do_stateEndValue (setTop parseObjectValue s) c
      else do_stateBeginString s c
  | stateBeginString => do_stateBeginString s c
  | stateEndValue => do_stateEndValue s c
  | stateEndTop => do_stateEndTop s c
  | stateInString =>
      if eqc c quote then (goto stateEndValue s, scanContinue)
      else if eqc c "\" then (goto stateInStringEsc s, scanContinue)
      else if (nat_of_ascii c <? 32)%nat then error_ s
      else (s, scanContinue)
  | stateInStringEsc =>
      if eqc c "b" || eqc c "f" || eqc c "n" || eqc c "r" || eqc c "t"
         || eqc c "\" || eqc c "/" || eqc c quote
      then (goto stateInString s, scanContinue)
      else if eqc c "u" then (goto stateInStringEscU s, scanContinue)
      else error_ s
  | stateInStringEscU => expectHex stateInStringEscU1 s c
  | stateInStringEscU1 => expectHex stateInStringEscU12 s c
  | stateInStringEscU12 => expectHex stateInStringEscU123 s c
  | stateInStringEscU123 => expectHex stateInString s c
  | stateNeg =>
      if eqc c "0" then (goto state0 s, scanContinue)
      else if between "1" "9" c then (goto state1 s, scanContinue)
      else error_ s
  | state1 => if isDigit c then (goto state1 s, scanContinue) else do_state0 s c
  | state0 => do_state0 s c
  | stateDot => if isDigit c then (goto stateDot0 s, scanContinue) else error_ s
  | stateDot0 =>
      if isDigit c then (s, scanContinue)
      else if eqc c "e" || eqc c "E" then (goto stateE s, scanContinue)
      else do_stateEndValue s c
  | stateE =>
      if eqc c "+" || eqc c "-" then (goto stateESign s, scanContinue)
      else do_stateESign s c
  | stateESign => do_stateESign s c
  | stateE0 => if isDigit c then (s, scanContinue) else do_stateEndValue s c
  | stateT => expect "r" stateTr s c
  | stateTr => expect "u" stateTru s c
  | stateTru => expect "e" stateEndValue s c
  | stateF => expect "a" stateFa s c
  | stateFa => expect "l" stateFal s c
  | stateFal => expect "s" stateFals s c
  | stateFals => expect "e" stateEndValue s c
  | stateN => expect "u" stateNu s c
  | stateNu => expect "l" stateNul s c
  | stateNul => expect "l" stateEndValue s c
  | stateError => (s, scanError)
  end.

(** [s.eof()]: whether the input that ends here is one JSON value. *)
Definition eof (s : scanner) : bool :=
  if err s then false
  else if endTop s then true
  else endTop (fst (step_ s " ")).

Definition hexdigit (n : nat) : ascii :=
  if (n <? 10)%nat then ascii_of_nat (48 + n) else ascii_of_nat (87 + n).

(** The loop of [appendCompact]: the bytes left, the scanner, how many
    bytes a line separator still covers, and the output so far, last
    byte first. *)
Fixpoint compact_loop (escape : bool) (src : string) (s : scanner) (covered : nat)
    (out : list ascii) : scanner * list ascii :=
  match src with
  | EmptyString => (s, out)
  | String c rest =>
      let html := escape && (eqc c "<" || eqc c ">" || eqc c "&") in
      let separator :=
        match rest with
        | String c1 (String c2 _) =>
            escape && eqc c (ascii_of_nat 226) && eqc c1 (ascii_of_nat 128)
            && (eqc c2 (ascii_of_nat 168) || eqc c2 (ascii_of_nat 169))
        | _ => false
        end in
      let (s', v) := step_ s c in
      match v with
      | scanError => (s', out)
      | _ =>
          let out' :=
            if html then
              (hexdigit (nat_of_ascii c mod 16) :: hexdigit (nat_of_ascii c / 16)
                 :: "0" :: "0" :: "u" :: "\" :: out)%char%list
            else if separator then
              match rest with
              | String _ (String c2 _) =>
                  (hexdigit (nat_of_ascii c2 mod 16) :: "2" :: "0" :: "2" :: "u" :: "\" :: out)%char%list
              | _ => out
              end
            else if skipped v || (0 <? covered)%nat then out
            else (c :: out)%list in
          compact_loop escape rest s' (if separator then 2%nat else Nat.pred covered) out'
      end
  end.

(** [appendCompact(nil, src, escape)]: [src] without the insignificant
    space (and with the HTML characters escaped); nothing if [src] is not
    one JSON value. *)
Definition appendCompact (src : string) (escape : bool) : option string :=
  let (s, out) := compact_loop escape src reset 0 [] in
  if eof s then Some (string_of_list_ascii (rev out)) else None.

(** [checkValid] *)
Fixpoint valid_loop (src : string) (s : scanner) : bool :=
  match src with
  | EmptyString => eof s
  | String c rest =>
      let (s', v) := step_ s c in
      match v with
      | scanError => false
      | _ => valid_loop rest s'
      end
  end.

Definition Valid (data : string) : bool := valid_loop data reset.

End GoJson.

(** ** [time] *)

Module GoTime.

(** The civil date, [(year, month, day)], of the day [days] days after
    January 1 of the year 1, in the proleptic Gregorian calendar. *)
Definition civil (days : Z) : Z * Z * Z :=
  let z := days + 306 in                 (* days since March 1 of the year 0 *)
  let era := z / 146097 in
  let doe := z mod 146097 in
  let yoe := (doe - doe / 1460 + doe / 36524 - doe / 146096) / 365 in
  let doy := doe - (365 * yoe + yoe / 4 - yoe / 100) in
  let mp := (5 * doy + 2) / 153 in
  let d := doy - (153 * mp + 2) / 5 + 1 in
  let m := if mp <? 10 then mp + 3 else mp - 9 in
  let y := yoe + era * 400 + (if m <=? 2 then 1 else 0) in
  (y, m, d).

(** [t.Date()]: the date of [t] in its location. *)
Definition Date (t : Time) : Z * Z * Z :=
  civil ((wall t + zone t * Second) / (86400 * Second)).

(** [t.Format("02-01-2006")]: day and month on two digits, the year on
    at least four. *)
Definition Format_02_01_2006 (t : Time) : string :=
  let '(y, m, d) := Date t in
  GoFmt.appendInt d 2 ++ "-" ++ GoFmt.appendInt m 2 ++ "-" ++ GoFmt.appendInt y 4.

End GoTime.

(** * internal/api/params.go *)

Module Params.

(** [url.Values], in the order of the [Set] calls (the keys set by one
    call of [ToQueryParams] are distinct). *)
Definition Values : Type := list (string * string).

Record PrayerTimesParams : Type := mkPrayerTimesParams {
  Latitude : float;
  Longitude : float;
  Address : string;
  Date : Time;
  Method : Z;
  School : Z;
  Timezone : string;
  Language : string;
  Adjustment : Z;
  ISO8601 : bool;
  Qibla : bool
}.

Definition NewPrayerTimesParams (w : World) : PrayerTimesParams :=
  mkPrayerTimesParams 0%float 0%float "" (time_Now w) 5 0 "" "en" 0 false false.

Definition WithDate (date : Time) (p : PrayerTimesParams) : PrayerTimesParams :=
  mkPrayerTimesParams (Latitude p) (Longitude p) (Address p) date (Method p)
    (School p) (Timezone p) (Language p) (Adjustment p) (ISO8601 p) (Qibla p).

Definition WithCoordinates (lat lon : float) (p : PrayerTimesParams) : PrayerTimesParams :=
  mkPrayerTimesParams lat lon (Address p) (Date p) (Method p)
    (School p) (Timezone p) (Language p) (Adjustment p) (ISO8601 p) (Qibla p).

Definition WithAddress (address : string) (p : PrayerTimesParams) : PrayerTimesParams :=
  mkPrayerTimesParams (Latitude p) (Longitude p) address (Date p) (Method p)
    (School p) (Timezone p) (Language p) (Adjustment p) (ISO8601 p) (Qibla p).

Definition WithMethod (method : Z) (p : PrayerTimesParams) : PrayerTimesParams :=
  mkPrayerTimesParams (Latitude p) (Longitude p) (Address p) (Date p) method
    (School p) (Timezone p) (Language p) (Adjustment p) (ISO8601 p) (Qibla p).

(** [GetDateString], a method on [*PrayerTimesParams]: the text and the
    receiver after the call. *)
Definition GetDateString (p : PrayerTimesParams) (w : World)
  : string * PrayerTimesParams :=
  let p' := if Time_IsZero (Date p) then WithDate (time_Now w) p else p in
  (GoTime.Format_02_01_2006 (Date p'), p').

(** [x != 0] on [float64]. *)
Definition nonzero (x : float) : bool := negb (PrimFloat.eqb x 0).

Definition ToQueryParams (p : PrayerTimesParams) : Values :=
  ((if nonzero (Latitude p) || nonzero (Longitude p)
    then [("latitude", GoFmt.FormatFixed 6 (Latitude p));
          ("longitude", GoFmt.FormatFixed 6 (Longitude p))]
    else [])
   ++ [("method", itoa (Method p))]
   ++ (if School p >? 0 then [("school", itoa (School p))] else [])
   ++ (if negb (String.eqb (Timezone p) "") then [("timezonestring", Timezone p)] else [])
   ++ (if negb (Adjustment p =? 0) then [("adjustment", itoa (Adjustment p))] else [])
   ++ (if ISO8601 p then [("iso8601", "true")] else []))%list.

Record CalendarParams : Type := mkCalendarParams {
  cLatitude : float;
  cLongitude : float;
  cAddress : string;
  Year : Z;
  Month : Z;
  cMethod : Z;
  Duration : Z;
  Months : Z;
  Alarm : string;
  Events : string;
  cLanguage : string;
  Color : string;
  Hijri : string;
  Jumuah : bool;
  JumuahDuration : Z;
  cQibla : bool;
  Dua : bool;
  Traveler : bool;
  Ramadan : bool;
  IftarDuration : Z;
  TaraweehDuration : Z;
  SuhoorDuration : Z;
  HijriHolidays : bool;
  Iqama : string
}.

Definition CalendarToQueryParams (p : CalendarParams) : Values :=
  ((if nonzero (cLatitude p) || nonzero (cLongitude p)
    then [("latitude", GoFmt.FormatFixed 6 (cLatitude p));
          ("longitude", GoFmt.FormatFixed 6 (cLongitude p))]
    else [])
   ++ [("method", itoa (cMethod p))])%list.

End Params.

(** * internal/api/types.go *)

Module Types.

(** A value decoded into an [interface{}]. *)
#[warnings="-register-all"]
Inductive any : Type :=
| Nil
| Bool (b : bool)
| Number (x : float)
| Text (s : string)
| Array (l : list any)
| Object (m : list (string * any)).

Record Timings : Type := mkTimings {
  Fajr : string; Sunrise : string; Dhuhr : string; Asr : string;
  Sunset : string; Maghrib : string; Isha : string; Imsak : string;
  Midnight : string; Firstthird : string; Lastthird : string
}.

Record Weekday : Type := mkWeekday { wEn : string; wAr : string }.
Record MonthInfo : Type := mkMonthInfo { mNumber : Z; mEn : string }.
Record HijriMonthInfo : Type := mkHijriMonthInfo { hNumber : Z; hEn : string; hAr : string }.
Record Designation : Type := mkDesignation { Abbreviated : string; Expanded : string }.

Record GregorianDate : Type := mkGregorianDate {
  gDate : string; gFormat : string; gDay : string; gWeekday : Weekday;
  gMonth : MonthInfo; gYear : string; gDesignation : Designation
}.

Record HijriDate : Type := mkHijriDate {
  hDate : string; hFormat : string; hDay : string; hWeekday : Weekday;
  hMonth : HijriMonthInfo; hYear : string; hDesignation : Designation;
  Holidays : list string
}.

Record Date : Type := mkDate {
  Readable : string; Timestamp : string; Gregorian : GregorianDate; Hijri : HijriDate
}.

Record MethodParams : Type := mkMethodParams { pFajr : any; pIsha : any; pMaghrib : any }.
Record MethodLocation : Type := mkMethodLocation { lLatitude : float; lLongitude : float }.

Record Method : Type := mkMethod {
  ID : Z; Name : string; Params : MethodParams; Location : MethodLocation
}.

Record Offset : Type := mkOffset {
  oImsak : Z; oFajr : Z; oSunrise : Z; oDhuhr : Z; oAsr : Z;
  oMaghrib : Z; oSunset : Z; oIsha : Z; oMidnight : Z
}.

Record Meta : Type := mkMeta {
  Latitude : float; Longitude : float; Timezone : string; MetaMethod : Method;
  LatitudeAdjustmentMethod : string; MidnightMode : string; School : string;
  MetaOffset : Offset
}.

Record Data : Type := mkData { DataTimings : Timings; DataDate : Date; DataMeta : Meta }.

Record PrayerTimesResponse : Type := mkPrayerTimesResponse {
  Code : Z;
  Status : string;
  PData : Data
}.

Record QiblaData : Type := mkQiblaData {
  qLatitude : float; qLongitude : float; Direction : float
}.

Record QiblaResponse : Type := mkQiblaResponse {
  qCode : Z;
  qStatus : string;
  QData : QiblaData
}.

(** The anonymous struct [GetCalendarMonth] decodes into. *)
Record CalendarResult : Type := mkCalendarResult {
  cCode : Z;
  cStatus : string;
  CData : list PrayerTimesResponse
}.

(** The zero values. *)
Definition zeroData : Data :=
  mkData (mkTimings "" "" "" "" "" "" "" "" "" "" "")
         (mkDate "" ""
            (mkGregorianDate "" "" "" (mkWeekday "" "") (mkMonthInfo 0 "") "" (mkDesignation "" ""))
            (mkHijriDate "" "" "" (mkWeekday "" "") (mkHijriMonthInfo 0 "" "") ""
               (mkDesignation "" "") []))
         (mkMeta 0%float 0%float "" (mkMethod 0 "" (mkMethodParams Nil Nil Nil)
                                        (mkMethodLocation 0%float 0%float))
            "" "" "" (mkOffset 0 0 0 0 0 0 0 0 0)).

(** What the program asks of [encoding/json] for these types:
    [json.Unmarshal] into a fresh value and [json.Marshal]. *)
Record Codec : Type := mkCodec {
  UnmarshalPrayerTimes : string -> result PrayerTimesResponse;
  UnmarshalQibla : string -> result QiblaResponse;
  UnmarshalCalendar : string -> result CalendarResult;
  MarshalPrayerTimes : PrayerTimesResponse -> result string;
  MarshalQibla : QiblaResponse -> result string
}.

End Types.

(** * internal/cache/cache.go *)

Module Cache.

Definition DefaultTTL : Z := 24 * Hour.

Record Entry : Type := mkEntry {
  Data : string;                (* [json.RawMessage] *)
  CreatedAt : Time;
  ExpiresAt : Time;
  Key : string
}.

Record Cache : Type := mkCache {
  dir : string;
  ttl : Z;
  enabled : bool
}.

Definition Option : Type := Cache -> Cache.

Definition WithTTL (t : Z) : Option := fun c => mkCache (dir c) t (enabled c).
Definition WithEnabled (e : bool) : Option := fun c => mkCache (dir c) (ttl c) e.

(** ** Package [os], on the files of the world.  The only failures are
    those of a file or a directory that is not there. *)

Definition MkdirAll (d : string) (w : World) : World :=
  set_dirs ({[ d ]} ∪ dirs w) w.

Definition ReadFile (p : path) (w : World) : result string :=
  match files w !! p with
  | Some data => Ok data
  | None => Err (LibraryError "open: no such file or directory")
  end.

Definition WriteFile (p : path) (data : string) (w : World) : option error * World :=
  if decide (fst p ∈ dirs w)
  then (None, set_files (<[ p := data ]> (files w)) w)
  else (Some (LibraryError "open: no such file or directory"), w).

Definition Remove (p : path) (w : World) : option error * World :=
  match files w !! p with
  | Some _ => (None, set_files (delete p (files w)) w)
  | None => (Some (LibraryError "remove: no such file or directory"), w)
  end.

(** [New]: the options applied in order, then the directory created if
    the cache is enabled. *)
Definition New (d : string) (opts : list Option) (w : World) : result Cache * World :=
  let c := fold_left (fun c opt => opt c) opts (mkCache d DefaultTTL true) in
  if enabled c then (Ok c, MkdirAll (dir c) w) else (Ok c, w).

(** An argument of [GenerateKey], of the types its callers pass. *)
Inductive value : Type :=
| VString (s : string)
| VInt (n : Z)
| VFloat (x : float).

(** [fmt]'s [%v]. *)
Definition fmt_v (v : value) : string :=
  match v with
  | VString s => s
  | VInt n => itoa n
  | VFloat x => GoFmt.FormatShortest x
  end.

(** What [GenerateKey] writes into the hash. *)
Definition key_text (params : list value) : string :=
  String.concat "" (map fmt_v params).

Definition GenerateKey (params : list value) : string :=
  substring 0 16 (Sha256.hexdigest (key_text params)).

Definition getPath (c : Cache) (key : string) : path := (dir c, key ++ ".json").

Definition IsEnabled (c : Cache) : bool := enabled c.
Definition SetEnabled (e : bool) (c : Cache) : Cache := mkCache (dir c) (ttl c) e.

(** What the cache asks of [encoding/json]: [json.Marshal] of an entry
    and [json.Unmarshal] into one. *)
Record Codec : Type := mkCodec {
  Marshal : Entry -> result string;
  Unmarshal : string -> result Entry
}.

Section Store.

Variable json : Codec.

(** [Get]: the data and whether the entry was found. *)
Definition Get (c : Cache) (key : string) (w : World) : (string * bool) * World :=
  if negb (enabled c) then (("", false), w)
  else
    let path := getPath c key in
    match ReadFile path w with
    | Err _ => (("", false), w)
    | Ok data =>
        match Unmarshal json data with
        | Err _ => (("", false), snd (Remove path w))
        | Ok entry =>
            if Time_After (time_Now w) (ExpiresAt entry)
            then (("", false), snd (Remove path w))
            else ((Data entry, true), w)
        end
    end.

Definition Set_ (c : Cache) (key : string) (data : string) (w : World)
  : option error * World :=
  if negb (enabled c) then (None, w)
  else
    let entry := mkEntry data (time_Now w) (Time_Add (time_Now w) (ttl c)) key in
    match Marshal json entry with
    | Err err => (Some (Wrapf "failed to marshal cache entry" err), w)
    | Ok entryData =>
        let path := getPath c key in
        match WriteFile path entryData w with
        | (Some err, w') => (Some (Wrapf "failed to write cache file" err), w')
        | (None, w') => (None, w')
        end
    end.

Definition Delete (c : Cache) (key : string) (w : World) : option error * World :=
  match files w !! getPath c key with
  | Some _ => (None, snd (Remove (getPath c key) w))
  | None => (None, w)
  end.

Definition Exists (c : Cache) (key : string) (w : World) : bool * World :=
  let '((_, found), w') := Get c key w in (found, w').

End Store.

End Cache.

(** * [encoding/json] on cache entries

    [json.Marshal] of an [Entry] and [json.Unmarshal] into one, for
    documents of ASCII text: field names are matched without regard to
    ASCII case, a [\u] escape of a surrogate decodes to U+FFFD, and bytes
    above 127 are copied as they are. *)

Module EntryJson.
Import GoJson.

(** ** [time.Time] as RFC 3339 *)

Definition days_from_civil (y m d : Z) : Z :=
  let y' := if m <=? 2 then y - 1 else y in
  let era := y' / 400 in
  let yoe := y' mod 400 in
  let mp := (m + 9) mod 12 in
  let doy := (153 * mp + 2) / 5 + d - 1 in
  let doe := yoe * 365 + yoe / 4 - yoe / 100 + doy in
  era * 146097 + doe - 306.

Definition pad (width : nat) (n : Z) : string := GoFmt.appendInt n width.

Fixpoint trim_zeros (fuel : nat) (s : string) : string :=
  match fuel with
  | O => s
  | S fuel' =>
      let n := String.length s in
      match get (n - 1) s with
      | Some "0"%char => trim_zeros fuel' (substring 0 (n - 1) s)
      | _ => s
      end
  end.

(** [t.MarshalJSON()] without the quotation marks: the layout
    [2006-01-02T15:04:05.999999999Z07:00]; nothing for a year outside
    0..9999 or a zone of a day or more. *)
Definition FormatRFC3339Nano (t : Time) : option string :=
  let local := wall t + zone t * Second in
  let '(y, m, d) := GoTime.civil (local / (86400 * Second)) in
  let rest := local mod (86400 * Second) in
  let secs := rest / Second in
  let ns := rest mod Second in
  let zmin := Z.quot (zone t) 60 in
  if (y <? 0) || (9999 <? y) || (24 <=? Z.abs zmin / 60) then None
  else Some (pad 4 y ++ "-" ++ pad 2 m ++ "-" ++ pad 2 d ++ "T"
             ++ pad 2 (secs / 3600) ++ ":" ++ pad 2 ((secs / 60) mod 60) ++ ":"
             ++ pad 2 (secs mod 60)
             ++ (if ns =? 0 then "" else "." ++ trim_zeros 9 (pad 9 ns))
             ++ (if zmin =? 0 then "Z"
                 else (if zmin <? 0 then "-" else "+")
                      ++ pad 2 (Z.abs zmin / 60) ++ ":" ++ pad 2 (Z.abs zmin mod 60))).

(** The number written by the [n] digits at the head of [s]. *)
Fixpoint number (n : nat) (s : string) (acc : Z) : option (Z * string) :=
  match n with
  | O => Some (acc, s)
  | S n' =>
      match s with
      | String c rest =>
          if isDigit c then number n' rest (acc * 10 + Z.of_nat (nat_of_ascii c) - 48)
          else None
      | EmptyString => None
      end
  end.

Definition literal (c : ascii) (s : string) : option string :=
  match s with
  | String a rest => if eqc a c then Some rest else None
  | EmptyString => None
  end.

(** The digits of a fraction of a second: nanoseconds and what follows. *)
Fixpoint fraction (fuel : nat) (s : string) (scale acc : Z) : Z * string :=
  match fuel, s with
  | S fuel', String c rest =>
      if isDigit c
      then fraction fuel' rest (scale / 10)
             (acc + (Z.of_nat (nat_of_ascii c) - 48) * (scale / 10))
      else (acc, s)
  | _, _ => (acc, s)
  end.

Definition days_in (y m : Z) : Z :=
  days_from_civil (if m =? 12 then y + 1 else y) (if m =? 12 then 1 else m + 1) 1
  - days_from_civil y m 1.

(** [parseStrictRFC3339] *)
Definition ParseRFC3339 (s : string) : option Time :=
  match number 4 s 0 with None => None | Some (y, s) =>
  match literal "-" s with None => None | Some s =>
  match number 2 s 0 with None => None | Some (m, s) =>
  match literal "-" s with None => None | Some s =>
  match number 2 s 0 with None => None | Some (d, s) =>
  match literal "T" s with None => None | Some s =>
  match number 2 s 0 with None => None | Some (hh, s) =>
  match literal ":" s with None => None | Some s =>
  match number 2 s 0 with None => None | Some (mi, s) =>
  match literal ":" s with None => None | Some s =>
  match number 2 s 0 with None => None | Some (ss, s) =>
  let (ns, s) :=
    match literal "." s with
    | Some s' =>
        match s' with
        | String c _ => if isDigit c then fraction (String.length s') s' Second 0 else (-1, s)
        | EmptyString => (-1, s)
        end
    | None => (0, s)
    end in
  let offset :=
    match s with
    | "Z" => Some 0
    | String sign s1 =>
        if eqc sign "+" || eqc sign "-" then
          match number 2 s1 0 with None => None | Some (zh, s2) =>
          match literal ":" s2 with None => None | Some s3 =>
          match number 2 s3 0 with None => None | Some (zm, s4) =>
            if String.eqb s4 "" && (zh <? 24) && (zm <? 60)
            then Some ((if eqc sign "-" then -1 else 1) * (zh * 3600 + zm * 60))
            else None
          end end end
        else None
    | EmptyString => None
    end in
  match offset with
  | None => None
  | Some off =>
      if (1 <=? m) && (m <=? 12) && (1 <=? d) && (d <=? days_in y m)
         && (hh <? 24) && (mi <? 60) && (ss <? 60) && (0 <=? ns)
      then Some (mkTime (((days_from_civil y m d * 86400 + hh * 3600 + mi * 60 + ss) - off)
                           * Second + ns) off)
      else None
  end
  end end end end end end end end end end end.

(** ** Strings *)

(** [appendString] with HTML escaping. *)
Fixpoint escape_string (s : string) : string :=
  match s with
  | EmptyString => EmptyString
  | String c rest =>
      let n := nat_of_ascii c in
      let hex := "\u00" ++ String (hexdigit (n / 16)) (String (hexdigit (n mod 16)) "") in
      (if eqc c quote then String "\" (String quote "")
       else if eqc c "\" then "\\"
       else if (n =? 8)%nat then "\b"
       else if (n =? 12)%nat then "\f"
       else if (n =? 10)%nat then "\n"
       else if (n =? 13)%nat then "\r"
       else if (n =? 9)%nat then "\t"
       else if (n <? 32)%nat || eqc c "<" || eqc c ">" || eqc c "&" then hex
       else String c "")
      ++ escape_string rest
  end.

Definition quote_string (s : string) : string :=
  String quote (escape_string s) ++ String quote "".

Definition hexval (c : ascii) : Z :=
  let n := Z.of_nat (nat_of_ascii c) in
  if isDigit c then n - 48 else if between "a" "f" c then n - 87 else n - 55.

Definition byte (n : Z) : ascii := ascii_of_nat (Z.to_nat n).

(** The UTF-8 encoding of a code point below 65536. *)
Definition utf8 (r : Z) : string :=
  if r <? 128 then String (byte r) ""
  else if r <? 2048 then String (byte (192 + r / 64)) (String (byte (128 + r mod 64)) "")
  else
    let r := if (55296 <=? r) && (r <? 57344) then 65533 else r in
    String (byte (224 + r / 4096))
      (String (byte (128 + (r / 64) mod 64)) (String (byte (128 + r mod 64)) "")).

(** The text between the quotation marks of a valid string literal. *)
Fixpoint unescape (fuel : nat) (s : string) : string :=
  match fuel with
  | O => EmptyString
  | S fuel' =>
      match s with
      | EmptyString => EmptyString
      | String c rest =>
          if eqc c "\" then
            match rest with
            | String e rest' =>
                if eqc e "u" then
                  match rest' with
                  | String h1 (String h2 (String h3 (String h4 rest''))) =>
                      utf8 (((hexval h1 * 16 + hexval h2) * 16 + hexval h3) * 16 + hexval h4)
                      ++ unescape fuel' rest''
                  | _ => EmptyString
                  end
                else
                  String (if eqc e "b" then ascii_of_nat 8
                          else if eqc e "f" then ascii_of_nat 12
                          else if eqc e "n" then ascii_of_nat 10
                          else if eqc e "r" then ascii_of_nat 13
                          else if eqc e "t" then ascii_of_nat 9
                          else e)
                         (unescape fuel' rest')
            | EmptyString => EmptyString
            end
          else String c (unescape fuel' rest)
      end
  end.

(** The literal [raw] without its quotation marks, if it is a string. *)
Definition string_body (raw : string) : option string :=
  match raw with
  | String c rest =>
      let n := String.length rest in
      if eqc c quote && (1 <=? n)%nat then Some (substring 0 (n - 1) rest) else None
  | EmptyString => None
  end.

(** ** Values *)

Fixpoint skip_space (s : string) : string :=
  match s with
  | String c rest => if isSpace c then skip_space rest else s
  | EmptyString => s
  end.

(** The first value of [src], which starts with it, and what follows. *)
Fixpoint scan_value (src : string) (s : scanner) (seen : list ascii)
  : option (string * string) :=
  match src with
  | EmptyString => if eof s then Some (string_of_list_ascii (rev seen), "") else None
  | String c rest =>
      let (s', v) := step_ s c in
      match v with
      | scanError => None
      | scanEnd => Some (string_of_list_ascii (rev seen), src)
      | _ =>
          if endTop s' then Some (string_of_list_ascii (rev (c :: seen)), rest)
          else scan_value rest s' (c :: seen)
      end
  end.

(** The members of the object whose opening brace was just read: the
    names as written and the values as written. *)
Fixpoint members (fuel : nat) (src : string) : option (list (string * string)) :=
  match fuel with
  | O => None
  | S fuel' =>
      match scan_value (skip_space src) reset [] with
      | None => None
      | Some (name, rest) =>
          match literal ":" (skip_space rest) with
          | None => None
          | Some rest =>
              match scan_value (skip_space rest) reset [] with
              | None => None
              | Some (value, rest) =>
                  match skip_space rest with
                  | String c rest' =>
                      if eqc c "," then
                        match members fuel' rest' with
                        | Some ms => Some ((name, value) :: ms)
                        | None => None
                        end
                      else if eqc c "}" then Some [(name, value)]
                      else None
                  | EmptyString => None
                  end
              end
          end
      end
  end.

Definition lower (c : ascii) : ascii :=
  if between "A" "Z" c then ascii_of_nat (nat_of_ascii c + 32) else c.

Fixpoint fold_case (s : string) : string :=
  match s with
  | EmptyString => EmptyString
  | String c rest => String (lower c) (fold_case rest)
  end.

Definition zeroTime : Time := mkTime 0 0.
Definition zeroEntry : Cache.Entry := Cache.mkEntry "" zeroTime zeroTime "".

Definition time_field (raw : string) (old : Time) : result Time :=
  if String.eqb raw "null" then Ok old
  else match string_body raw with
       | None => Err (LibraryError "Time.UnmarshalJSON: input is not a JSON string")
       | Some body =>
           match ParseRFC3339 body with
           | Some t => Ok t
           | None => Err (LibraryError "parsing time: cannot parse")
           end
       end.

(** One member stored into the entry. *)
Definition store_member (e : Cache.Entry) (m : string * string) : result Cache.Entry :=
  let (name, raw) := m in
  match string_body name with
  | None => Err (LibraryError "invalid object key")
  | Some body =>
      let field := fold_case (unescape (String.length body) body) in
      if String.eqb field "data"
      then Ok (Cache.mkEntry raw (Cache.CreatedAt e) (Cache.ExpiresAt e) (Cache.Key e))
      else if String.eqb field "created_at" then
        match time_field raw (Cache.CreatedAt e) with
        | Ok t => Ok (Cache.mkEntry (Cache.Data e) t (Cache.ExpiresAt e) (Cache.Key e))
        | Err err => Err err
        end
      else if String.eqb field "expires_at" then
        match time_field raw (Cache.ExpiresAt e) with
        | Ok t => Ok (Cache.mkEntry (Cache.Data e) (Cache.CreatedAt e) t (Cache.Key e))
        | Err err => Err err
        end
      else if String.eqb field "key" then
        if String.eqb raw "null" then Ok e
        else match string_body raw with
             | Some k =>
                 Ok (Cache.mkEntry (Cache.Data e) (Cache.CreatedAt e) (Cache.ExpiresAt e)
                       (unescape (String.length k) k))
             | None =>
                 Err (LibraryError "json: cannot unmarshal into Go struct field Entry.key of type string")
             end
      else Ok e
  end.

Fixpoint store_members (e : Cache.Entry) (ms : list (string * string)) : result Cache.Entry :=
  match ms with
  | [] => Ok e
  | m :: rest =>
      match store_member e m with
      | Ok e' => store_members e' rest
      | Err err => Err err
      end
  end.

(** [json.Unmarshal(data, &entry)] into a zero [entry]. *)
Definition Unmarshal (data : string) : result Cache.Entry :=
  if negb (Valid data) then Err (LibraryError "invalid character")
  else
    match skip_space data with
    | String c rest =>
        if eqc c "{" then
          match skip_space rest with
          | String c' _ =>
              if eqc c' "}" then Ok zeroEntry
              else match members (String.length rest) rest with
                   | Some ms => store_members zeroEntry ms
                   | None => Err (LibraryError "invalid character")
                   end
          | EmptyString => Err (LibraryError "unexpected end of JSON input")
          end
        else if eqc c "n" then Ok zeroEntry
        else Err (LibraryError "json: cannot unmarshal into Go value of type cache.Entry")
    | EmptyString => Err (LibraryError "unexpected end of JSON input")
    end.

(** [json.Marshal(entry)]; an empty [Data] is the nil [RawMessage]. *)
Definition Marshal (e : Cache.Entry) : result string :=
  match appendCompact (if String.eqb (Cache.Data e) "" then "null" else Cache.Data e) true with
  | None => Err (LibraryError "json: error calling MarshalJSON for type json.RawMessage")
  | Some data =>
      match FormatRFC3339Nano (Cache.CreatedAt e), FormatRFC3339Nano (Cache.ExpiresAt e) with
      | Some created, Some expires =>
          Ok (quoted "{'data':" ++ data
              ++ quoted ",'created_at':'" ++ created
              ++ quoted "','expires_at':'" ++ expires
              ++ quoted "','key':" ++ quote_string (Cache.Key e) ++ "}")
      | _, _ => Err (LibraryError "Time.MarshalJSON: year outside of range [0,9999]")
      end
  end.

Definition codec : Cache.Codec := Cache.mkCodec Marshal Unmarshal.

End EntryJson.

(** * internal/api/client.go *)

Module Client.

Definition DefaultTimeout : Z := 30 * Second.
Definition DefaultMaxRetries : Z := 3.
Definition AlAdhanBaseURL : string := "https://api.aladhan.com/v1".
Definition UserAgent : string := "pray-cli/1.0.0".

Record Client : Type := mkClient {
  baseURL : string;
  timeout : Z;
  maxRetries : Z;
  userAgent : string
}.

Definition NewClient : Client :=
  mkClient AlAdhanBaseURL DefaultTimeout DefaultMaxRetries UserAgent.

Definition WithMaxRetries (retries : Z) (c : Client) : Client :=
  mkClient (baseURL c) (timeout c) retries (userAgent c).

Definition WithBaseURL (u : string) (c : Client) : Client :=
  mkClient u (timeout c) (maxRetries c) (userAgent c).

Section Requests.

Variable net : Network.

(** The scheduler's choice when the timer and [ctx.Done()] are ready at
    the same instant of the [select]: [true] takes the timer. *)
Variable timer_first : Z -> bool.

(** [doRequest]: one HTTP request; the body only for a 2xx status. *)
Definition doRequest (c : Client) (method url : string) (w : World)
  : result string * World :=
  let x := net (sent w) method url in
  let w' := count_sent (elapse (took x) w) in
  match outcome x with
  | NewRequestFailed e => (Err (Wrapf "failed to create request" e), w')
  | DoFailed e => (Err (Wrapf "request failed" e), w')
  | ReadFailed _ e => (Err (Wrapf "failed to read response body" e), w')
  | Responded status body =>
      if (status <? 200) || (status >=? 300)
      then (Err (Errorf ("unexpected status code: " ++ itoa status ++ ", body: " ++ body)), w')
      else (Ok body, w')
  end.

(** [time.Duration(attempt*attempt) * 100 * time.Millisecond] *)
Definition backoff (attempt : Z) : Z :=
  int_mul (int_mul (int_mul attempt attempt) 100) Millisecond.

(** The [select] between [ctx.Done()] and [time.After(backoff)]: the
    error to return when the context wins, the world after the wait
    otherwise. *)
Definition await_backoff (ctx : Context) (attempt : Z) (w : World)
  : error * World + World :=
  let d := backoff attempt in
  let fire := now w + Z.max d 0 in
  let slept := record (EvBackoff attempt d) (set_now fire w) in
  match doneAt ctx with
  | None => inr slept
  | Some t =>
      let closed := Z.max t (now w) in
      if closed <? fire then inl (reason ctx, set_now closed w)
      else if fire <? closed then inr slept
      else if timer_first attempt then inr slept
      else inl (reason ctx, set_now closed w)
  end.

(** The loop of [doRequestWithRetry], from the iteration [attempt] on.
    [fuel] bounds the number of iterations; [None] is a loop that was
    still running when the fuel ran out. *)
Fixpoint retry_from (fuel : nat) (c : Client) (ctx : Context)
    (method url : string) (attempt : Z) (lastErr : option error) (w : World)
  : option (result string * World) :=
  match fuel with
  | O => None
  | S fuel' =>
      if attempt <=? maxRetries c then
        match (if attempt >? 0 then await_backoff ctx attempt w else inr w) with
        | inl (e, w1) => Some (Err e, w1)
        | inr w1 =>
            match doRequest c method url w1 with
            | (Ok resp, w2) =>
                Some (Ok resp, record (EvAttempt attempt (now w2) None) w2)
            | (Err err, w2) =>
                let w3 := record (EvAttempt attempt (now w2) (Some err)) w2 in
                match ctx_Err ctx (now w3) with
                | Some ce => Some (Err ce, w3)
                | None =>
                    retry_from fuel' c ctx method url (int_add attempt 1) (Some err) w3
                end
            end
        end
      else
        Some (Err (wrap_error ("request failed after "
                                 ++ itoa (int_add (maxRetries c) 1) ++ " attempts")
                              lastErr), w)
  end.

Definition doRequestWithRetry (fuel : nat) (c : Client) (ctx : Context)
    (method url : string) (w : World) : option (result string * World) :=
  retry_from fuel c ctx method url 0 None w.

(** ** The API operations *)

Variable codec : Types.Codec.

(** [url.Values.Encode] *)
Variable Encode : Params.Values -> string.

Definition api_error (status : string) (code : Z) : error :=
  Errorf ("API error: " ++ status ++ " (code: " ++ itoa code ++ ")").

(** [GetPrayerTimes]: the result, the parameters after the call (which
    [GetDateString] may have updated) and the world. *)
Definition GetPrayerTimes (fuel : nat) (c : Client) (ctx : Context)
    (params : Params.PrayerTimesParams) (w : World)
  : option (result Types.PrayerTimesResponse * Params.PrayerTimesParams * World) :=
  let (date, params) := Params.GetDateString params w in
  let endpoint := baseURL c ++ "/timings/" ++ date in
  let fullURL := endpoint ++ "?" ++ Encode (Params.ToQueryParams params) in
  match doRequestWithRetry fuel c ctx "GET" fullURL w with
  | None => None
  | Some (Err err, w') =>
      Some (Err (Wrapf "failed to fetch prayer times" err), params, w')
  | Some (Ok resp, w') =>
      match Types.UnmarshalPrayerTimes codec resp with
      | Err err => Some (Err (Wrapf "failed to parse response" err), params, w')
      | Ok result =>
          if negb (Types.Code result =? 200)
          then Some (Err (api_error (Types.Status result) (Types.Code result)), params, w')
          else Some (Ok result, params, w')
      end
  end.

Definition GetPrayerTimesByAddress (fuel : nat) (c : Client) (ctx : Context)
    (params : Params.PrayerTimesParams) (w : World)
  : option (result Types.PrayerTimesResponse * Params.PrayerTimesParams * World) :=
  if String.eqb (Params.Address params) ""
  then Some (Err (Errorf "address is required"), params, w)
  else
    let (date, params) := Params.GetDateString params w in
    let endpoint := baseURL c ++ "/timingsByAddress/" ++ date in
    let query := (Params.ToQueryParams params ++ [("address", Params.Address params)])%list in
    let fullURL := endpoint ++ "?" ++ Encode query in
    match doRequestWithRetry fuel c ctx "GET" fullURL w with
    | None => None
    | Some (Err err, w') =>
        Some (Err (Wrapf "failed to fetch prayer times" err), params, w')
    | Some (Ok resp, w') =>
        match Types.UnmarshalPrayerTimes codec resp with
        | Err err => Some (Err (Wrapf "failed to parse response" err), params, w')
        | Ok result =>
            if negb (Types.Code result =? 200)
            then Some (Err (api_error (Types.Status result) (Types.Code result)), params, w')
            else Some (Ok result, params, w')
        end
    end.

Definition GetQibla (fuel : nat) (c : Client) (ctx : Context)
    (latitude longitude : float) (w : World)
  : option (result Types.QiblaResponse * World) :=
  let endpoint := baseURL c ++ "/qibla/" ++ GoFmt.FormatFixed 6 latitude
                  ++ "/" ++ GoFmt.FormatFixed 6 longitude in
  match doRequestWithRetry fuel c ctx "GET" endpoint w with
  | None => None
  | Some (Err err, w') => Some (Err (Wrapf "failed to fetch Qibla direction" err), w')
  | Some (Ok resp, w') =>
      match Types.UnmarshalQibla codec resp with
      | Err err => Some (Err (Wrapf "failed to parse response" err), w')
      | Ok result =>
          if negb (Types.qCode result =? 200)
          then Some (Err (api_error (Types.qStatus result) (Types.qCode result)), w')
          else Some (Ok result, w')
      end
  end.

Definition GetCalendarMonth (fuel : nat) (c : Client) (ctx : Context)
    (params : Params.CalendarParams) (w : World)
  : option (result (list Types.PrayerTimesResponse) * World) :=
  let endpoint := baseURL c ++ "/calendar/" ++ itoa (Params.Year params)
                  ++ "/" ++ itoa (Params.Month params) in
  let fullURL := endpoint ++ "?" ++ Encode (Params.CalendarToQueryParams params) in
  match doRequestWithRetry fuel c ctx "GET" fullURL w with
  | None => None
  | Some (Err err, w') => Some (Err (Wrapf "failed to fetch calendar" err), w')
  | Some (Ok resp, w') =>
      match Types.UnmarshalCalendar codec resp with
      | Err err => Some (Err (Wrapf "failed to parse response" err), w')
      | Ok result => Some (Ok (Types.CData result), w')
      end
  end.

Definition DownloadICS (fuel : nat) (c : Client) (ctx : Context)
    (icsURL : string) (w : World) : option (result string * World) :=
  match doRequestWithRetry fuel c ctx "GET" icsURL w with
  | None => None
  | Some (Err err, w') => Some (Err (Wrapf "failed to download ICS file" err), w')
  | Some (Ok resp, w') => Some (Ok resp, w')
  end.

End Requests.

End Client.

(** * internal/api/cached_client.go *)

Module CachedClient.

Record CachedClient : Type := mkCachedClient {
  client : Client.Client;
  cache : option Cache.Cache;   (* [None] is the nil pointer *)
  bypass : bool
}.

Definition NewCachedClient (c : Client.Client) (opts : list (CachedClient -> CachedClient))
  : CachedClient :=
  fold_left (fun cc opt => opt cc) opts (mkCachedClient c None false).

Definition WithCache (c : Cache.Cache) (cc : CachedClient) : CachedClient :=
  mkCachedClient (client cc) (Some c) (bypass cc).

Definition WithBypassCache (b : bool) (cc : CachedClient) : CachedClient :=
  mkCachedClient (client cc) (cache cc) b.

(** The cache to consult: none if there is no cache, if the caller asked
    to bypass it, or if it is disabled. *)
Definition consulted (cc : CachedClient) : option Cache.Cache :=
  match cache cc with
  | None => None
  | Some ch => if bypass cc || negb (Cache.IsEnabled ch) then None else Some ch
  end.

Section Operations.

Variable net : Network.
Variable timer_first : Z -> bool.
Variable codec : Types.Codec.
Variable Encode : Params.Values -> string.
Variable json : Cache.Codec.

Definition times_key (params : Params.PrayerTimesParams) (w : World)
  : string * Params.PrayerTimesParams :=
  let (date, params') := Params.GetDateString params w in
  (Cache.GenerateKey [Cache.VString "times";
                      Cache.VFloat (Params.Latitude params);
                      Cache.VFloat (Params.Longitude params);
                      Cache.VString date;
                      Cache.VInt (Params.Method params)],
   params').

Definition address_key (params : Params.PrayerTimesParams) (w : World)
  : string * Params.PrayerTimesParams :=
  let (date, params') := Params.GetDateString params w in
  (Cache.GenerateKey [Cache.VString "addr";
                      Cache.VString (Params.Address params);
                      Cache.VString date;
                      Cache.VInt (Params.Method params)],
   params').

Definition qibla_key (latitude longitude : float) : string :=
  Cache.GenerateKey [Cache.VString "qibla";
                     Cache.VString (GoFmt.FormatFixed 4 latitude);
                     Cache.VString (GoFmt.FormatFixed 4 longitude)].

(** The cached response under [key], if there is an entry and its data
    decode. *)
Definition lookup {A : Type} (decode : string -> result A) (ch : Cache.Cache)
    (key : string) (w : World) : option A * World :=
  match Cache.Get json ch key w with
  | ((data, true), w') =>
      match decode data with
      | Ok r => (Some r, w')
      | Err _ => (None, w')
      end
  | ((_, false), w') => (None, w')
  end.

(** The response stored under [key], if it encodes; a failure to write
    is ignored. *)
Definition store {A : Type} (encode : A -> result string) (ch : Cache.Cache)
    (key : string) (r : A) (w : World) : World :=
  match encode r with
  | Ok data => snd (Cache.Set_ json ch key data w)
  | Err _ => w
  end.

Definition GetPrayerTimes (fuel : nat) (cc : CachedClient) (ctx : Context)
    (params : Params.PrayerTimesParams) (w : World)
  : option (result Types.PrayerTimesResponse * Params.PrayerTimesParams * World) :=
  match consulted cc with
  | None => Client.GetPrayerTimes net timer_first codec Encode fuel (client cc) ctx params w
  | Some ch =>
      let (key, params) := times_key params w in
      match lookup (Types.UnmarshalPrayerTimes codec) ch key w with
      | (Some r, w1) => Some (Ok r, params, w1)
      | (None, w1) =>
          match Client.GetPrayerTimes net timer_first codec Encode fuel (client cc) ctx params w1 with
          | None => None
          | Some (Err err, params, w2) => Some (Err err, params, w2)
          | Some (Ok r, params, w2) =>
              Some (Ok r, params, store (Types.MarshalPrayerTimes codec) ch key r w2)
          end
      end
  end.

Definition GetPrayerTimesByAddress (fuel : nat) (cc : CachedClient) (ctx : Context)
    (params : Params.PrayerTimesParams) (w : World)
  : option (result Types.PrayerTimesResponse * Params.PrayerTimesParams * World) :=
  match consulted cc with
  | None =>
      Client.GetPrayerTimesByAddress net timer_first codec Encode fuel (client cc) ctx params w
  | Some ch =>
      let (key, params) := address_key params w in
      match lookup (Types.UnmarshalPrayerTimes codec) ch key w with
      | (Some r, w1) => Some (Ok r, params, w1)
      | (None, w1) =>
          match Client.GetPrayerTimesByAddress net timer_first codec Encode fuel
                  (client cc) ctx params w1 with
          | None => None
          | Some (Err err, params, w2) => Some (Err err, params, w2)
          | Some (Ok r, params, w2) =>
              Some (Ok r, params, store (Types.MarshalPrayerTimes codec) ch key r w2)
          end
      end
  end.

Definition GetQibla (fuel : nat) (cc : CachedClient) (ctx : Context)
    (latitude longitude : float) (w : World)
  : option (result Types.QiblaResponse * World) :=
  match consulted cc with
  | None => Client.GetQibla net timer_first codec fuel (client cc) ctx latitude longitude w
  | Some ch =>
      let key := qibla_key latitude longitude in
      match lookup (Types.UnmarshalQibla codec) ch key w with
      | (Some r, w1) => Some (Ok r, w1)
      | (None, w1) =>
          match Client.GetQibla net timer_first codec fuel (client cc) ctx latitude longitude w1 with
          | None => None
          | Some (Err err, w2) => Some (Err err, w2)
          | Some (Ok r, w2) => Some (Ok r, store (Types.MarshalQibla codec) ch key r w2)
          end
      end
  end.

Definition SetBypass (b : bool) (cc : CachedClient) : CachedClient :=
  mkCachedClient (client cc) (cache cc) b.

End Operations.

End CachedClient.

(** * internal/location *)

Module Location.

Definition IPAPIEndpoint : string := "http://ip-api.com/json/".
Definition IPInfoEndpoint : string := "https://ipinfo.io/json".
Definition IPAPICoEndpoint : string := "https://ipapi.co/json/".
Definition DefaultDetectionTimeout : Z := 10 * Second.

Record Location : Type := mkLocation {
  Address : string;
  Latitude : float;
  Longitude : float;
  City : string;
  Country : string;
  CountryCode : string;
  Timezone : string;
  DetectedAt : Time;
  Source : string
}.

Record IPGeoResponse : Type := mkIPGeoResponse {
  gStatus : string; gMessage : string; gCountry : string; gCountryCode : string;
  gRegion : string; gRegionName : string; gCity : string; gZip : string;
  gLat : float; gLon : float; gTimezone : string; gISP : string; gQuery : string
}.

Record IPInfoResponse : Type := mkIPInfoResponse {
  iIP : string; iCity : string; iRegion : string; iCountry : string;
  iLoc : string; iOrg : string; iPostal : string; iTimezone : string
}.

Record IPAPICoResponse : Type := mkIPAPICoResponse {
  cIP : string; cCity : string; cRegion : string; cCountryName : string;
  cCountryCode : string; cLatitude : float; cLongitude : float; cTimezone : string;
  cUtcOffset : string; cContinentCode : string; cInEU : bool;
  cError : bool; cReason : string
}.

(** [IsValid]: both coordinates in range and not both zero. *)
Definition IsValid (l : Location) : bool :=
  PrimFloat.leb (-90) (Latitude l) && PrimFloat.leb (Latitude l) 90
  && PrimFloat.leb (-180) (Longitude l) && PrimFloat.leb (Longitude l) 180
  && (negb (PrimFloat.eqb (Latitude l) 0) || negb (PrimFloat.eqb (Longitude l) 0)).

Definition HasTimezone (l : Location) : bool := negb (String.eqb (Timezone l) "").

(** The zero [time.Time]. *)
Definition zeroTime : Time := mkTime 0 0.

Definition stamp (source : string) (at_ : Time) (l : Location) : Location :=
  mkLocation (Address l) (Latitude l) (Longitude l) (City l) (Country l)
             (CountryCode l) (Timezone l) at_ source.

Record Detector : Type := mkDetector { timeout : Z }.

Definition NewDetector : Detector := mkDetector DefaultDetectionTimeout.
Definition WithTimeout (t : Z) (d : Detector) : Detector := mkDetector t.

(** What the package asks of [encoding/json], [strings] and [strconv]. *)
Record Library : Type := mkLibrary {
  UnmarshalIPGeo : string -> result IPGeoResponse;
  UnmarshalIPInfo : string -> result IPInfoResponse;
  UnmarshalIPAPICo : string -> result IPAPICoResponse;
  TrimSpace : string -> string;
  ParseFloat : string -> result float
}.

(** [strings.Split(s, ",")] *)
Fixpoint split_comma (s : string) : list string :=
  match s with
  | EmptyString => [""]
  | String a rest =>
      if Ascii.eqb a ","%char then "" :: split_comma rest
      else match split_comma rest with
           | [] => [String a ""]
           | p :: ps => String a p :: ps
           end
  end.

Definition formatAddress (city country : string) : string :=
  if String.eqb city "" && String.eqb country "" then ""
  else if String.eqb city "" then country
  else if String.eqb country "" then city
  else city ++ ", " ++ country.

Section Detection.

Variable net : Network.
Variable lib : Library.

Definition parseLatLon (loc : string) : result (float * float) :=
  match split_comma loc with
  | [p0; p1] =>
      match ParseFloat lib (TrimSpace lib p0) with
      | Err err => Err (Wrapf "invalid latitude" err)
      | Ok lat =>
          match ParseFloat lib (TrimSpace lib p1) with
          | Err err => Err (Wrapf "invalid longitude" err)
          | Ok lon => Ok (lat, lon)
          end
      end
  | _ => Err (Errorf ("invalid location format: " ++ loc))
  end.

(** [doRequest]: one GET; the body only for the status 200. *)
Definition doRequest (d : Detector) (url : string) (w : World) : result string * World :=
  let x := net (sent w) "GET" url in
  let w' := record (EvGet url) (count_sent (elapse (took x) w)) in
  match outcome x with
  | NewRequestFailed e => (Err (Wrapf "failed to create request" e), w')
  | DoFailed e => (Err (Wrapf "request failed" e), w')
  | ReadFailed status e =>
      if negb (status =? 200)
      then (Err (Errorf ("unexpected status code: " ++ itoa status)), w')
      else (Err (Wrapf "failed to read response" e), w')
  | Responded status body =>
      if negb (status =? 200)
      then (Err (Errorf ("unexpected status code: " ++ itoa status)), w')
      else (Ok body, w')
  end.

Definition detectFromIPAPI (d : Detector) (w : World) : result Location * World :=
  match doRequest d IPAPIEndpoint w with
  | (Err err, w') => (Err err, w')
  | (Ok resp, w') =>
      match UnmarshalIPGeo lib resp with
      | Err err => (Err (Wrapf "failed to parse ip-api.com response" err), w')
      | Ok r =>
          if negb (String.eqb (gStatus r) "success")
          then (Err (Errorf ("ip-api.com error: " ++ gMessage r)), w')
          else (Ok (mkLocation (formatAddress (gCity r) (gCountry r))
                               (gLat r) (gLon r) (gCity r) (gCountry r)
                               (gCountryCode r) (gTimezone r) zeroTime ""), w')
      end
  end.

Definition detectFromIPInfo (d : Detector) (w : World) : result Location * World :=
  match doRequest d IPInfoEndpoint w with
  | (Err err, w') => (Err err, w')
  | (Ok resp, w') =>
      match UnmarshalIPInfo lib resp with
      | Err err => (Err (Wrapf "failed to parse ipinfo.io response" err), w')
      | Ok r =>
          match parseLatLon (iLoc r) with
          | Err err => (Err (Wrapf "failed to parse coordinates from ipinfo.io" err), w')
          | Ok (lat, lon) =>
              (Ok (mkLocation (formatAddress (iCity r) (iRegion r))
                              lat lon (iCity r) (iCountry r)
                              (iCountry r) (iTimezone r) zeroTime ""), w')
          end
      end
  end.

Definition detectFromIPAPICo (d : Detector) (w : World) : result Location * World :=
  match doRequest d IPAPICoEndpoint w with
  | (Err err, w') => (Err err, w')
  | (Ok resp, w') =>
      match UnmarshalIPAPICo lib resp with
      | Err err => (Err (Wrapf "failed to parse ipapi.co response" err), w')
      | Ok r =>
          if cError r
          then (Err (Errorf ("ipapi.co error: " ++ cReason r)), w')
          else (Ok (mkLocation (formatAddress (cCity r) (cCountryName r))
                               (cLatitude r) (cLongitude r) (cCity r) (cCountryName r)
                               (cCountryCode r) (cTimezone r) zeroTime ""), w')
      end
  end.

(** A provider's answer, accepted if there is no error and the location
    is valid. *)
Definition accepted (r : result Location) : option Location :=
  match r with
  | Ok loc => if IsValid loc then Some loc else None
  | Err _ => None
  end.

Definition DetectFromIP (d : Detector) (w : World) : result Location * World :=
  let (r1, w1) := detectFromIPAPI d w in
  match accepted r1 with
  | Some loc => (Ok (stamp "ip" (time_Now w1) loc), w1)
  | None =>
      let (r2, w2) := detectFromIPInfo d w1 in
      match accepted r2 with
      | Some loc => (Ok (stamp "ip" (time_Now w2) loc), w2)
      | None =>
          let (r3, w3) := detectFromIPAPICo d w2 in
          match accepted r3 with
          | Some loc => (Ok (stamp "ip" (time_Now w3) loc), w3)
          | None =>
              (Err (Errorf "failed to detect location from IP: all services failed"), w3)
          end
      end
  end.

End Detection.

Definition ValidateLocation (loc : option Location) : option error :=
  match loc with
  | None => Some (Errorf "location is nil")
  | Some l =>
      if negb (IsValid l)
      then Some (Errorf ("invalid coordinates: lat=" ++ GoFmt.FormatFixed 6 (Latitude l)
                           ++ ", lon=" ++ GoFmt.FormatFixed 6 (Longitude l)))
      else None
  end.

Definition FromCoordinates (lat lon : float) : Location :=
  mkLocation "" lat lon "" "" "" "" zeroTime "manual".

Definition FromAddress (address : string) : Location :=
  mkLocation address 0%float 0%float "" "" "" "" zeroTime "manual".

End Location.

(** * Bytes and slices of a [string]

    Lengths and indices are those of texts held in memory: the
    arithmetic on them does not wrap. *)

Module GoString.

Definition len (s : string) : Z := Z.of_nat (String.length s).

(** [s[i:j]], for [0 <= i <= j <= len(s)]. *)
Definition slice (s : string) (i j : Z) : string :=
  substring (Z.to_nat i) (Z.to_nat (j - i)) s.

End GoString.

(** ** [net/url] *)

Module GoUrl.

Definition byte_between (lo hi : nat) (c : ascii) : bool :=
  (lo <=? nat_of_ascii c)%nat && (nat_of_ascii c <=? hi)%nat.

(** [shouldEscape(c, encodeQueryComponent)]: every byte but the
    unreserved ones, the letters, the digits and [-_.~]. *)
Definition shouldEscape (c : ascii) : bool :=
  if byte_between 97 122 c || byte_between 65 90 c || byte_between 48 57 c then false
  else if Ascii.eqb c "-" || Ascii.eqb c "_" || Ascii.eqb c "." || Ascii.eqb c "~" then false
  else true.

(** [upperhex[n]] *)
Definition upperhex (n : nat) : ascii :=
  if (n <? 10)%nat then ascii_of_nat (48 + n) else ascii_of_nat (55 + n).

(** What [escape] writes for the byte [c] in the mode
    [encodeQueryComponent]. *)
Definition escape_byte (c : ascii) : string :=
  if Ascii.eqb c " " then "+"
  else if shouldEscape c
       then String "%" (String (upperhex (nat_of_ascii c / 16))
                          (String (upperhex (nat_of_ascii c mod 16)) ""))
       else String c "".

Fixpoint QueryEscape (s : string) : string :=
  match s with
  | EmptyString => ""
  | String c rest => escape_byte c ++ QueryEscape rest
  end.

(** [Values.Set]: the value of the key replaced, or the key added. *)
Fixpoint Set_ (key value : string) (v : Params.Values) : Params.Values :=
  match v with
  | [] => [(key, value)]
  | (k, x) :: rest =>
      if String.eqb k key then (key, value) :: rest else (k, x) :: Set_ key value rest
  end.

Definition key_le (a b : string * string) : Prop := String.leb (fst a) (fst b) = true.

#[export] Instance key_le_dec : RelDecision key_le.
Proof. intros a b. unfold key_le. apply _. Defined.

(** The texts [key=value] with [&] between them. *)
Fixpoint join (parts : list string) : string :=
  match parts with
  | [] => ""
  | [p] => p
  | p :: rest => p ++ "&" ++ join rest
  end.

(** What [Encode] writes for one key and its value. *)
Definition pair_text (kv : string * string) : string :=
  QueryEscape (fst kv) ++ "=" ++ QueryEscape (snd kv).

(** [Values.Encode]: the keys sorted, each with its value, both
    escaped. *)
Definition Encode (v : Params.Values) : string :=
  join (map pair_text (merge_sort key_le v)).

End GoUrl.

(** * internal/api/client.go: [BuildICSURL] *)

Module ICS.
Import Params GoUrl.

Definition DefaultBaseURL : string := "https://pray.ahmedelywa.com".

(** [if cond { query.Set(key, value) }] *)
Definition set_if (cond : bool) (key value : string) (query : Values) : Values :=
  if cond then Set_ key value query else query.

(** The query [BuildICSURL] builds, one [Set] after the other. *)
Definition query_of (params : CalendarParams) : Values :=
  let query :=
    if negb (String.eqb (cAddress params) "")
    then Set_ "address" (cAddress params) []
    else Set_ "longitude" (GoFmt.FormatFixed 6 (cLongitude params))
           (Set_ "latitude" (GoFmt.FormatFixed 6 (cLatitude params)) []) in
  let query := set_if (cMethod params >? 0) "method" (itoa (cMethod params)) query in
  let query := set_if (Duration params >? 0) "duration" (itoa (Duration params)) query in
  let query := set_if (Months params >? 0) "months" (itoa (Months params)) query in
  let query := set_if (negb (String.eqb (Alarm params) "")) "alarm" (Alarm params) query in
  let query := set_if (negb (String.eqb (Events params) "")) "events" (Events params) query in
  let query := set_if (negb (String.eqb (cLanguage params) "")) "lang" (cLanguage params)
                 query in
  let query := set_if (negb (String.eqb (Color params) "")) "color" (Color params) query in
  let query := set_if (negb (String.eqb (Hijri params) "")) "hijri" (Hijri params) query in
  let query := set_if (Jumuah params) "jumuah" "true" query in
  let query := set_if (JumuahDuration params >? 0) "jumuahDuration"
                 (itoa (JumuahDuration params)) query in
  let query := set_if (cQibla params) "qibla" "true" query in
  let query := set_if (Dua params) "dua" "true" query in
  let query := set_if (Traveler params) "traveler" "true" query in
  let query := set_if (Ramadan params) "ramadan" "true" query in
  let query := set_if (IftarDuration params >? 0) "iftarDuration"
                 (itoa (IftarDuration params)) query in
  let query := set_if (TaraweehDuration params >? 0) "taraweehDuration"
                 (itoa (TaraweehDuration params)) query in
  let query := set_if (SuhoorDuration params >? 0) "suhoorDuration"
                 (itoa (SuhoorDuration params)) query in
  let query := set_if (HijriHolidays params) "hijriHolidays" "true" query in
  let query := set_if (negb (String.eqb (Iqama params) "")) "iqama" (Iqama params) query in
  query.

Definition BuildICSURL (params : CalendarParams) : string :=
  DefaultBaseURL ++ "/api/prayer-times.ics?" ++ Encode (query_of params).

End ICS.

(** * internal/cache/cache.go: the operations on the whole directory *)

Module CacheDir.
Import Cache.

(** [filepath.Ext]: the suffix of [path] from the last dot of its last
    element on, found by scanning [path] from its end. *)
Fixpoint ext_scan (reversed : list ascii) (suffix : list ascii) : string :=
  match reversed with
  | [] => ""
  | c :: rest =>
      if Ascii.eqb c "/" then ""
      else if Ascii.eqb c "." then string_of_list_ascii (c :: suffix)
      else ext_scan rest (c :: suffix)
  end.

Definition Ext (path : string) : string :=
  ext_scan (rev (list_ascii_of_string path)) [].

(** An [os.DirEntry], with the size its [Info] reports. *)
Record DirEntry : Type := mkDirEntry {
  Name : string;
  IsDir : bool;
  Size : Z
}.

Definition entry_le (a b : DirEntry) : Prop := String.leb (Name a) (Name b) = true.

#[export] Instance entry_le_dec : RelDecision entry_le.
Proof. intros a b. unfold entry_le. apply _. Defined.

(** The entry of the directory [d] that a file of the world is, if it is
    one. *)
Definition entry_in (d : string) (f : path * string) : option DirEntry :=
  if String.eqb (fst (fst f)) d
  then Some (mkDirEntry (snd (fst f)) false (Z.of_nat (String.length (snd f))))
  else None.

(** [os.ReadDir]: the entries of the directory, sorted by name.  In the
    worlds of this development a directory holds regular files only. *)
Definition ReadDir (d : string) (w : World) : result (list DirEntry) :=
  if decide (d ∈ dirs w)
  then Ok (merge_sort entry_le (omap (entry_in d) (map_to_list (files w))))
  else Err (LibraryError "open: no such file or directory").

(** The loop of [Clear] over the entries that are left. *)
Fixpoint Clear_loop (c : Cache) (entries : list DirEntry) (w : World)
  : option error * World :=
  match entries with
  | [] => (None, w)
  | entry :: rest =>
      if negb (IsDir entry) && String.eqb (Ext (Name entry)) ".json"
      then
        match Remove (dir c, Name entry) w with
        | (Some err, w') =>
            (Some (Wrapf ("failed to remove cache file " ++ Name entry) err), w')
        | (None, w') => Clear_loop c rest w'
        end
      else Clear_loop c rest w
  end.

(** [Clear]: a directory that is not there is no error. *)
Definition Clear (c : Cache) (w : World) : option error * World :=
  match ReadDir (dir c) w with
  | Err _ => (None, w)
  | Ok entries => Clear_loop c entries w
  end.

(** The loop of [Stats]: the entries counted and their total size. *)
Fixpoint Stats_loop (entryList : list DirEntry) (entries totalSize : Z) : Z * Z :=
  match entryList with
  | [] => (entries, totalSize)
  | entry :: rest =>
      if IsDir entry || negb (String.eqb (Ext (Name entry)) ".json")
      then Stats_loop rest entries totalSize
      else Stats_loop rest (int_add entries 1) (int_add totalSize (Size entry))
  end.

Definition Stats (c : Cache) (w : World) : (Z * Z) * option error :=
  match ReadDir (dir c) w with
  | Err _ => ((0, 0), None)
  | Ok entryList => (Stats_loop entryList 0 0, None)
  end.

Section Expiry.

Variable json : Codec.

(** The loop of [CleanExpired]: the number of files removed so far and
    the world. *)
Fixpoint CleanExpired_loop (c : Cache) (entries : list DirEntry) (removed : Z)
    (w : World) : Z * World :=
  match entries with
  | [] => (removed, w)
  | entry :: rest =>
      if IsDir entry || negb (String.eqb (Ext (Name entry)) ".json")
      then CleanExpired_loop c rest removed w
      else
        let path := (dir c, Name entry) in
        match ReadFile path w with
        | Err _ => CleanExpired_loop c rest removed w
        | Ok data =>
            match Unmarshal json data with
            | Err _ =>
                CleanExpired_loop c rest (int_add removed 1) (snd (Remove path w))
            | Ok cacheEntry =>
                if Time_After (time_Now w) (ExpiresAt cacheEntry)
                then CleanExpired_loop c rest (int_add removed 1) (snd (Remove path w))
                else CleanExpired_loop c rest removed w
            end
        end
  end.

Definition CleanExpired (c : Cache) (w : World) : (Z * option error) * World :=
  if negb (enabled c) then ((0, None), w)
  else
    match ReadDir (dir c) w with
    | Err _ => ((0, None), w)
    | Ok entries =>
        let (removed, w') := CleanExpired_loop c entries 0 w in
        ((removed, None), w')
    end.

End Expiry.

End CacheDir.

(** * internal/api/cached_client.go: [ClearCache] *)

Module CachedCache.
Import CachedClient.

Definition ClearCache (cc : CachedClient) (w : World) : option error * World :=
  match cache cc with
  | Some ch => CacheDir.Clear ch w
  | None => (None, w)
  end.

End CachedCache.

(** * internal/api/params.go: the calendar parameters *)

Module CalendarParams.
Import Params.

(** [NewCalendarParams]: the year and the month of the local date, and
    the defaults. *)
Definition NewCalendarParams (w : World) : CalendarParams :=
  let '(year, month, _) := GoTime.Date (time_Now w) in
  mkCalendarParams 0%float 0%float "" year month 5 25 3 "5,10,15" "all" "en" "#1e90ff"
    "desc" false 0 false false false false 0 0 0 false "".

Definition WithCoordinates (lat lon : float) (p : CalendarParams) : CalendarParams :=
  mkCalendarParams lat lon (cAddress p) (Year p) (Month p) (cMethod p) (Duration p)
    (Months p) (Alarm p) (Events p) (cLanguage p) (Color p) (Hijri p) (Jumuah p)
    (JumuahDuration p) (cQibla p) (Dua p) (Traveler p) (Ramadan p) (IftarDuration p)
    (TaraweehDuration p) (SuhoorDuration p) (HijriHolidays p) (Iqama p).

Definition WithAddress (address : string) (p : CalendarParams) : CalendarParams :=
  mkCalendarParams (cLatitude p) (cLongitude p) address (Year p) (Month p) (cMethod p)
    (Duration p) (Months p) (Alarm p) (Events p) (cLanguage p) (Color p) (Hijri p)
    (Jumuah p) (JumuahDuration p) (cQibla p) (Dua p) (Traveler p) (Ramadan p)
    (IftarDuration p) (TaraweehDuration p) (SuhoorDuration p) (HijriHolidays p) (Iqama p).

End CalendarParams.

(** * internal/api/validator.go *)

Module Validator.
Import Params.

(** [x < lo || x > hi] on [float64] *)
Definition outside (lo hi x : float) : bool := PrimFloat.ltb x lo || PrimFloat.ltb hi x.

Definition latitude_error (lat : float) : error :=
  Errorf ("latitude must be between -90 and 90, got " ++ GoFmt.FormatFixed 6 lat).

Definition longitude_error (lon : float) : error :=
  Errorf ("longitude must be between -180 and 180, got " ++ GoFmt.FormatFixed 6 lon).

Definition method_error (method : Z) : error :=
  Errorf ("method must be between 0 and 23, got " ++ itoa method).

Definition ValidateParams (params : PrayerTimesParams) : option error :=
  if String.eqb (Address params) ""
     && (PrimFloat.eqb (Latitude params) 0 && PrimFloat.eqb (Longitude params) 0)
  then Some (Errorf "location is required: provide either address or coordinates")
  else if nonzero (Latitude params) && outside (-90) 90 (Latitude params)
  then Some (latitude_error (Latitude params))
  else if nonzero (Longitude params) && outside (-180) 180 (Longitude params)
  then Some (longitude_error (Longitude params))
  else if (Method params <? 0) || (Method params >? 23)
  then Some (method_error (Method params))
  else if (School params <? 0) || (School params >? 1)
  then Some (Errorf ("school must be 0 (Shafi) or 1 (Hanafi), got " ++ itoa (School params)))
  else if (Adjustment params <? -30) || (Adjustment params >? 30)
  then Some (Errorf ("adjustment must be between -30 and 30, got "
                       ++ itoa (Adjustment params)))
  else None.

Definition ValidateCalendarParams (params : CalendarParams) : option error :=
  if String.eqb (cAddress params) ""
     && (PrimFloat.eqb (cLatitude params) 0 && PrimFloat.eqb (cLongitude params) 0)
  then Some (Errorf "location is required: provide either address or coordinates")
  else if nonzero (cLatitude params) && outside (-90) 90 (cLatitude params)
  then Some (latitude_error (cLatitude params))
  else if nonzero (cLongitude params) && outside (-180) 180 (cLongitude params)
  then Some (longitude_error (cLongitude params))
  else if (cMethod params <? 0) || (cMethod params >? 23)
  then Some (method_error (cMethod params))
  else if (Duration params <? 1) || (Duration params >? 120)
  then Some (Errorf ("duration must be between 1 and 120 minutes, got "
                       ++ itoa (Duration params)))
  else if (Months params <? 1) || (Months params >? 12)
  then Some (Errorf ("months must be between 1 and 12, got " ++ itoa (Months params)))
  else if (Year params <? 2000) || (Year params >? 2100)
  then Some (Errorf ("year must be between 2000 and 2100, got " ++ itoa (Year params)))
  else if (Month params <? 1) || (Month params >? 12)
  then Some (Errorf ("month must be between 1 and 12, got " ++ itoa (Month params)))
  else None.

Definition ValidateCoordinates (lat lon : float) : option error :=
  if outside (-90) 90 lat then Some (latitude_error lat)
  else if outside (-180) 180 lon then Some (longitude_error lon)
  else None.

Definition ValidateMethod (method : Z) : option error :=
  if (method <? 0) || (method >? 23) then Some (method_error method) else None.

End Validator.

(** * internal/config: the calculation methods and the coordinates *)

Module Config.

Record CalculationMethod : Type := mkCalculationMethod {
  ID : Z;
  Name : string;
  Description : string
}.

(** The text of the bytes [bs]. *)
Definition bytes (bs : list Z) : string :=
  string_of_list_ascii (map (fun b => ascii_of_nat (Z.to_nat b)) bs).

Definition CalculationMethods : list CalculationMethod :=
  [ mkCalculationMethod 0 "Shia Ithna-Ashari"
      "Shia Ithna-Ashari, Leva Institute, Qum";
    mkCalculationMethod 1 "University of Islamic Sciences, Karachi"
      "University of Islamic Sciences, Karachi";
    mkCalculationMethod 2 "Islamic Society of North America"
      "Islamic Society of North America (ISNA)";
    mkCalculationMethod 3 "Muslim World League"
      "Muslim World League (MWL)";
    mkCalculationMethod 4 "Umm Al-Qura University, Makkah"
      "Umm Al-Qura University, Makkah";
    mkCalculationMethod 5 "Egyptian General Authority of Survey"
      "Egyptian General Authority of Survey";
    mkCalculationMethod 6 "Institute of Geophysics, University of Tehran"
      "Institute of Geophysics, University of Tehran";
    mkCalculationMethod 7 "Gulf Region"
      "Gulf Region";
    mkCalculationMethod 8 "Kuwait"
      "Kuwait";
    mkCalculationMethod 9 "Qatar"
      "Qatar";
    mkCalculationMethod 10 "Majlis Ugama Islam Singapura"
      "Majlis Ugama Islam Singapura, Singapore";
    mkCalculationMethod 11 "Union Organization Islamic de France"
      "Union Organization Islamic de France";
    mkCalculationMethod 12
      ("Diyanet " ++ bytes [195; 132; 194; 176; 195; 133; 197; 184] ++ "leri Ba"
       ++ bytes [195; 133; 197; 184] ++ "kanl"
       ++ bytes [195; 132; 194; 177; 195; 132; 197; 184; 195; 132; 194; 177])
      ("Diyanet " ++ bytes [195; 132; 194; 176; 195; 133; 197; 184] ++ "leri Ba"
       ++ bytes [195; 133; 197; 184] ++ "kanl"
       ++ bytes [195; 132; 194; 177; 195; 132; 197; 184; 195; 132; 194; 177] ++ ", Turkey");
    mkCalculationMethod 13 "Spiritual Administration of Muslims of Russia"
      "Spiritual Administration of Muslims of Russia";
    mkCalculationMethod 14 "Moonsighting Committee Worldwide"
      "Moonsighting Committee Worldwide";
    mkCalculationMethod 15 "Dubai"
      "Dubai (experimental)";
    mkCalculationMethod 16 "JAKIM"
      "Jabatan Kemajuan Islam Malaysia (JAKIM)";
    mkCalculationMethod 17 "Tunisia"
      "Ministry of Religious Affairs, Tunisia";
    mkCalculationMethod 18 "Algeria"
      "Ministry of Religious Affairs and Wakfs, Algeria";
    mkCalculationMethod 19 "KEMENAG"
      "Kementerian Agama Republik Indonesia";
    mkCalculationMethod 20 "Morocco"
      "Ministry of Habous and Islamic Affairs, Morocco";
    mkCalculationMethod 21 "Comunidade Islamica de Lisboa"
      "Comunidade Islamica de Lisboa, Portugal";
    mkCalculationMethod 22 "MUIS"
      "Ministry of Religious Affairs of Jordan";
    mkCalculationMethod 23 "Custom"
      "Custom setting" ].

(** The first method of [methods] with the [id]; [None] is the nil
    pointer. *)
Fixpoint find_method (methods : list CalculationMethod) (id : Z) : option CalculationMethod :=
  match methods with
  | [] => None
  | method :: rest => if ID method =? id then Some method else find_method rest id
  end.

Definition GetMethodByID (id : Z) : option CalculationMethod :=
  find_method CalculationMethods id.

Definition GetMethodName (id : Z) : string :=
  match GetMethodByID id with
  | Some method => Name method
  | None => "Unknown"
  end.

Definition ValidMethodID (id : Z) : bool :=
  match GetMethodByID id with
  | Some _ => true
  | None => false
  end.

Definition ValidateLatitude (lat : float) : option error :=
  if Validator.outside (-90) 90 lat
  then Some (Errorf ("latitude must be between -90 and 90, got " ++ GoFmt.FormatFixed 6 lat))
  else None.

Definition ValidateLongitude (lon : float) : option error :=
  if Validator.outside (-180) 180 lon
  then Some (Errorf ("longitude must be between -180 and 180, got "
                       ++ GoFmt.FormatFixed 6 lon))
  else None.

Definition ValidateCoordinates (lat lon : float) : option error :=
  match ValidateLatitude lat with
  | Some err => Some err
  | None => ValidateLongitude lon
  end.

End Config.

(** * internal/calendar *)

Module Calendar.
Import GoUrl.
Export GoString.

(** ** generator.go *)

Definition BaseURL : string := "https://pray.ahmedelywa.com".

Record CalendarParams : Type := mkCalendarParams {
  Latitude : float;
  Longitude : float;
  Address : string;
  Method : Z;
  Duration : Z;
  Months : Z;
  Alarm : string;
  Events : string;
  Language : string;
  Color : string;
  Hijri : string;
  Jumuah : bool;
  JumuahDuration : Z;
  Qibla : bool;
  Dua : bool;
  Traveler : bool;
  Ramadan : bool;
  IftarDuration : Z;
  TaraweehDuration : Z;
  SuhoorDuration : Z;
  HijriHolidays : bool;
  Iqama : string
}.

Definition NewCalendarParams : CalendarParams :=
  mkCalendarParams 0%float 0%float "" 5 25 3 "5,10,15" "all" "en" "#1e90ff" "desc"
    false 0 false false false false 0 0 0 false "".

(** [strings.TrimPrefix] *)
Definition TrimPrefix (s prefix : string) : string :=
  if String.prefix prefix s then slice s (len prefix) (len s) else s.

Definition differs (s t : string) : bool := negb (String.eqb s t).

(** The query [GenerateICSURL] builds, one [Set] after the other. *)
Definition query_of (params : CalendarParams) : Params.Values :=
  let query : Params.Values :=
    if differs (Address params) ""
    then Set_ "address" (Address params) []
    else if Params.nonzero (Latitude params) || Params.nonzero (Longitude params)
    then Set_ "longitude" (GoFmt.FormatFixed 6 (Longitude params))
           (Set_ "latitude" (GoFmt.FormatFixed 6 (Latitude params)) [])
    else [] in
  let query := ICS.set_if (Method params >? 0) "method" (itoa (Method params)) query in
  let query := ICS.set_if (Duration params >? 0) "duration" (itoa (Duration params))
                 query in
  let query := ICS.set_if (Months params >? 0) "months" (itoa (Months params)) query in
  let query := ICS.set_if (differs (Alarm params) "") "alarm" (Alarm params) query in
  let query := ICS.set_if (differs (Events params) "" && differs (Events params) "all")
                 "events" (Events params) query in
  let query := ICS.set_if (differs (Language params) "" && differs (Language params) "en")
                 "lang" (Language params) query in
  let query := ICS.set_if (differs (Color params) "") "color"
                 (TrimPrefix (Color params) "#") query in
  let query := ICS.set_if (differs (Hijri params) "" && differs (Hijri params) "none")
                 "hijri" (Hijri params) query in
  let query := ICS.set_if (Jumuah params) "jumuah" "true" query in
  let query := ICS.set_if (Jumuah params && (JumuahDuration params >? 0)) "jumuahDuration"
                 (itoa (JumuahDuration params)) query in
  let query := ICS.set_if (Qibla params) "qibla" "true" query in
  let query := ICS.set_if (Dua params) "dua" "true" query in
  let query := ICS.set_if (Traveler params) "traveler" "true" query in
  let query := ICS.set_if (Ramadan params) "ramadan" "true" query in
  let query := ICS.set_if (Ramadan params && (IftarDuration params >? 0)) "iftarDuration"
                 (itoa (IftarDuration params)) query in
  let query := ICS.set_if (Ramadan params && (TaraweehDuration params >? 0))
                 "taraweehDuration" (itoa (TaraweehDuration params)) query in
  let query := ICS.set_if (Ramadan params && (SuhoorDuration params >? 0))
                 "suhoorDuration" (itoa (SuhoorDuration params)) query in
  let query := ICS.set_if (HijriHolidays params) "hijriHolidays" "true" query in
  let query := ICS.set_if (differs (Iqama params) "") "iqama" (Iqama params) query in
  query.

Definition GenerateICSURL (params : CalendarParams) : string :=
  BaseURL ++ "/api/prayer-times.ics?" ++ Encode (query_of params).

(** ** downloader.go: the name of the file *)

(** [replaceAll]: the loop from the index [i] on.  [fuel] bounds the
    number of iterations; [None] is a loop that was still running when
    the fuel ran out. *)
Fixpoint replaceAll_loop (fuel : nat) (s old new : string) (i : Z) : option string :=
  match fuel with
  | O => None
  | S fuel' =>
      if i <=? len s - len old then
        if (len s >=? i + len old) && String.eqb (slice s i (i + len old)) old
        then
          let s' := slice s 0 i ++ new ++ slice s (i + len old) (len s) in
          let i' := if differs new "" then i + (len new - 1) else i - 1 in
          replaceAll_loop fuel' s' old new (i' + 1)
        else replaceAll_loop fuel' s old new (i + 1)
      else Some s
  end.

(** One iteration for every byte of [s] and one more are enough, unless
    [old] is empty: then the loop does not end. *)
Definition replaceAll (s old new : string) : option string :=
  replaceAll_loop (S (String.length s)) s old new 0.

Definition toLowerCase (s : string) : string :=
  string_of_list_ascii
    (map (fun c => if byte_between 65 90 c then ascii_of_nat (nat_of_ascii c + 32) else c)
         (list_ascii_of_string s)).

(** [contains]: the loop over the [n] indices from [i] on. *)
Fixpoint contains_loop (n : nat) (s substr : string) (i : Z) : bool :=
  match n with
  | O => false
  | S n' =>
      if String.eqb (slice s i (i + len substr)) substr then true
      else contains_loop n' s substr (i + 1)
  end.

(** The indices from 0 to [len(s) - len(substr)]. *)
Definition contains (s substr : string) : bool :=
  contains_loop (Z.to_nat (len s - len substr + 1)) s substr 0.

(** Whether the byte [c] is one of [cutset]. *)
Fixpoint found_in (cutset : string) (c : ascii) : bool :=
  match cutset with
  | EmptyString => false
  | String x rest => if Ascii.eqb c x then true else found_in rest c
  end.

(** The first loop of [trim]: bytes of the cutset dropped from the
    front. *)
Fixpoint trim_front (s cutset : string) : string :=
  match s with
  | EmptyString => ""
  | String c rest => if found_in cutset c then trim_front rest cutset else s
  end.

(** The second loop: bytes of the cutset dropped from the back, [n]
    bytes of [s] being left to look at. *)
Fixpoint trim_back (n : nat) (s cutset : string) : string :=
  match n with
  | O => s
  | S n' =>
      match String.get (String.length s - 1) s with
      | Some c =>
          if found_in cutset c then trim_back n' (slice s 0 (len s - 1)) cutset else s
      | None => s
      end
  end.

Definition trim (s cutset : string) : string :=
  let s := trim_front s cutset in
  trim_back (String.length s) s cutset.

(** The replacements of [sanitizeFilename], in their order. *)
Definition replacer : list (string * string) :=
  [ (" ", "-"); (",", ""); (".", ""); ("/", "-"); ("\", "-"); (":", "-"); ("*", "");
    ("?", ""); (quoted "'", ""); ("<", ""); (">", ""); ("|", "") ].

Fixpoint replace_each (rs : list (string * string)) (result : string) : option string :=
  match rs with
  | [] => Some result
  | r :: rest =>
      match replaceAll result (fst r) (snd r) with
      | Some result' => replace_each rest result'
      | None => None
      end
  end.

(** [for contains(result, "--") { result = replaceAll(result, "--", "-") }] *)
Fixpoint collapse_dashes (fuel : nat) (result : string) : option string :=
  match fuel with
  | O => None
  | S fuel' =>
      if contains result "--"
      then match replaceAll result "--" "-" with
           | Some result' => collapse_dashes fuel' result'
           | None => None
           end
      else Some result
  end.

Definition sanitizeFilename (name : string) : option string :=
  match replace_each replacer name with
  | None => None
  | Some result =>
      let result := toLowerCase result in
      match collapse_dashes (S (String.length result)) result with
      | None => None
      | Some result => Some (trim result "-")
      end
  end.

Definition GetDefaultFilename (location : string) : option string :=
  match sanitizeFilename location with
  | None => None
  | Some safe => Some ((if String.eqb safe "" then "prayer-times" else safe) ++ ".ics")
  end.

End Calendar.

(** * internal/prayer/times.go *)

Module Prayer.

Record Prayer : Type := mkPrayer {
  Name : string;
  Time : Z;
  TimeStr : string;
  Index : Z;
  IsPassed : bool;
  IsNext : bool
}.

(** [prayers[i].IsNext = true] *)
Definition mark_next (p : Prayer) : Prayer :=
  mkPrayer (Name p) (Time p) (TimeStr p) (Index p) (IsPassed p) true.

(** [GetNextPrayer]: the loop over the [n] indices from [i] on.  The
    slice is the caller's: the element is changed in place, and the
    pointer returned is the index of that element in it. *)
Fixpoint GetNextPrayer_loop (n i : nat) (prayers : list Prayer)
  : option nat * list Prayer :=
  match n with
  | O => (None, prayers)
  | S n' =>
      match prayers !! i with
      | Some p =>
          if negb (IsPassed p) then (Some i, <[i := mark_next p]> prayers)
          else GetNextPrayer_loop n' (S i) prayers
      | None => (None, prayers)
      end
  end.

Definition GetNextPrayer (prayers : list Prayer) (now : Z) : option nat * list Prayer :=
  GetNextPrayer_loop (List.length prayers) 0 prayers.

Definition FormatDuration (minutes : Z) : string :=
  if minutes <? 0 then "passed"
  else if minutes <? 60 then itoa minutes ++ " min"
  else
    let hours := Z.quot minutes 60 in
    let mins := Z.rem minutes 60 in
    if mins =? 0 then itoa hours ++ "h"
    else itoa hours ++ "h " ++ itoa mins ++ "m".

Definition IsPrayerPassed (prayerTime now : Z) : bool := prayerTime <? now.

Definition names : list string :=
  ["Fajr"; "Sunrise"; "Dhuhr"; "Asr"; "Maghrib"; "Isha"; "Midnight"].

Definition PrayerNameByIndex (index : Z) : string :=
  if (index >=? 0) && (index <? Z.of_nat (List.length names))
  then nth (Z.to_nat index) names ""
  else "".

End Prayer.

(** * internal/output/table.go: the helpers *)

Module Output.
Import GoString.

(** [strings.Repeat(s, count)], for [0 <= count]. *)
Definition Repeat (s : string) (count : Z) : string :=
  String.concat "" (repeat s (Z.to_nat count)).

(** [centerText]; [None] is the panic of [text[:width]] for a negative
    [width]. *)
Definition centerText (text : string) (width : Z) : option string :=
  if len text >=? width then
    if width <? 0 then None else Some (slice text 0 width)
  else
    let padding := Z.quot (width - len text) 2 in
    Some (Repeat " " padding ++ text ++ Repeat " " (width - padding - len text)).

(** [strings.Split(s, sep)] for a separator of one byte: the texts
    between the separators, at least one. *)
Fixpoint Split (s : string) (sep : ascii) : list string :=
  match s with
  | EmptyString => [""]
  | String c rest =>
      if Ascii.eqb c sep then "" :: Split rest sep
      else match Split rest sep with
           | part :: parts => String c part :: parts
           | [] => [String c ""]
           end
  end.

Definition cleanTime (timeStr : string) : string :=
  let parts := Split timeStr " " in
  match parts with
  | part :: _ => part
  | [] => timeStr
  end.

Definition formatMinutes (mins : Z) : string :=
  if mins <? 60 then itoa mins ++ " min"
  else
    let hours := Z.quot mins 60 in
    let remaining := Z.rem mins 60 in
    if remaining =? 0 then itoa hours ++ "h"
    else itoa hours ++ "h " ++ itoa remaining ++ "m".

End Output.

(** * cmd/pray/cmd: the helpers of [next] and [diff] *)

Module Cmd.
Import GoString.

(** [cleanTime]: the loop over the [n] bytes from the index [i] on.  A
    space and a parenthesis are one byte each and no part of a longer
    rune, so the loop over the runes stops where a loop over the bytes
    does. *)
Fixpoint cleanTime_loop (n : nat) (timeStr : string) (i : Z) : string :=
  match n with
  | O => timeStr
  | S n' =>
      match String.get (Z.to_nat i) timeStr with
      | Some c =>
          if Ascii.eqb c " " || Ascii.eqb c "("
          then slice timeStr 0 i
          else cleanTime_loop n' timeStr (i + 1)
      | None => timeStr
      end
  end.

Definition cleanTime (timeStr : string) : string :=
  cleanTime_loop (String.length timeStr) timeStr 0.

Definition formatMinutesLong (mins : Z) : string :=
  if mins <? 0 then "passed"
  else if mins <? 60 then
    if mins =? 1 then "1 minute" else itoa mins ++ " minutes"
  else
    let hours := Z.quot mins 60 in
    let remaining := Z.rem mins 60 in
    let hourStr := if hours >? 1 then "hours" else "hour" in
    if remaining =? 0 then itoa hours ++ " " ++ hourStr
    else
      let minStr := if remaining >? 1 then "minutes" else "minute" in
      itoa hours ++ " " ++ hourStr ++ " " ++ itoa remaining ++ " " ++ minStr.

(** [formatDiff]; the negation of an [int] wraps. *)
Definition formatDiff (mins : Z) : string :=
  if mins =? 0 then "0m"
  else
    let abs := if mins <? 0 then wrap64 (- mins) else mins in
    if abs <? 60 then itoa mins ++ "m"
    else
      let hours := Z.quot abs 60 in
      let remaining := Z.rem abs 60 in
      let sign := if mins <? 0 then "-" else "" in
      if remaining =? 0 then sign ++ itoa hours ++ "h"
      else sign ++ itoa hours ++ "h " ++ itoa remaining ++ "m".

End Cmd.

(** * Statements and scenarios *)

Module ClientSpec.
Import Client.

(** What the loop does, without the instants and the errors. *)
Inductive step : Type :=
| Sleep (d : Z)
| Try (attempt : Z).

Definition step_of (e : event) : list step :=
  match e with
  | EvBackoff _ d => [Sleep d]
  | EvAttempt k _ _ => [Try k]
  | EvGet _ => []
  end.

Definition steps (l : list event) : list step := flat_map step_of l.

(** [n] consecutive integers from [a] on. *)
Definition zrange (a : Z) (n : nat) : list Z :=
  map (fun i => a + Z.of_nat i) (seq 0 n).

(** The first attempt, then a wait of [spacing k] before the retry [k],
    for the retries 1 to [retries]. *)
Definition schedule (spacing : Z -> Z) (retries : Z) : list step :=
  (Try 0 :: flat_map (fun k => [Sleep (spacing k); Try k])
                     (zrange 1 (Z.to_nat retries)))%list.

Definition always_fails (net : Network) (c : Client) : Prop :=
  forall method url w, exists e, fst (doRequest net c method url w) = Err e.

(** The retry bound, for a client with [retries] retries: under a
    context that is never done and a transport that always fails, every
    run with enough fuel makes the [retries + 1] attempts of the schedule
    with waits of [attempt * attempt * 100ms], and returns the error of
    the last attempt wrapped with the count [retries + 1]. *)
Definition retry_bound (retries : Z) : Prop :=
  forall net timer_first c ctx method url w,
    maxRetries c = retries ->
    never_done ctx ->
    always_fails net c ->
    exists enough t e w',
      (forall fuel, (enough <= fuel)%nat ->
         doRequestWithRetry net timer_first fuel c ctx method url w
         = Some (Err (Wrapf ("request failed after " ++ itoa (retries + 1) ++ " attempts") e), w'))
      /\ steps (log w')
         = (steps (log w) ++ schedule (fun k => k * k * (100 * Millisecond)) retries)%list
      /\ last (log w') = Some (EvAttempt retries t (Some e)).

(** The largest attempt number whose backoff fits a [time.Duration]. *)
Definition max_exact_backoff : Z := 303700.

(** The steps of the iterations [a], [a + 1], ... ([n] of them). *)
Definition rounds (a : Z) (n : nat) : list step :=
  flat_map (fun k => if k >? 0 then [Sleep (backoff k); Try k] else [Try k])
           (zrange a n).

(** A transport with no network behind it. *)
Definition unreachable : Network :=
  fun _ _ _ => mkExchange (DoFailed (LibraryError "dial tcp: connection refused")) 0.

Definition background : Context := mkContext None Canceled.

Definition quiet : World := mkWorld 0 0 O [] ∅ ∅.

(** A context whose deadline has passed when the run starts. *)
Definition expired : Context := mkContext (Some 0) DeadlineExceeded.

End ClientSpec.

Module LocationSpec.
Import Location.

(** The scenario of the specification: the first provider answers 500,
    the second the coordinates (0,0), the third Cairo. *)
Definition fallback_net : Network :=
  fun n _ _ =>
    match n with
    | O => mkExchange (Responded 500 "") 0
    | S O => mkExchange (Responded 200 (quoted "{'loc':'0,0'}")) 0
    | _ => mkExchange (Responded 200 (quoted "{'latitude':30.04,'longitude':31.23}")) 0
    end.

Definition cairo : float := 0x1.e0a3d70a3d70ap+4%float.     (* 30.04 *)

Definition cairo_lon : float := 0x1.f3ae147ae147bp+4%float. (* 31.23 *)

(** The library on the documents of the scenario. *)
Definition fallback_lib : Library :=
  mkLibrary
    (fun _ => Err (LibraryError "unexpected end of JSON input"))
    (fun body =>
       if String.eqb body (quoted "{'loc':'0,0'}")
       then Ok (mkIPInfoResponse "" "" "" "" "0,0" "" "" "")
       else Err (LibraryError "invalid character"))
    (fun body =>
       if String.eqb body (quoted "{'latitude':30.04,'longitude':31.23}")
       then Ok (mkIPAPICoResponse "" "" "" "" "" cairo cairo_lon "" "" "" false false "")
       else Err (LibraryError "invalid character"))
    (fun s => s)
    (fun s => if String.eqb s "0" then Ok 0%float
              else Err (LibraryError "strconv.ParseFloat: invalid syntax")).

End LocationSpec.

Module ApiSpec.
Import Client.

(** A server that answers every request with the status 200 and a body
    whose code is 400. *)
Definition rejected_body : string :=
  quoted "{'code':400,'status':'BAD_REQUEST','data':[{'code':400}]}".

Definition rejecting : Network :=
  fun _ _ _ => mkExchange (Responded 200 rejected_body) 0.

Definition rejected : Types.PrayerTimesResponse :=
  Types.mkPrayerTimesResponse 400 "" Types.zeroData.

(** [encoding/json] on the body above. *)
Definition rejecting_codec : Types.Codec :=
  Types.mkCodec
    (fun body =>
       if String.eqb body rejected_body
       then Ok (Types.mkPrayerTimesResponse 400 "BAD_REQUEST" Types.zeroData)
       else Err (LibraryError "invalid character"))
    (fun body =>
       if String.eqb body rejected_body
       then Ok (Types.mkQiblaResponse 400 "BAD_REQUEST"
                  (Types.mkQiblaData 0%float 0%float 0%float))
       else Err (LibraryError "invalid character"))
    (fun body =>
       if String.eqb body rejected_body
       then Ok (Types.mkCalendarResult 400 "BAD_REQUEST" [rejected])
       else Err (LibraryError "invalid character"))
    (fun _ => Err (LibraryError "unsupported"))
    (fun _ => Err (LibraryError "unsupported")).

Definition february : Params.CalendarParams :=
  Params.mkCalendarParams 30.5%float 31.25%float "" 2026 2 5 25 3 "5,10,15" "all" "en"
    "#1e90ff" "desc" false 0 false false false false 0 0 0 false "".

Definition no_encoding : Params.Values -> string := fun _ => "".

End ApiSpec.

Module KeySpec.
Import Cache CachedClient.

(** The text hashed for the two fingerprints of prayer times. *)
Definition times_text (lat lon : float) (date : string) (method : Z) : string :=
  key_text [VString "times"; VFloat lat; VFloat lon; VString date; VInt method].

Definition address_text (address date : string) (method : Z) : string :=
  key_text [VString "addr"; VString address; VString date; VInt method].

(** The claim on the coordinates of the Qibla fingerprint: other
    coordinates, another key. *)
Definition coordinates_change_qibla_key : Prop :=
  forall lat lon lat' lon',
    lat <> lat' \/ lon <> lon' -> qibla_key lat lon <> qibla_key lat' lon'.

(** Two points of the same meridian, less than half a metre apart. *)
Definition here : float := 30%float.

Definition nearby : float := 0x1.e00004p+4%float.   (* 30 + 2^-18 *)

End KeySpec.

Module CacheSpec.
Import Cache.

(** The entry [Set] builds. *)
Definition entry_of (c : Cache) (key data : string) (w : World) : Entry :=
  mkEntry data (time_Now w) (Time_Add (time_Now w) (ttl c)) key.

(** A cache directory holding one file that is not JSON. *)
Definition corrupted : World :=
  mkWorld (739918 * 86400 * Second) 0 O [] {[ "cache" ]}
          {[ ("cache", "k.json") := "garbage" ]}.

Definition switched_off : Cache := mkCache "cache" DefaultTTL false.

Definition switched_on : Cache := mkCache "cache" DefaultTTL true.

(** The claim on [Set], for the caches [New] makes, enabled or disabled
    afterwards: an entry that encodes is written. *)
Definition created_cache_writes : Prop :=
  forall json d opts w c w1 e key data b,
    New d opts w = (Ok c, w1) ->
    enabled (SetEnabled e c) = true ->
    Marshal json (entry_of c key data w1) = Ok b ->
    Set_ json (SetEnabled e c) key data w1
    = (None, set_files (<[ getPath c key := b ]> (files w1)) w1).

(** ** [Set], then [Get] *)

Definition found (r : (string * bool) * World) : bool := snd (fst r).

(** The claim on [Set] followed by [Get], for one codec: the value
    itself right after the [Set], nothing once more than the TTL has
    passed. *)
Definition set_then_get (json : Codec) : Prop :=
  forall c key v w w1,
    enabled c = true ->
    0 < ttl c ->
    Set_ json c key v w = (None, w1) ->
    Get json c key w1 = ((v, true), w1)
    /\ forall d, ttl c < d -> found (Get json c key (elapse d w1)) = false.

(** An empty cache directory, on October 30, 2026. *)
Definition stocked : World :=
  mkWorld (739918 * 86400 * Second) 0 O [] {[ "cache" ]} ∅.

Definition spaced : string := quoted "{'a': 1}".

Definition compacted : string := quoted "{'a':1}".

(** What [Set] writes for the spaced value, and what decodes from it. *)
Definition written : string :=
  quoted "{'data':{'a':1},'created_at':'2026-10-30T00:00:00Z','expires_at':'2026-10-31T00:00:00Z','key':'k'}".

Definition read_back : Entry :=
  mkEntry compacted (mkTime (739918 * 86400 * Second) 0)
          (mkTime (739919 * 86400 * Second) 0) "k".

End CacheSpec.

Module CachedSpec.
Import CachedClient.

(** The claim on a hit that does not decode as a response: the entry
    file is gone when [Get] returns. *)
Definition corrupt_hit_purged (json : Cache.Codec) (codec : Types.Codec) : Prop :=
  forall ch key w data w1 err,
    Cache.Get json ch key w = ((data, true), w1) ->
    Types.UnmarshalPrayerTimes codec data = Err err ->
    files w1 !! Cache.getPath ch key = None.

(** Prayer times for October 30, 2026, north of Cairo. *)
Definition request : Params.PrayerTimesParams :=
  Params.mkPrayerTimesParams 30.5%float 31.25%float ""
    (mkTime (739918 * 86400 * Second) 0) 5 0 "" "en" 0 false false.

Definition request_key : string := fst (times_key request CacheSpec.stocked).

(** An entry that is a sound envelope around data that are no response. *)
Definition envelope : string :=
  quoted "{'data':'oops','created_at':'2026-10-30T00:00:00Z','expires_at':'2026-10-31T00:00:00Z','key':'k'}".

Definition poisoned : World :=
  set_files {[ Cache.getPath CacheSpec.switched_on request_key := envelope ]}
            CacheSpec.stocked.

Definition oops : string := quoted "'oops'".

Definition caching : CachedClient :=
  NewCachedClient (Client.WithMaxRetries 0 Client.NewClient)
                  [WithCache CacheSpec.switched_on].

End CachedSpec.

Module ParamsSpec.

(** [n] consecutive integers from [a] on, for checks by enumeration. *)
Fixpoint upto (n : nat) (a : Z) : list Z :=
  match n with
  | O => []
  | S n' => a :: upto n' (a + 1)
  end.

(** Month and day of the day [doe] of a 400-year cycle. *)
Definition month_day (doe : Z) : Z * Z :=
  let '(_, m, d) := GoTime.civil (doe - 306) in (m, d).

Definition is_digit (a : ascii) : bool :=
  (48 <=? nat_of_ascii a)%nat && (nat_of_ascii a <=? 57)%nat.

(** Two digits, a dash, two digits, a dash, four digits. *)
Definition dd_mm_yyyy (s : string) : bool :=
  match list_ascii_of_string s with
  | [d1; d2; h1; m1; m2; h2; y1; y2; y3; y4] =>
      is_digit d1 && is_digit d2 && Ascii.eqb h1 "-" && is_digit m1 && is_digit m2
      && Ascii.eqb h2 "-" && is_digit y1 && is_digit y2 && is_digit y3 && is_digit y4
  | _ => false
  end.

Definition render (y m d : Z) : string :=
  GoFmt.appendInt d 2 ++ "-" ++ GoFmt.appendInt m 2 ++ "-" ++ GoFmt.appendInt y 4.

End ParamsSpec.

(** ** Scenarios of the further properties *)

Module CacheDirSpec.
Import Cache CacheDir.

Definition no_separator (name : string) : bool :=
  forallb (fun a => negb (Ascii.eqb a "/")) (list_ascii_of_string name).

(** A world whose files are all in directories that exist, under names
    that are single path elements. *)
Definition flat (w : World) : Prop :=
  map_Forall (fun (p : path) (_ : string) =>
                fst p ∈ dirs w /\ no_separator (snd p) = true) (files w).

(** A cache file that [Get] would not serve: it does not decode, or the
    entry has expired. *)
Definition stale (json : Codec) (w : World) (data : string) : bool :=
  match Unmarshal json data with
  | Err _ => true
  | Ok entry => Time_After (time_Now w) (ExpiresAt entry)
  end.

(** The path [p] is a file of the cache directory with the extension
    [.json]. *)
Definition entry_file (c : Cache) (p : path) : bool :=
  String.eqb (fst p) (dir c) && String.eqb (Ext (snd p)) ".json".

(** What the loop removes: the entry files among [names] that are stale. *)
Definition swept (json : Codec) (c : Cache) (names : list string) (w : World)
    (p : path) : option string :=
  match files w !! p with
  | Some data =>
      if entry_file c p && bool_decide (snd p ∈ names) && stale json w data
      then None else Some data
  | None => None
  end.

(** A directory with a fresh entry, an expired one, a file that is no
    entry and a file without the extension, on October 30, 2026. *)
Definition fresh_entry : string :=
  quoted "{'data':{'a':1},'created_at':'2026-10-30T00:00:00Z','expires_at':'2026-10-31T00:00:00Z','key':'k'}".

Definition old_entry : string :=
  quoted "{'data':{'a':1},'created_at':'2026-10-28T00:00:00Z','expires_at':'2026-10-29T00:00:00Z','key':'old'}".

Definition shelf : World :=
  mkWorld (739918 * 86400 * Second) 0 O [] {[ "cache" ]}
          {[ ("cache", "k.json") := fresh_entry;
             ("cache", "old.json") := old_entry;
             ("cache", "bad.json") := "garbage";
             ("cache", "notes.txt") := "keep" ]}.

End CacheDirSpec.

Module RetrySpec.
Import Client ClientSpec.

(** An exchange that [doRequest] turns into an error: no response, or a
    status outside 200-299. *)
Definition failed (x : Exchange) : bool :=
  match outcome x with
  | Responded status _ => (status <? 200) || (status >=? 300)
  | _ => true
  end.

(** A server that is down for the first two requests and then answers. *)
Definition recovering : Network :=
  fun n _ _ =>
    match n with
    | O => mkExchange (DoFailed (LibraryError "dial tcp: connection refused")) 0
    | S O => mkExchange (Responded 503 "busy") 0
    | _ => mkExchange (Responded 200 "ok") 0
    end.

(** The world after a call with the default client against it, from
    [quiet] on. *)
Definition recovered : World :=
  mkWorld (500 * Millisecond) 0 3
    [EvAttempt 0 0 (Some (Wrapf "request failed"
                            (LibraryError "dial tcp: connection refused")));
     EvBackoff 1 (100 * Millisecond);
     EvAttempt 1 (100 * Millisecond)
       (Some (Errorf "unexpected status code: 503, body: busy"));
     EvBackoff 2 (400 * Millisecond);
     EvAttempt 2 (500 * Millisecond) None] ∅ ∅.

End RetrySpec.

Module UrlSpec.
Import Params GoUrl ICS.

(** The bytes of an encoded query: unreserved bytes, [+], [%] and the
    separators [=] and [&]. *)
Definition query_byte (c : ascii) : bool :=
  negb (shouldEscape c)
  || Ascii.eqb c "+" || Ascii.eqb c "%" || Ascii.eqb c "=" || Ascii.eqb c "&".

Fixpoint count (a : ascii) (s : string) : nat :=
  match s with
  | EmptyString => O
  | String c rest => ((if Ascii.eqb c a then 1 else 0) + count a rest)%nat
  end.

Definition all_bytes (p : ascii -> bool) (s : string) : bool :=
  forallb p (list_ascii_of_string s).

(** The parameters of the test [TestBuildICSURL]. *)
Definition cairo_calendar : CalendarParams :=
  mkCalendarParams 0%float 0%float "Cairo, Egypt" 0 0 5 25 3 "" "" "en" "#1e90ff" ""
    false 0 false false false false 0 0 0 false "".

End UrlSpec.

Module ValidatorSpec.
Import Params Validator.

(** The parameters other than the location are in their ranges. *)
Definition settings_in_range (p : PrayerTimesParams) : Prop :=
  0 <= Method p <= 23 /\ 0 <= School p <= 1 /\ -30 <= Adjustment p <= 30.

Definition not_a_number : float := PrimFloat.nan.

(** Prayer times at the latitude 30.5, the longitude 31.25. *)
Definition delta : PrayerTimesParams :=
  mkPrayerTimesParams 30.5%float 31.25%float "" (mkTime 0 0) 5 0 "" "en" 0 false false.

(** The same with a latitude that is no number. *)
Definition nowhere : PrayerTimesParams :=
  mkPrayerTimesParams not_a_number 31.25%float "" (mkTime 0 0) 5 0 "" "en" 0 false false.

(** The year of the local date. *)
Definition calendar_year (w : World) : Z :=
  let '(year, _, _) := GoTime.Date (time_Now w) in year.

End ValidatorSpec.

Module CachedMoreSpec.
Import CachedClient.

(** An entry under the key of the request whose data are a response
    the server rejected. *)
Definition refusal : string :=
  quoted "{'data':{'code':400,'status':'BAD_REQUEST','data':[{'code':400}]},'created_at':'2026-10-30T00:00:00Z','expires_at':'2026-10-31T00:00:00Z','key':'k'}".

Definition tampered : World :=
  set_files {[ Cache.getPath CacheSpec.switched_on CachedSpec.request_key := refusal ]}
            CacheSpec.stocked.

(** A server that answers every request with the times of a day. *)
Definition answer_body : string := quoted "{'code':200,'status':'OK','data':{}}".

Definition serving : Network :=
  fun _ _ _ => mkExchange (Responded 200 answer_body) 0.

Definition answer : Types.PrayerTimesResponse :=
  Types.mkPrayerTimesResponse 200 "OK" Types.zeroData.

(** [encoding/json] on the body above and on the response it decodes
    to. *)
Definition serving_codec : Types.Codec :=
  Types.mkCodec
    (fun body =>
       if String.eqb body answer_body then Ok answer
       else Err (LibraryError "invalid character"))
    (fun _ => Err (LibraryError "unsupported"))
    (fun _ => Err (LibraryError "unsupported"))
    (fun _ => Ok answer_body)
    (fun _ => Err (LibraryError "unsupported")).

End CachedMoreSpec.

Module KeyShapeSpec.

(** A lowercase hexadecimal digit. *)
Definition lower_hex (a : ascii) : bool :=
  GoUrl.byte_between 48 57 a || GoUrl.byte_between 97 102 a.

End KeyShapeSpec.

Module ParamsMoreSpec.
Import Params.

(** The keys of a query, in the order they were set. *)
Definition keys (q : Values) : list string := map fst q.

(** A request made one second before midnight, and the world two
    seconds later. *)
Definition evening : World :=
  mkWorld (739919 * 86400 * Second - Second) 0 O [] ∅ ∅.

Definition unset : PrayerTimesParams :=
  mkPrayerTimesParams 30.5%float 31.25%float "" (mkTime 0 0) 5 0 "" "en" 0 false false.

End ParamsMoreSpec.

Module CalendarSpec.
Import Calendar.

(** The byte [c] occurs in [s]. *)
Definition has (c : ascii) (s : string) : Prop := In c (list_ascii_of_string s).

(** The text [sub] occurs in [s]. *)
Definition occurs (sub s : string) : Prop := exists l r, s = l ++ sub ++ r.

(** [s[n:]] *)
Definition drop (n : nat) (s : string) : string := substring n (String.length s - n) s.

(** What [replaceAll] appends to the text it has passed, [rest] being
    the text still in front of its index. *)
Fixpoint rewritten (fuel : nat) (old new rest : string) : option string :=
  match fuel with
  | O => None
  | S fuel' =>
      if (String.length rest <? String.length old)%nat then Some rest
      else if String.prefix old rest
           then option_map (append new)
                  (rewritten fuel' old new (drop (String.length old) rest))
           else match rest with
                | String c r => option_map (String c) (rewritten fuel' old new r)
                | EmptyString => None
                end
  end.

(** The bytes [sanitizeFilename] removes or replaces. *)
Definition unwanted : list ascii :=
  [" "; ","; "."; "/"; "\"; ":"; "*"; "?"; ascii_of_nat 34; "<"; ">"; "|"]%char.

(** A byte of a sanitized name: none of the unwanted ones and no capital
    letter. *)
Definition name_byte (c : ascii) : bool :=
  negb (existsb (Ascii.eqb c) unwanted) && negb (GoUrl.byte_between 65 90 c).

Definition first_byte (s : string) : option ascii := String.get 0 s.

Definition last_byte (s : string) : option ascii := String.get (String.length s - 1) s.

(** A replacement of [replacer]: one byte, which is no dash, by nothing
    or by a dash. *)
Definition one_byte (r : string * string) : Prop :=
  exists x, fst r = String x "" /\ x <> "-"%char /\ (snd r = "" \/ snd r = "-").

(** A text of name bytes only. *)
Definition clean (s : string) : Prop := forall c, has c s -> name_byte c = true.

End CalendarSpec.

Module PrayerSpec.
Import Prayer.

(** A day at noon: the two morning prayers have passed, and a flag left
    from an earlier call is still set on the first. *)
Definition noon : list Prayer :=
  [ mkPrayer "Fajr" 0 "04:30" 0 true true;
    mkPrayer "Sunrise" 0 "06:00" 1 true false;
    mkPrayer "Dhuhr" 0 "12:10" 2 false false;
    mkPrayer "Asr" 0 "15:40" 3 false false ].

End PrayerSpec.

Module OutputSpec.
Import GoString.

(** A byte at which [cleanTime] of the commands stops. *)
Definition stop (c : ascii) : bool := Ascii.eqb c " " || Ascii.eqb c "(".

Definition is_byte (sep c : ascii) : bool := Ascii.eqb c sep.

(** The bytes of [s] in front of the first one that [p] holds of. *)
Fixpoint before (p : ascii -> bool) (s : string) : string :=
  match s with
  | EmptyString => ""
  | String c rest => if p c then "" else String c (before p rest)
  end.

End OutputSpec.

(** * Properties *)

Module ClientFacts.
Import Client.
Import ClientSpec.

Lemma wrap64_id z : int64_range z -> wrap64 z = z.
Proof.
  unfold int64_range, wrap64, two63, two64. intros H.
  rewrite Z.mod_small; lia.
Qed.

Lemma backoff_exact k :
  0 <= k <= max_exact_backoff -> backoff k = k * k * (100 * Millisecond).
Proof.
  unfold max_exact_backoff, backoff, int_mul, Millisecond. intros H.
  assert (0 <= k * k <= 303700 * 303700) by nia.
  rewrite (wrap64_id (k * k)) by (unfold int64_range, two63; lia).
  rewrite (wrap64_id (k * k * 100)) by (unfold int64_range, two63; lia).
  rewrite wrap64_id by (unfold int64_range, two63; lia). lia.
Qed.

Lemma backoff_overflow : backoff 303701 < 0.
Proof. vm_compute. reflexivity. Qed.

Lemma steps_app l1 l2 : steps (l1 ++ l2) = (steps l1 ++ steps l2)%list.
Proof. unfold steps. apply flat_map_app. Qed.

Lemma zrange_S a n : zrange a (S n) = (a :: zrange (a + 1) n)%list.
Proof.
  unfold zrange. cbn [seq map]. f_equal; [lia|].
  rewrite <- seq_shift, map_map. apply map_ext. intros i. lia.
Qed.

(** More fuel does not change a run that returned. *)
Lemma retry_from_mono net timer_first c ctx method url fuel :
  forall a lastErr w r,
    retry_from net timer_first fuel c ctx method url a lastErr w = Some r ->
    forall fuel', (fuel <= fuel')%nat ->
    retry_from net timer_first fuel' c ctx method url a lastErr w = Some r.
Proof.
  induction fuel as [|k IHk]; intros a le w0 r H k' Hk'; [discriminate|].
  destruct k' as [|k']; [lia|]. cbn [retry_from] in *.
  destruct (a <=? maxRetries c); [|exact H].
  destruct (if a >? 0 then _ else _) as [[? ?]|w1]; [exact H|].
  destruct (doRequest net c method url w1) as [[resp|err] w4]; [exact H|].
  destruct (ctx_Err ctx _); [exact H|]. apply IHk; [exact H | lia].
Qed.

Section Exhaustion.

Variable net : Network.

Variable timer_first : Z -> bool.

Variable c : Client.

Variable ctx : Context.

Variables method url : string.

Hypothesis Hnever : never_done ctx.

Hypothesis Hfails : always_fails net c.

Hypothesis Hmax : maxRetries c < two63 - 1.

Lemma await_never k w :
  await_backoff timer_first ctx k w
  = inr (record (EvBackoff k (backoff k)) (set_now (now w + Z.max (backoff k) 0) w)).
Proof. unfold await_backoff. rewrite Hnever. reflexivity. Qed.

Lemma ctx_never t : ctx_Err ctx t = None.
Proof. unfold ctx_Err. rewrite Hnever. reflexivity. Qed.

(** The loop from the iteration [a] on, with [n] iterations to go. *)
Lemma retry_from_exhausts n :
  forall a lastErr w fuel,
    0 <= a -> a + Z.of_nat n = maxRetries c + 1 -> (n < fuel)%nat ->
    exists w' lastErr',
      retry_from net timer_first fuel c ctx method url a lastErr w
      = Some (Err (wrap_error ("request failed after "
                                 ++ itoa (maxRetries c + 1) ++ " attempts") lastErr'), w')
      /\ steps (log w') = (steps (log w) ++ rounds a n)%list
      /\ match n with
         | O => lastErr' = lastErr /\ w' = w
         | S _ => exists t e, lastErr' = Some e
                   /\ last (log w') = Some (EvAttempt (maxRetries c) t (Some e))
         end.
Proof.
  induction n as [|n IH]; intros a lastErr w fuel Ha Hn Hfuel.
  - destruct fuel as [|fuel]; [lia|]. cbn [retry_from].
    replace (a <=? maxRetries c) with false by (symmetry; apply Z.leb_gt; lia).
    exists w, lastErr. unfold int_add.
    rewrite wrap64_id by (unfold int64_range, two63 in *; lia).
    repeat split. unfold rounds, zrange. cbn. now rewrite app_nil_r.
  - destruct fuel as [|fuel]; [lia|]. cbn [retry_from].
    replace (a <=? maxRetries c) with true by (symmetry; apply Z.leb_le; lia).
    set (w1 := if a >? 0
               then record (EvBackoff a (backoff a)) (set_now (now w + Z.max (backoff a) 0) w)
               else w).
    assert (Hsel : (if a >? 0 then await_backoff timer_first ctx a w else inr w) = inr w1).
    { unfold w1. destruct (a >? 0); [apply await_never | reflexivity]. }
    rewrite Hsel.
    destruct (Hfails method url w1) as [e He].
    destruct (doRequest net c method url w1) as [r w2] eqn:Hreq. cbn in He. subst r.
    rewrite ctx_never.
    set (w3 := record (EvAttempt a (now w2) (Some e)) w2).
    assert (Hlog2 : log w2 = log w1).
    { unfold doRequest in Hreq.
      destruct (outcome _); try (injection Hreq as _ <-; reflexivity).
      destruct (_ || _); injection Hreq as _ <-; reflexivity. }
    unfold int_add. rewrite wrap64_id by (unfold int64_range, two63 in *; lia).
    destruct (IH (a + 1) (Some e) w3 fuel) as (w' & lastErr' & Hrun & Hsteps & Hlast);
      [lia | lia | lia |].
    exists w'. destruct n as [|n].
    + destruct Hlast as [-> ->]. exists (Some e). split; [exact Hrun|]. split.
      * rewrite Hsteps. unfold rounds. rewrite !zrange_S. cbn [flat_map zrange seq map].
        rewrite !app_nil_r. unfold w3. cbn [log record]. rewrite steps_app, Hlog2.
        unfold w1. destruct (a >? 0); cbn [log record set_now]; [rewrite steps_app|];
          cbn; rewrite ?app_nil_r, <- ?app_assoc; reflexivity.
      * exists (now w2), e. split; [reflexivity|]. unfold w3. cbn [log record].
        rewrite last_snoc. f_equal. f_equal. lia.
    + exists lastErr'. split; [exact Hrun|]. split; [|exact Hlast].
      rewrite Hsteps. unfold rounds. rewrite (zrange_S a). cbn [flat_map].
      unfold w3. cbn [log record]. rewrite steps_app, Hlog2.
      unfold w1. destruct (a >? 0); cbn [log record set_now]; [rewrite steps_app|];
        cbn; rewrite <- ?app_assoc; reflexivity.
Qed.

End Exhaustion.

Lemma in_zrange a n k : In k (zrange a n) <-> a <= k < a + Z.of_nat n.
Proof.
  unfold zrange. rewrite in_map_iff. split.
  - intros (i & <- & Hi). apply in_seq in Hi. lia.
  - intros H. exists (Z.to_nat (k - a)). split; [lia|]. apply in_seq. lia.
Qed.

Lemma flat_map_ext_in {A B : Type} (f g : A -> list B) l :
  (forall a, In a l -> f a = g a) -> flat_map f l = flat_map g l.
Proof.
  induction l as [|x l IH]; intros H; [reflexivity|]. cbn [flat_map].
  rewrite (H x) by (left; reflexivity). f_equal. apply IH.
  intros a Ha. apply H. right. exact Ha.
Qed.

Lemma rounds_schedule m :
  rounds 0 (S m) = schedule backoff (Z.of_nat m).
Proof.
  unfold rounds, schedule. rewrite zrange_S, Nat2Z.id. cbn [flat_map].
  replace (0 >? 0) with false by reflexivity. cbn [app]. f_equal.
  apply flat_map_ext_in. intros k Hk. apply in_zrange in Hk.
  replace (k >? 0) with true by (symmetry; apply Z.gtb_lt; lia). reflexivity.
Qed.

Lemma schedule_ext f g m :
  (forall k, 1 <= k <= m -> f k = g k) -> schedule f m = schedule g m.
Proof.
  intros H. unfold schedule. f_equal. apply flat_map_ext_in.
  intros k Hk. apply in_zrange in Hk. rewrite H by lia. reflexivity.
Qed.

Lemma waits_inj f g l :
  flat_map (fun k => [Sleep (f k); Try k]) l = flat_map (fun k => [Sleep (g k); Try k]) l ->
  forall k, In k l -> f k = g k.
Proof.
  induction l as [|x l IH]; intros H k Hk; [destruct Hk|].
  cbn [flat_map app] in H. injection H as Hx Hl.
  destruct Hk as [<- | Hk]; [exact Hx | exact (IH Hl k Hk)].
Qed.

Lemma schedule_inj f g m :
  schedule f m = schedule g m -> forall k, 1 <= k <= m -> f k = g k.
Proof.
  unfold schedule. intros H k Hk. injection H as H.
  apply (waits_inj f g _ H). apply in_zrange. lia.
Qed.

Lemma unreachable_fails c : always_fails unreachable c.
Proof. intros method url w. eexists. reflexivity. Qed.




(** ** Cancellation *)

(** No failed attempt of the events [l] that ended with the context done
    is followed by anything, and the run returned the context's error. *)
Definition stops_when_cancelled (ctx : Context) (r : result string) (l : list event)
  : Prop :=
  forall pre k t e post ce,
    l = (pre ++ EvAttempt k t (Some e) :: post)%list ->
    ctx_Err ctx t = Some ce ->
    post = [] /\ r = Err ce.

Section Cancellation.

Variable net : Network.

Variable timer_first : Z -> bool.

Variable c : Client.

Variable ctx : Context.

Variables method url : string.

Local Abbreviation stops := (stops_when_cancelled ctx).

Lemma doRequest_log w : log (snd (doRequest net c method url w)) = log w.
Proof.
  unfold doRequest. destruct (outcome _); try reflexivity.
  destruct (_ || _); reflexivity.
Qed.

Lemma await_backoff_log a w w1 :
  await_backoff timer_first ctx a w = inr w1 ->
  log w1 = (log w ++ [EvBackoff a (backoff a)])%list.
Proof.
  unfold await_backoff. destruct (doneAt ctx) as [t|].
  - destruct (_ <? _); [discriminate|]. destruct (_ <? _).
    + intros [= <-]. reflexivity.
    + destruct (timer_first a); [|discriminate]. intros [= <-]. reflexivity.
  - intros [= <-]. reflexivity.
Qed.

Lemma await_backoff_cancel_log a w e w1 :
  await_backoff timer_first ctx a w = inl (e, w1) -> log w1 = log w.
Proof.
  unfold await_backoff. destruct (doneAt ctx) as [t|]; [|discriminate].
  destruct (_ <? _); [intros [= _ <-]; reflexivity|].
  destruct (_ <? _); [discriminate|].
  destruct (timer_first a); [discriminate|]. intros [= _ <-]. reflexivity.
Qed.

Lemma stops_when_cancelled_nil r : stops r [].
Proof. intros [|x pre] k t e post ce H; discriminate. Qed.

Lemma stops_when_cancelled_skip r ev l :
  (forall k t e, ev <> EvAttempt k t (Some e)) ->
  stops r l -> stops r (ev :: l).
Proof.
  intros Hev Hl [|x pre] k t e post ce H Hce.
  - injection H as -> _. exfalso. exact (Hev k t e eq_refl).
  - injection H as _ ->. exact (Hl pre k t e post ce eq_refl Hce).
Qed.

Lemma stops_when_cancelled_prefix r l1 l :
  (forall ev, In ev l1 -> forall k t e, ev <> EvAttempt k t (Some e)) ->
  stops r l -> stops r (l1 ++ l)%list.
Proof.
  intros Hquiet Hl. induction l1 as [|ev l1 IHl1]; [exact Hl|].
  cbn [app]. apply stops_when_cancelled_skip.
  - apply Hquiet. left. reflexivity.
  - apply IHl1. intros ev' Hev'. apply Hquiet. right. exact Hev'.
Qed.

Lemma stops_when_cancelled_live r k t e l :
  ctx_Err ctx t = None ->
  stops r l -> stops r (EvAttempt k t (Some e) :: l).
Proof.
  intros Hlive Hl [|x pre] k' t' e' post ce H Hce.
  - injection H as -> -> -> _. congruence.
  - injection H as _ ->. exact (Hl pre k' t' e' post ce eq_refl Hce).
Qed.

Lemma stops_when_cancelled_last k t e ce :
  ctx_Err ctx t = Some ce ->
  stops (Err ce) [EvAttempt k t (Some e)].
Proof.
  intros Hce [|x pre] k' t' e' post ce' H Hce'.
  - injection H as -> -> -> <-. split; [reflexivity | congruence].
  - injection H as _ H. destruct pre; discriminate.
Qed.

(** Every run that returns: its own events, and what they satisfy. *)
Lemma retry_from_cancellation fuel :
  forall a lastErr w r w',
    retry_from net timer_first fuel c ctx method url a lastErr w = Some (r, w') ->
    exists l, log w' = (log w ++ l)%list /\ stops r l.
Proof.
  induction fuel as [|fuel IH]; intros a lastErr w r w' H; [discriminate|].
  cbn [retry_from] in H.
  destruct (a <=? maxRetries c).
  2:{ injection H as <- <-. exists []. rewrite app_nil_r.
      split; [reflexivity | apply stops_when_cancelled_nil]. }
  assert (Hbody : forall w1 l1,
             log w1 = (log w ++ l1)%list ->
             (forall ev, In ev l1 -> forall k t e, ev <> EvAttempt k t (Some e)) ->
             match doRequest net c method url w1 with
             | (Ok resp, w2) => Some (Ok resp, record (EvAttempt a (now w2) None) w2)
             | (Err err, w2) =>
                 let w3 := record (EvAttempt a (now w2) (Some err)) w2 in
                 match ctx_Err ctx (now w3) with
                 | Some ce => Some (Err ce, w3)
                 | None => retry_from net timer_first fuel c ctx method url
                             (int_add a 1) (Some err) w3
                 end
             end = Some (r, w') ->
             exists l, log w' = (log w ++ l)%list /\ stops r l).
  { clear H. intros w1 l1 Hl1 Hquiet H.
    pose proof (fun r0 l => stops_when_cancelled_prefix r0 l1 l Hquiet) as Hprefix.
    pose proof (doRequest_log w1) as Hlog.
    destruct (doRequest net c method url w1) as [[resp|err] w2]; cbn [snd] in Hlog.
    - injection H as <- <-. exists (l1 ++ [EvAttempt a (now w2) None])%list.
      cbn [log record]. rewrite Hlog, Hl1, <- app_assoc. split; [reflexivity|].
      apply Hprefix. apply stops_when_cancelled_skip; [discriminate|].
      apply stops_when_cancelled_nil.
    - cbv zeta in H. cbn [now record] in H.
      destruct (ctx_Err ctx (now w2)) as [ce|] eqn:Hce.
      + injection H as <- <-. exists (l1 ++ [EvAttempt a (now w2) (Some err)])%list.
        cbn [log record]. rewrite Hlog, Hl1, <- app_assoc. split; [reflexivity|].
        apply Hprefix. apply stops_when_cancelled_last. exact Hce.
      + apply IH in H. destruct H as (l & Hl & Hstops).
        exists (l1 ++ EvAttempt a (now w2) (Some err) :: l)%list.
        rewrite Hl. cbn [log record]. rewrite Hlog, Hl1, <- !app_assoc.
        split; [reflexivity|]. apply Hprefix.
        apply stops_when_cancelled_live; assumption. }
  destruct (a >? 0).
  - destruct (await_backoff timer_first ctx a w) as [[e w1]|w1] eqn:Hsel.
    + injection H as <- <-. exists []. rewrite app_nil_r.
      split; [exact (await_backoff_cancel_log _ _ _ _ Hsel) | apply stops_when_cancelled_nil].
    + apply (Hbody w1 [EvBackoff a (backoff a)]);
        [exact (await_backoff_log _ _ _ Hsel) | | exact H].
      intros ev [<- | []] k t e. discriminate.
  - apply (Hbody w []); [now rewrite app_nil_r | intros ev [] | exact H].
Qed.

End Cancellation.

(** C2.  When an attempt fails and the context is done by then, the
    iteration returns the context's error at once: one unit of fuel is
    enough whatever the remaining retry budget, so no further wait and
    no further attempt take place; and in every run that returns, a
    failed attempt that ended with the context done is the last event of
    the run, whose result is the context's error. *)
Theorem cancellation_precedes_retry :
  forall net timer_first c ctx method url,
    (forall a lastErr w w1 e w2 ce fuel,
        a <= maxRetries c ->
        (if a >? 0 then await_backoff timer_first ctx a w else inr w) = inr w1 ->
        doRequest net c method url w1 = (Err e, w2) ->
        ctx_Err ctx (now w2) = Some ce ->
        retry_from net timer_first (S fuel) c ctx method url a lastErr w
        = Some (Err ce, record (EvAttempt a (now w2) (Some e)) w2))
    /\
    (forall fuel w r w',
        doRequestWithRetry net timer_first fuel c ctx method url w = Some (r, w') ->
        exists l, log w' = (log w ++ l)%list
                  /\ stops_when_cancelled ctx r l).
Proof.
  intros net timer_first c ctx method url. split.
  - intros a lastErr w w1 e w2 ce fuel Ha Hsel Hreq Hce.
    cbn [retry_from].
    replace (a <=? maxRetries c) with true by (symmetry; apply Z.leb_le; exact Ha).
    rewrite Hsel, Hreq. cbv zeta. cbn [now record]. rewrite Hce. reflexivity.
  - intros fuel w r w'. apply retry_from_cancellation.
Qed.

Lemma cancellation_precedes_retry_default :
  0 <= maxRetries NewClient
  /\ ctx_Err expired 0 = Some DeadlineExceeded
  /\ doRequestWithRetry unreachable (fun _ => true) 1 NewClient expired "GET" "u" quiet
     = Some (Err DeadlineExceeded,
             record (EvAttempt 0 0 (Some (Wrapf "request failed"
                       (LibraryError "dial tcp: connection refused"))))
                    (count_sent quiet)).
Proof.
  split; [vm_compute; discriminate|]. split; [reflexivity|].
  apply (proj1 (cancellation_precedes_retry unreachable (fun _ => true) NewClient
                  expired "GET" "u")
               0 None quiet quiet
               (Wrapf "request failed" (LibraryError "dial tcp: connection refused"))
               (count_sent quiet) DeadlineExceeded O).
  - vm_compute. discriminate.
  - reflexivity.
  - reflexivity.
  - reflexivity.
Defined.

End ClientFacts.

Module LocationFacts.
Import Location.
Import LocationSpec.

Section Resolver.

Variable net : Network.

Variable lib : Library.

Variable d : Detector.

Lemma detector_doRequest_log url w :
  log (snd (doRequest net d url w)) = (log w ++ [EvGet url])%list.
Proof.
  unfold doRequest. destruct (outcome _); try reflexivity;
    destruct (negb _); reflexivity.
Qed.

Lemma detectFromIPAPI_log w :
  log (snd (detectFromIPAPI net lib d w)) = (log w ++ [EvGet IPAPIEndpoint])%list.
Proof.
  unfold detectFromIPAPI. pose proof (detector_doRequest_log IPAPIEndpoint w) as H.
  destruct (doRequest net d IPAPIEndpoint w) as [[resp|err] w']; cbn [snd] in *; [|exact H].
  destruct (UnmarshalIPGeo lib resp); [|exact H]. destruct (negb _); exact H.
Qed.

Lemma detectFromIPInfo_log w :
  log (snd (detectFromIPInfo net lib d w)) = (log w ++ [EvGet IPInfoEndpoint])%list.
Proof.
  unfold detectFromIPInfo. pose proof (detector_doRequest_log IPInfoEndpoint w) as H.
  destruct (doRequest net d IPInfoEndpoint w) as [[resp|err] w']; cbn [snd] in *; [|exact H].
  destruct (UnmarshalIPInfo lib resp); [|exact H].
  destruct (parseLatLon lib _) as [[lat lon]|]; exact H.
Qed.

Lemma detectFromIPAPICo_log w :
  log (snd (detectFromIPAPICo net lib d w)) = (log w ++ [EvGet IPAPICoEndpoint])%list.
Proof.
  unfold detectFromIPAPICo. pose proof (detector_doRequest_log IPAPICoEndpoint w) as H.
  destruct (doRequest net d IPAPICoEndpoint w) as [[resp|err] w']; cbn [snd] in *; [|exact H].
  destruct (UnmarshalIPAPICo lib resp); [|exact H]. destruct (cError _); exact H.
Qed.

Lemma accepted_valid r loc : accepted r = Some loc -> IsValid loc = true.
Proof.
  destruct r as [l|e]; cbn; [|discriminate].
  destruct (IsValid l) eqn:H; [|discriminate]. intros [= <-]. exact H.
Qed.

Lemma stamp_valid source t loc : IsValid (stamp source t loc) = IsValid loc.
Proof. reflexivity. Qed.

End Resolver.



End LocationFacts.

Module StringFacts.

Lemma list_ascii_of_string_app s t :
  list_ascii_of_string (s ++ t)
  = (list_ascii_of_string s ++ list_ascii_of_string t)%list.
Proof.
  induction s as [|a s IH]; [reflexivity|].
  change (a :: list_ascii_of_string (s ++ t)
          = a :: (list_ascii_of_string s ++ list_ascii_of_string t)%list).
  now rewrite IH.
Qed.

Lemma append_inv_tail s1 s2 t : s1 ++ t = s2 ++ t -> s1 = s2.
Proof.
  intros H. apply (f_equal list_ascii_of_string) in H.
  rewrite !list_ascii_of_string_app in H. apply app_inv_tail in H.
  apply (f_equal string_of_list_ascii) in H.
  now rewrite !string_of_list_ascii_of_string in H.
Qed.

Lemma append_inv_head s t1 t2 : s ++ t1 = s ++ t2 -> t1 = t2.
Proof. induction s as [|a s IH]; cbn; [auto | intros [= H]; auto]. Qed.

End StringFacts.

Module ParamsFacts.
Import Params.
Import ParamsSpec.

Lemma in_upto_nat n : forall a x, a <= x < a + Z.of_nat n -> In x (upto n a).
Proof.
  induction n as [|n IH]; intros a x H; [lia|]. cbn [upto].
  destruct (Z.eq_dec a x) as [->|Hne]; [left; reflexivity|].
  right. apply IH. lia.
Qed.

Lemma in_upto n x : 0 <= x < n -> In x (upto (Z.to_nat n) 0).
Proof. intros H. apply in_upto_nat. rewrite Z2Nat.id; lia. Qed.

(** Every day of the cycle has a month from 1 to 12 and a day from 1 to
    31; checked on each of them. *)
Lemma month_day_range doe :
  0 <= doe < 146097 ->
  let (m, d) := month_day doe in 1 <= m <= 12 /\ 1 <= d <= 31.
Proof.
  intros H.
  assert (Hall : forallb (fun x => let (m, d) := month_day x in
                                   (1 <=? m) && (m <=? 12) && (1 <=? d) && (d <=? 31))
                         (upto (Z.to_nat 146097) 0) = true) by (vm_compute; reflexivity).
  rewrite forallb_forall in Hall. specialize (Hall doe (in_upto 146097 doe H)).
  destruct (month_day doe) as [m d]. lia.
Qed.

Lemma civil_month_day days :
  let '(y, m, d) := GoTime.civil days in
  month_day ((days + 306) mod 146097) = (m, d).
Proof.
  unfold month_day, GoTime.civil.
  replace ((days + 306) mod 146097 - 306 + 306) with ((days + 306) mod 146097) by lia.
  rewrite Z.mod_mod by lia. reflexivity.
Qed.

(** Days, months and years in range print as DD-MM-YYYY; checked on
    each of them. *)
Lemma render_shape y m d :
  0 <= y <= 9999 -> 1 <= m <= 12 -> 1 <= d <= 31 -> dd_mm_yyyy (render y m d) = true.
Proof.
  intros Hy Hm Hd.
  assert (H2 : forallb (fun x => match list_ascii_of_string (GoFmt.appendInt x 2) with
                                 | [a; b] => is_digit a && is_digit b
                                 | _ => false
                                 end) (upto (Z.to_nat 32) 0) = true) by (vm_compute; reflexivity).
  assert (H4 : forallb (fun x => match list_ascii_of_string (GoFmt.appendInt x 4) with
                                 | [a; b; c; e] => is_digit a && is_digit b && is_digit c && is_digit e
                                 | _ => false
                                 end) (upto (Z.to_nat 10000) 0) = true) by (vm_compute; reflexivity).
  rewrite forallb_forall in H2, H4.
  pose proof (H2 d (in_upto 32 d ltac:(lia))) as Dd.
  pose proof (H2 m (in_upto 32 m ltac:(lia))) as Dm.
  pose proof (H4 y (in_upto 10000 y ltac:(lia))) as Dy.
  unfold dd_mm_yyyy, render.
  rewrite !StringFacts.list_ascii_of_string_app.
  destruct (list_ascii_of_string (GoFmt.appendInt d 2)) as [|d1 [|d2 [|? ?]]]; try discriminate.
  destruct (list_ascii_of_string (GoFmt.appendInt m 2)) as [|m1 [|m2 [|? ?]]]; try discriminate.
  destruct (list_ascii_of_string (GoFmt.appendInt y 4)) as [|y1 [|y2 [|y3 [|y4 [|? ?]]]]];
    try discriminate.
  cbn [app list_ascii_of_string]. cbn [Ascii.eqb Bool.eqb].
  apply andb_prop in Dd as [-> ->]. apply andb_prop in Dm as [-> ->].
  apply andb_prop in Dy as [Dy ->]. apply andb_prop in Dy as [Dy ->].
  apply andb_prop in Dy as [-> ->]. reflexivity.
Qed.

(** The text of a date of the years 0 to 9999 has the form DD-MM-YYYY. *)
Lemma Format_02_01_2006_shape t :
  let '(y, m, d) := GoTime.Date t in
  0 <= y <= 9999 -> dd_mm_yyyy (GoTime.Format_02_01_2006 t) = true.
Proof.
  unfold GoTime.Format_02_01_2006, GoTime.Date.
  set (days := (wall t + zone t * Second) / (86400 * Second)).
  pose proof (civil_month_day days) as Hmd.
  pose proof (month_day_range ((days + 306) mod 146097)
                ltac:(apply Z.mod_pos_bound; lia)) as Hr.
  destruct (GoTime.civil days) as [[y m] d]. rewrite Hmd in Hr.
  intros Hy. apply render_shape; tauto.
Qed.

(** C10.  [GetDateString] writes to its receiver exactly when [Date] is
    the zero time: it then sets [Date] to the current time, leaves every
    other field as it was, and formats that time, so the receiver has
    changed unless the clock itself reads the zero time; with any other
    [Date] the receiver is unchanged and the result is [Date] formatted
    as day-month-year. *)
Theorem GetDateString_writes_zero_date :
  forall p w,
    (Time_IsZero (Date p) = true ->
       snd (GetDateString p w) = WithDate (time_Now w) p
       /\ Date (snd (GetDateString p w)) = time_Now w
       /\ fst (GetDateString p w) = GoTime.Format_02_01_2006 (time_Now w)
       /\ (Time_IsZero (time_Now w) = false -> snd (GetDateString p w) <> p))
    /\ (Time_IsZero (Date p) = false ->
          snd (GetDateString p w) = p
          /\ fst (GetDateString p w) = GoTime.Format_02_01_2006 (Date p)).
Proof.
  intros p w. unfold GetDateString. split; intros Hz; rewrite Hz; cbn [fst snd].
  - repeat split. intros Hnow Heq.
    assert (Hd : Date (WithDate (time_Now w) p) = Date p) by (rewrite Heq; reflexivity).
    cbn [Date WithDate] in Hd. rewrite Hd in Hnow. congruence.
  - split; reflexivity.
Qed.

(** October 30, 2026, 17:00 UTC, read in a zone two hours east. *)
Example GetDateString_today :
  let w := mkWorld (739918 * 86400 * Second + 17 * Hour) 7200 O [] ∅ ∅ in
  let p := mkPrayerTimesParams 0%float 0%float "" (mkTime 0 0) 5 0 "" "en" 0 false false in
  GetDateString p w = ("30-10-2026", WithDate (time_Now w) p)
  /\ GetDateString (snd (GetDateString p w)) (elapse (48 * Hour) w)
     = ("30-10-2026", WithDate (time_Now w) p).
Proof. vm_compute. split; reflexivity. Qed.

End ParamsFacts.

Module ApiFacts.
Import Client.
Import ApiSpec.

Section Operations.

Variable net : Network.

Variable timer_first : Z -> bool.

Variable codec : Types.Codec.

Variable Encode : Params.Values -> string.

(** The three operations that look at the status code of the body
    return a payload only when it is 200. *)
Lemma GetPrayerTimes_checks_code fuel c ctx params w r params' w' :
  GetPrayerTimes net timer_first codec Encode fuel c ctx params w = Some (Ok r, params', w') ->
  Types.Code r = 200.
Proof.
  unfold GetPrayerTimes. destruct (Params.GetDateString params w) as [date p1].
  destruct (doRequestWithRetry _ _ _ _ _ _ _ _) as [[[resp|err] w1]|]; try discriminate.
  destruct (Types.UnmarshalPrayerTimes codec resp) as [res|err]; try discriminate.
  destruct (Types.Code res =? 200) eqn:Hc; cbn [negb]; try discriminate.
  intros [= <- _ _]. apply Z.eqb_eq. exact Hc.
Qed.

Lemma GetPrayerTimesByAddress_checks_code fuel c ctx params w r params' w' :
  GetPrayerTimesByAddress net timer_first codec Encode fuel c ctx params w
  = Some (Ok r, params', w') ->
  Types.Code r = 200.
Proof.
  unfold GetPrayerTimesByAddress. destruct (String.eqb _ _); try discriminate.
  destruct (Params.GetDateString params w) as [date p1].
  destruct (doRequestWithRetry _ _ _ _ _ _ _ _) as [[[resp|err] w1]|]; try discriminate.
  destruct (Types.UnmarshalPrayerTimes codec resp) as [res|err]; try discriminate.
  destruct (Types.Code res =? 200) eqn:Hc; cbn [negb]; try discriminate.
  intros [= <- _ _]. apply Z.eqb_eq. exact Hc.
Qed.

Lemma GetQibla_checks_code fuel c ctx lat lon w r w' :
  GetQibla net timer_first codec fuel c ctx lat lon w = Some (Ok r, w') ->
  Types.qCode r = 200.
Proof.
  unfold GetQibla.
  destruct (doRequestWithRetry _ _ _ _ _ _ _ _) as [[[resp|err] w1]|]; try discriminate.
  destruct (Types.UnmarshalQibla codec resp) as [res|err]; try discriminate.
  destruct (Types.qCode res =? 200) eqn:Hc; cbn [negb]; try discriminate.
  intros [= <- _]. apply Z.eqb_eq. exact Hc.
Qed.

(** [GetCalendarMonth] does not: whatever decodes is returned. *)
Lemma GetCalendarMonth_ignores_code fuel c ctx params w body w' r :
  doRequestWithRetry net timer_first fuel c ctx "GET"
    ((baseURL c ++ "/calendar/" ++ itoa (Params.Year params) ++ "/" ++ itoa (Params.Month params))
     ++ "?" ++ Encode (Params.CalendarToQueryParams params)) w = Some (Ok body, w') ->
  Types.UnmarshalCalendar codec body = Ok r ->
  GetCalendarMonth net timer_first codec Encode fuel c ctx params w
  = Some (Ok (Types.CData r), w').
Proof.
  intros Hreq Hdec. unfold GetCalendarMonth. rewrite Hreq, Hdec. reflexivity.
Qed.

End Operations.


End ApiFacts.

Module KeyFacts.
Import Cache CachedClient.
Import StringFacts.
Import KeySpec.

Lemma to_int_nonnil z : Z.to_int z <> Decimal.Pos Decimal.Nil /\ Z.to_int z <> Decimal.Neg Decimal.Nil.
Proof.
  destruct z as [|p|p]; cbn; split; try discriminate;
    intros [= H]; exact (DecimalPos.Unsigned.to_uint_nonnil p H).
Qed.

Lemma itoa_inj a b : itoa a = itoa b -> a = b.
Proof.
  unfold itoa. intros H.
  destruct (to_int_nonnil a) as [Ha1 Ha2]. destruct (to_int_nonnil b) as [Hb1 Hb2].
  pose proof (NilZero.isi _ Ha1 Ha2) as Ia. pose proof (NilZero.isi _ Hb1 Hb2) as Ib.
  rewrite H in Ia. rewrite Ia in Ib. injection Ib as Hab.
  apply (f_equal Z.of_int) in Hab. now rewrite !DecimalZ.of_to in Hab.
Qed.

Lemma times_text_eq lat lon date method :
  times_text lat lon date method
  = "times" ++ GoFmt.FormatShortest lat ++ GoFmt.FormatShortest lon ++ date ++ itoa method.
Proof. reflexivity. Qed.

Lemma address_text_eq address date method :
  address_text address date method = "addr" ++ address ++ date ++ itoa method.
Proof. reflexivity. Qed.


(** Apart from the rounding, [GenerateKey] writes its arguments into the
    hash one after the other with nothing in between: the coordinates
    (1, 23) and (12, 3) give one text, hence one key. *)
Example coordinates_run_together :
  times_text 1 23 "30-10-2026" 5 = times_text 12 3 "30-10-2026" 5
  /\ times_text 1 23 "30-10-2026" 5 = "times12330-10-20265".
Proof. vm_compute. split; reflexivity. Qed.


End KeyFacts.

Module CacheFacts.
Import Cache.
Import CacheSpec.

(** ** [Get] *)

(** The claim on [Get], for one cache: not found when the file is
    absent, does not decode, or has expired; and in the last two cases
    the file is gone after the call. *)
Definition get_self_heals (json : Codec) (c : Cache) : Prop :=
  forall key w,
    let '((_, found), w') := Get json c key w in
    match files w !! getPath c key with
    | None => found = false
    | Some bytes =>
        match Unmarshal json bytes with
        | Err _ => found = false /\ files w' !! getPath c key = None
        | Ok entry =>
            if Time_After (time_Now w) (ExpiresAt entry)
            then found = false /\ files w' !! getPath c key = None
            else True
        end
    end.

Lemma Remove_gone p w : files (snd (Remove p w)) !! p = None.
Proof.
  unfold Remove. destruct (files w !! p) eqn:H; cbn; [apply lookup_delete_eq | exact H].
Qed.

Lemma Remove_other p q w : p <> q -> files (snd (Remove p w)) !! q = files w !! q.
Proof.
  intros Hne. unfold Remove. destruct (files w !! p); cbn; [|reflexivity].
  now apply lookup_delete_ne.
Qed.

(** C6 (as amended).  For every enabled cache and every key, [Get]
    returns not-found when the entry file is absent, does not decode as
    an entry, or the current time is past [ExpiresAt]; in the last two
    cases the file, and no other, is deleted.  A disabled cache returns
    not-found without reading or deleting anything. *)
Theorem Get_self_heals_when_enabled :
  forall json c,
    (enabled c = true ->
       get_self_heals json c
       /\ forall key w p, p <> getPath c key ->
            files (snd (Get json c key w)) !! p = files w !! p)
    /\ (enabled c = false -> forall key w, Get json c key w = (("", false), w)).
Proof.
  intros json c. split.
  - intros Hen. split.
    + intros key w. unfold Get, ReadFile. rewrite Hen. cbn [negb].
      destruct (files w !! getPath c key) as [bytes|] eqn:Hf; [|reflexivity].
      destruct (Unmarshal json bytes) as [entry|e].
      * destruct (Time_After _ _); [|exact I].
        split; [reflexivity | apply Remove_gone].
      * split; [reflexivity | apply Remove_gone].
    + intros key w p Hne. unfold Get, ReadFile. rewrite Hen. cbn [negb].
      destruct (files w !! getPath c key) as [bytes|]; [|reflexivity].
      destruct (Unmarshal json bytes) as [entry|e].
      * destruct (Time_After _ _); [|reflexivity]. cbn [snd].
        apply Remove_other. congruence.
      * cbn [snd]. apply Remove_other. congruence.
  - intros Hdis key w. unfold Get. rewrite Hdis. reflexivity.
Qed.

(** C6, as stated, fails on a disabled cache: the file that does not
    decode is still there after [Get]. *)
Lemma disabled_Get_keeps_corrupt_file : ~ get_self_heals EntryJson.codec switched_off.
Proof.
  intros H. specialize (H "k" corrupted). vm_compute in H.
  destruct H as [_ H]. discriminate.
Qed.

(** The scenario of the specification: garbage written into the entry
    file of an enabled cache; [Get] finds nothing and the file is gone. *)
Example corrupt_entry_self_heals :
  Get EntryJson.codec switched_on "k" corrupted
  = (("", false), set_files ∅ corrupted).
Proof. vm_compute. reflexivity. Qed.

(** ** [Set] *)

Lemma WriteFile_ok p data w :
  fst p ∈ dirs w ->
  WriteFile p data w = (None, set_files (<[ p := data ]> (files w)) w).
Proof. intros H. unfold WriteFile. now rewrite decide_True. Qed.

Lemma WriteFile_no_directory p data w :
  fst p ∉ dirs w ->
  WriteFile p data w = (Some (LibraryError "open: no such file or directory"), w).
Proof. intros H. unfold WriteFile. now rewrite decide_False. Qed.

(** What a successful [Set] of an enabled cache did. *)
Lemma Set_success json c key data w w1 :
  enabled c = true ->
  Set_ json c key data w = (None, w1) ->
  exists b, Marshal json (entry_of c key data w) = Ok b
            /\ dir c ∈ dirs w
            /\ w1 = set_files (<[ getPath c key := b ]> (files w)) w.
Proof.
  intros Hen. unfold Set_. rewrite Hen. cbn [negb]. fold (entry_of c key data w).
  destruct (Marshal json (entry_of c key data w)) as [b|err]; [|discriminate].
  unfold WriteFile. destruct (decide (fst (getPath c key) ∈ dirs w)) as [Hd|Hd].
  - intros [= <-]. exists b. repeat split. exact Hd.
  - discriminate.
Qed.






(** An entry written on October 30 with the default TTL, read 25 hours
    later: not found, and the file is gone. *)
Example expired_entry_is_deleted :
  Get EntryJson.codec switched_on "k"
      (elapse (25 * Hour) (set_files {[ ("cache", "k.json") := written ]} stocked))
  = (("", false), elapse (25 * Hour) stocked).
Proof. vm_compute. reflexivity. Qed.

(** A cache made by [New] with no option: the directory is created, and
    [Set] writes the entry. *)
Example New_then_Set :
  New "cache" [] ClientSpec.quiet
  = (Ok (mkCache "cache" DefaultTTL true), set_dirs {[ "cache" ]} ClientSpec.quiet)
  /\ Set_ EntryJson.codec (mkCache "cache" DefaultTTL true) "k" spaced
        (set_now (739918 * 86400 * Second) (set_dirs {[ "cache" ]} ClientSpec.quiet))
     = (None, set_files {[ ("cache", "k.json") := written ]} stocked)
  /\ Set_ EntryJson.codec (mkCache "cache" DefaultTTL true) "k" "garbage" stocked
     = (Some (Wrapf "failed to marshal cache entry"
                (LibraryError "json: error calling MarshalJSON for type json.RawMessage")),
        stocked).
Proof. vm_compute. repeat split; reflexivity. Qed.

End CacheFacts.

Module CachedFacts.
Import CachedClient.
Import CachedSpec.

(** A hit leaves the world as it was: the entry file is read, decoded
    and found fresh. *)
Lemma Get_hit json c key w data w1 :
  Cache.Get json c key w = ((data, true), w1) ->
  w1 = w
  /\ exists bytes entry,
       files w !! Cache.getPath c key = Some bytes
       /\ Cache.Unmarshal json bytes = Ok entry
       /\ Cache.Data entry = data
       /\ Time_After (time_Now w) (Cache.ExpiresAt entry) = false.
Proof.
  unfold Cache.Get, Cache.ReadFile. destruct (negb _); [discriminate|].
  destruct (files w !! Cache.getPath c key) as [bytes|] eqn:Hf; [|discriminate].
  destruct (Cache.Unmarshal json bytes) as [entry|e] eqn:Hu; [|discriminate].
  destruct (Time_After _ _) eqn:Ha; [discriminate|].
  intros [= <- <-]. split; [reflexivity|]. exists bytes, entry. auto.
Qed.

Lemma poisoned_hit :
  Cache.Get EntryJson.codec CacheSpec.switched_on request_key poisoned
  = ((oops, true), poisoned).
Proof. vm_compute. reflexivity. Qed.

(** C8, as stated, fails: [Get] deletes an entry only when the envelope
    does not decode or has expired; an entry whose data are not a
    response is a hit, and its file is still there. *)
Lemma corrupt_hit_is_not_purged :
  ~ corrupt_hit_purged EntryJson.codec ApiSpec.rejecting_codec.
Proof.
  intros H.
  specialize (H CacheSpec.switched_on request_key poisoned oops poisoned
                (LibraryError "invalid character") poisoned_hit eq_refl).
  vm_compute in H. discriminate.
Qed.

(** C8 (as amended).  When [CachedClient.GetPrayerTimes] gets a cache
    hit whose bytes do not decode as a [PrayerTimesResponse], it treats
    the hit as a miss: the result is that of the remote fetch, stored
    under the same key when the fetch succeeds.  [Get] has left the
    files as they were: the entry is still in the cache when the fetch
    starts. *)
Theorem corrupt_hit_falls_through :
  forall net timer_first codec Encode json fuel cc ch ctx params w key p1 data w1 err,
    consulted cc = Some ch ->
    times_key params w = (key, p1) ->
    Cache.Get json ch key w = ((data, true), w1) ->
    Types.UnmarshalPrayerTimes codec data = Err err ->
    w1 = w
    /\ files w1 !! Cache.getPath ch key <> None
    /\ GetPrayerTimes net timer_first codec Encode json fuel cc ctx params w
       = match Client.GetPrayerTimes net timer_first codec Encode fuel (client cc) ctx p1 w with
         | None => None
         | Some (Err e, p2, w2) => Some (Err e, p2, w2)
         | Some (Ok r, p2, w2) =>
             Some (Ok r, p2, store json (Types.MarshalPrayerTimes codec) ch key r w2)
         end.
Proof.
  intros net timer_first codec Encode json fuel cc ch ctx params w key p1 data w1 err
         Hcc Hkey Hget Hdec.
  destruct (Get_hit _ _ _ _ _ _ Hget) as (-> & bytes & entry & Hf & _).
  split; [reflexivity|]. split; [congruence|].
  unfold GetPrayerTimes. rewrite Hcc, Hkey. unfold lookup. rewrite Hget, Hdec.
  destruct (Client.GetPrayerTimes _ _ _ _ _ _ _ _ _) as [[[[r|e] p2] w2]|]; reflexivity.
Qed.

(** The poisoned entry with the network down: the fetch is attempted,
    its error is the result, and the entry is still in the cache. *)
Lemma corrupt_hit_offline :
  exists e p2 w2,
    GetPrayerTimes ClientSpec.unreachable (fun _ => true) ApiSpec.rejecting_codec
      ApiSpec.no_encoding EntryJson.codec 5 caching ClientSpec.background request poisoned
    = Some (Err e, p2, w2)
    /\ files w2 !! Cache.getPath CacheSpec.switched_on request_key = Some envelope
    /\ exists t failure, log w2 = [EvAttempt 0 t (Some failure)].
Proof.
  destruct (corrupt_hit_falls_through ClientSpec.unreachable (fun _ => true)
              ApiSpec.rejecting_codec ApiSpec.no_encoding EntryJson.codec 5 caching
              CacheSpec.switched_on ClientSpec.background request poisoned
              request_key request oops poisoned (LibraryError "invalid character")
              eq_refl eq_refl poisoned_hit eq_refl) as (_ & _ & Hrun).
  vm_compute in Hrun.
  match type of Hrun with
  | _ = Some (Err ?e, ?p2, ?w2) => exists e, p2, w2
  end.
  split; [vm_compute; reflexivity|]. split; [vm_compute; reflexivity|].
  eexists _, _. reflexivity.
Defined.

End CachedFacts.

(** * Further properties *)

Module CacheDirFacts.
Import Cache CacheDir CacheDirSpec.
Import CacheSpec.

Lemma Ext_json key : Ext (key ++ ".json") = ".json".
Proof.
  unfold Ext. rewrite StringFacts.list_ascii_of_string_app, rev_app_distr.
  reflexivity.
Qed.

Lemma Remove_present p w data :
  files w !! p = Some data -> Remove p w = (None, set_files (delete p (files w)) w).
Proof. intros H. unfold Remove. rewrite H. reflexivity. Qed.

Lemma ReadFile_Ok p w data : ReadFile p w = Ok data -> files w !! p = Some data.
Proof. unfold ReadFile. destruct (files w !! p); congruence. Qed.

Lemma ReadFile_Err p w err : ReadFile p w = Err err -> files w !! p = None.
Proof. unfold ReadFile. destruct (files w !! p); congruence. Qed.

Lemma set_files_set_files f g w : set_files f (set_files g w) = set_files f w.
Proof. reflexivity. Qed.

Lemma set_files_same w : set_files (files w) w = w.
Proof. destruct w; reflexivity. Qed.

Lemma entry_file_spec c p :
  entry_file c p = true <-> fst p = dir c /\ Ext (snd p) = ".json".
Proof.
  unfold entry_file. rewrite andb_true_iff, !String.eqb_eq. reflexivity.
Qed.

(** ** What [ReadDir] lists *)

Lemma entry_in_Some d f e :
  entry_in d f = Some e ->
  fst f = (d, Name e) /\ IsDir e = false /\ Size e = Z.of_nat (String.length (snd f)).
Proof.
  unfold entry_in. destruct f as [[d' n] data]. cbn [fst snd].
  destruct (String.eqb_spec d' d) as [->|]; [|discriminate].
  intros [= <-]. cbn. auto.
Qed.

Lemma listed_names d (fl : list (path * string)) n :
  n ∈ map Name (omap (entry_in d) fl) <-> exists data, ((d, n), data) ∈ fl.
Proof.
  change (map Name (omap (entry_in d) fl)) with (Name <$> omap (entry_in d) fl).
  rewrite list_elem_of_fmap. split.
  - intros (e & -> & He). apply list_elem_of_omap in He as (f & Hf & He).
    apply entry_in_Some in He as (Hk & _ & _).
    destruct f as [k data]. cbn in Hk. subst k. eauto.
  - intros (data & Hin).
    exists (mkDirEntry n false (Z.of_nat (String.length data))). split; [reflexivity|].
    apply list_elem_of_omap. exists ((d, n), data). split; [assumption|].
    unfold entry_in. cbn. rewrite String.eqb_refl. reflexivity.
Qed.

Lemma listed_NoDup d (fl : list (path * string)) :
  NoDup (fl.*1) -> NoDup (map Name (omap (entry_in d) fl)).
Proof.
  induction fl as [|f fl IH]; intros Hnd; [constructor|].
  rewrite fmap_cons in Hnd. apply NoDup_cons in Hnd as [Hf Hnd].
  assert (Hc : omap (entry_in d) (f :: fl)
               = match entry_in d f with
                 | Some e => e :: omap (entry_in d) fl
                 | None => omap (entry_in d) fl
                 end) by reflexivity.
  rewrite Hc. clear Hc.
  destruct (entry_in d f) as [e|] eqn:He; [|auto].
  cbn [map]. apply NoDup_cons. split; [|auto].
  intros Hin. apply listed_names in Hin as (data & Hin).
  apply entry_in_Some in He as (Hk & _ & _).
  apply Hf. rewrite Hk. apply list_elem_of_fmap. exists ((d, Name e), data). auto.
Qed.

Lemma ReadDir_spec d w es :
  ReadDir d w = Ok es ->
  d ∈ dirs w
  /\ NoDup (map Name es)
  /\ (forall n, n ∈ map Name es <-> is_Some (files w !! (d, n)))
  /\ (forall e, e ∈ es -> IsDir e = false).
Proof.
  unfold ReadDir. destruct (decide (d ∈ dirs w)) as [Hd|]; [|discriminate].
  intros [= <-]. split; [assumption|].
  pose proof (merge_sort_Permutation entry_le (omap (entry_in d) (map_to_list (files w)))) as Hp.
  split; [|split].
  - rewrite Hp. apply listed_NoDup, NoDup_fst_map_to_list.
  - intros n. rewrite Hp, listed_names. split.
    + intros (data & Hin). apply elem_of_map_to_list in Hin. eauto.
    + intros (data & Hin). exists data. apply elem_of_map_to_list. assumption.
  - intros e He. rewrite Hp in He. apply list_elem_of_omap in He as (f & _ & He).
    apply entry_in_Some in He. tauto.
Qed.

Lemma ReadDir_missing d w : flat w -> d ∉ dirs w -> forall n, files w !! (d, n) = None.
Proof.
  intros Hflat Hd n. destruct (files w !! (d, n)) as [data|] eqn:H; [|reflexivity].
  apply Hflat in H as [H _]. contradiction.
Qed.

(** ** [Clear] *)

Lemma Clear_loop_spec c : forall es w,
  NoDup (map Name es) ->
  (forall e, e ∈ es -> IsDir e = false /\ is_Some (files w !! (dir c, Name e))) ->
  exists f',
    Clear_loop c es w = (None, set_files f' w)
    /\ forall p, f' !! p
                 = if entry_file c p && bool_decide (snd p ∈ map Name es)
                   then None else files w !! p.
Proof.
  induction es as [|e es IH]; intros w Hnd Hes.
  - exists (files w). split; [cbn; rewrite set_files_same; reflexivity|].
    intros p. rewrite andb_false_r. reflexivity.
  - cbn [map] in Hnd. apply NoDup_cons in Hnd as [Hne Hnd].
    destruct (Hes e ltac:(left)) as [Hdir [data Hdata]].
    cbn [Clear_loop]. rewrite Hdir. cbn [negb andb].
    destruct (String.eqb_spec (Ext (Name e)) ".json") as [Hext|Hext].
    + rewrite (Remove_present _ _ _ Hdata).
      destruct (IH (set_files (delete (dir c, Name e) (files w)) w) Hnd) as (f' & Hrun & Hf').
      { intros e' He'. destruct (Hes e' ltac:(right; assumption)) as [Hd' Hs'].
        split; [assumption|]. cbn [files set_files].
        rewrite lookup_delete_ne; [assumption|].
        intros [= Heq]. apply Hne. rewrite Heq.
        apply list_elem_of_fmap. eauto. }
      exists f'. split; [exact Hrun|].
      intros p. rewrite Hf'. cbn [files set_files map].
      destruct (decide (p = (dir c, Name e))) as [->|Hp].
      * rewrite lookup_delete_eq. cbn [snd].
        replace (entry_file c (dir c, Name e)) with true
          by (symmetry; apply entry_file_spec; auto).
        rewrite (bool_decide_eq_true_2 (Name e ∈ Name e :: map Name es)) by left.
        destruct (_ && _); reflexivity.
      * rewrite lookup_delete_ne by congruence.
        destruct (entry_file c p) eqn:Hef; [|reflexivity]. cbn [andb].
        apply entry_file_spec in Hef as [Hfst _].
        assert (snd p <> Name e) by (intros Heq; apply Hp; destruct p; cbn in *; congruence).
        rewrite (bool_decide_ext (snd p ∈ Name e :: map Name es) (snd p ∈ map Name es));
          [reflexivity|].
        rewrite elem_of_cons. tauto.
    + destruct (IH w Hnd) as (f' & Hrun & Hf').
      { intros e' He'. apply Hes. right. assumption. }
      exists f'. split; [assumption|].
      intros p. rewrite Hf'. cbn [map].
      destruct (entry_file c p) eqn:Hef; [|reflexivity]. cbn [andb].
      apply entry_file_spec in Hef as [_ Hx].
      assert (snd p <> Name e) by congruence.
      rewrite (bool_decide_ext (snd p ∈ Name e :: map Name es) (snd p ∈ map Name es));
        [reflexivity|].
      rewrite elem_of_cons. tauto.
Qed.

(** What [Clear] leaves, in every world. *)
Lemma Clear_files c w :
  flat w ->
  exists f',
    Clear c w = (None, set_files f' w)
    /\ forall p, f' !! p = if entry_file c p then None else files w !! p.
Proof.
  intros Hflat. unfold Clear. destruct (ReadDir (dir c) w) as [es|err] eqn:Hrd.
  - apply ReadDir_spec in Hrd as (Hd & Hnd & Hnames & Hfiles).
    destruct (Clear_loop_spec c es w Hnd) as (f' & Hrun & Hf').
    { intros e He. split; [auto|]. apply Hnames, list_elem_of_fmap. eauto. }
    exists f'. split; [assumption|].
    intros p. rewrite Hf'. destruct (entry_file c p) eqn:Hef; [|reflexivity].
    cbn [andb]. destruct (bool_decide_reflect (snd p ∈ map Name es)) as [|Hno];
      [reflexivity|].
    apply entry_file_spec in Hef as [Hfst _].
    destruct (files w !! p) as [data|] eqn:Hp; [|reflexivity].
    exfalso. apply Hno, Hnames. destruct p as [d n]. cbn in *. subst d. eauto.
  - exists (files w). split; [rewrite set_files_same; reflexivity|].
    intros p. destruct (entry_file c p) eqn:Hef; [|reflexivity].
    apply entry_file_spec in Hef as [Hfst _].
    unfold ReadDir in Hrd. destruct (decide (dir c ∈ dirs w)) as [|Hd]; [discriminate|].
    destruct p as [d n]. cbn in Hfst. subst d.
    apply ReadDir_missing; assumption.
Qed.

Lemma Stats_loop_skips : forall es a b,
  (forall e, e ∈ es -> Ext (Name e) <> ".json") -> Stats_loop es a b = (a, b).
Proof.
  induction es as [|e es IH]; intros a b H; [reflexivity|].
  cbn [Stats_loop].
  destruct (String.eqb_spec (Ext (Name e)) ".json") as [Hx|_].
  - exfalso. exact (H e ltac:(left) Hx).
  - rewrite orb_true_r. apply IH. intros e' He'. apply H. right. assumption.
Qed.

Lemma flat_shelf : flat shelf.
Proof.
  unfold flat, shelf. cbn [files dirs].
  repeat (apply map_Forall_insert_2; [split; [set_solver|reflexivity]|]).
  apply map_Forall_empty.
Qed.



(** After [Clear] there is no file that [Get] could read. *)
Lemma Get_after_Clear json c w key :
  flat w ->
  Get json c key (snd (Clear c w)) = (("", false), snd (Clear c w))
  /\ sent (snd (Clear c w)) = sent w.
Proof.
  intros Hflat. destruct (Clear_files c w Hflat) as (f' & Hrun & Hf').
  rewrite Hrun. cbn [snd]. split; [|reflexivity].
  unfold Get. destruct (enabled c); [|reflexivity]. cbn [negb].
  unfold ReadFile. cbn [files set_files]. rewrite Hf'.
  replace (entry_file c (getPath c key)) with true; [reflexivity|].
  symmetry. apply entry_file_spec. split; [reflexivity|]. apply Ext_json.
Qed.



(** ** [CleanExpired] *)

Lemma stale_set_files json f w data : stale json (set_files f w) data = stale json w data.
Proof. reflexivity. Qed.

Lemma swept_cons_other json c e names w p :
  (entry_file c p = true -> snd p <> e) ->
  swept json c (e :: names) w p = swept json c names w p.
Proof.
  intros H. unfold swept. destruct (files w !! p) as [data|]; [|reflexivity].
  destruct (entry_file c p) eqn:Hef; [|reflexivity]. cbn [andb].
  rewrite (bool_decide_ext (snd p ∈ e :: names) (snd p ∈ names)); [reflexivity|].
  rewrite elem_of_cons. specialize (H eq_refl). tauto.
Qed.

Lemma CleanExpired_loop_spec json c : forall es removed w,
  NoDup (map Name es) ->
  (forall e, e ∈ es -> IsDir e = false) ->
  exists f' n,
    CleanExpired_loop json c es removed w = (n, set_files f' w)
    /\ forall p, f' !! p = swept json c (map Name es) w p.
Proof.
  induction es as [|e es IH]; intros removed w Hnd Hes.
  - exists (files w), removed. split; [cbn; rewrite set_files_same; reflexivity|].
    intros p. unfold swept. destruct (files w !! p); [|reflexivity].
    rewrite andb_false_r. reflexivity.
  - cbn [map] in Hnd. apply NoDup_cons in Hnd as [Hne Hnd].
    pose proof (Hes e ltac:(left)) as Hdir.
    assert (Hrest : forall e', e' ∈ es -> IsDir e' = false)
      by (intros e' He'; apply Hes; right; assumption).
    (* an entry the loop passes over *)
    assert (Hskip : forall r,
               (forall data, files w !! (dir c, Name e) = Some data ->
                             Ext (Name e) = ".json" -> stale json w data = false) ->
               exists f' n,
                 CleanExpired_loop json c es r w = (n, set_files f' w)
                 /\ forall p, f' !! p = swept json c (map Name (e :: es)) w p).
    { intros r Hfresh. destruct (IH r w Hnd Hrest) as (f' & n & Hrun & Hf').
      exists f', n. split; [assumption|]. intros p. rewrite Hf'. cbn [map].
      unfold swept. destruct (files w !! p) as [data|] eqn:Hp; [|reflexivity].
      destruct (entry_file c p) eqn:Hef; [|reflexivity]. cbn [andb].
      apply entry_file_spec in Hef as [Hfst Hx].
      destruct (decide (snd p = Name e)) as [Heq|Hneq].
      - assert (p = (dir c, Name e)) by (destruct p; cbn in *; congruence). subst p.
        rewrite (Hfresh data Hp Hx), !andb_false_r. reflexivity.
      - rewrite (bool_decide_ext (snd p ∈ Name e :: map Name es) (snd p ∈ map Name es));
          [reflexivity|].
        rewrite elem_of_cons. tauto. }
    (* an entry the loop removes *)
    assert (Hdrop : forall r data,
               files w !! (dir c, Name e) = Some data ->
               Ext (Name e) = ".json" -> stale json w data = true ->
               exists f' n,
                 CleanExpired_loop json c es r (snd (Remove (dir c, Name e) w))
                 = (n, set_files f' w)
                 /\ forall p, f' !! p = swept json c (map Name (e :: es)) w p).
    { intros r data Hdata Hx Hstale. rewrite (Remove_present _ _ _ Hdata). cbn [snd].
      destruct (IH r (set_files (delete (dir c, Name e) (files w)) w) Hnd Hrest)
        as (f' & n & Hrun & Hf').
      exists f', n. split; [exact Hrun|]. intros p. rewrite Hf'. cbn [map].
      destruct (decide (p = (dir c, Name e))) as [->|Hp].
      - unfold swept. cbn [files set_files snd]. rewrite lookup_delete_eq.
        unfold path in *. rewrite Hdata.
        replace (entry_file c (dir c, Name e)) with true
          by (symmetry; apply entry_file_spec; auto).
        rewrite (bool_decide_eq_true_2 (Name e ∈ Name e :: map Name es)) by left.
        rewrite Hstale. reflexivity.
      - rewrite swept_cons_other.
        + unfold swept. cbn [files set_files]. rewrite lookup_delete_ne by congruence.
          reflexivity.
        + intros Hef Heq. apply entry_file_spec in Hef as [Hfst _].
          apply Hp. destruct p; cbn in *; congruence. }
    cbn [CleanExpired_loop]. cbv zeta. rewrite Hdir. cbn [orb].
    destruct (String.eqb_spec (Ext (Name e)) ".json") as [Hx|Hx]; cbn [negb].
    + destruct (ReadFile (dir c, Name e) w) as [data|err] eqn:Hrf.
      * apply ReadFile_Ok in Hrf.
        destruct (Unmarshal json data) as [entry|err] eqn:Hu.
        -- destruct (Time_After (time_Now w) (ExpiresAt entry)) eqn:Hexp.
           ++ apply (Hdrop _ data Hrf Hx). unfold stale. rewrite Hu. exact Hexp.
           ++ apply Hskip. intros data' Hd' _.
              pose proof (eq_trans (eq_sym Hrf) Hd') as [= <-].
              unfold stale. rewrite Hu. exact Hexp.
        -- apply (Hdrop _ data Hrf Hx). unfold stale. rewrite Hu. reflexivity.
      * apply ReadFile_Err in Hrf. apply Hskip. intros data' Hd'.
        pose proof (eq_trans (eq_sym Hrf) Hd') as [=].
    + apply Hskip. intros data' _ Hx'. contradiction.
Qed.

(** What [CleanExpired] leaves, for an enabled cache. *)
Lemma CleanExpired_files json c w :
  flat w -> enabled c = true ->
  exists f' n,
    CleanExpired json c w = ((n, None), set_files f' w)
    /\ forall p, f' !! p
                 = match files w !! p with
                   | Some data => if entry_file c p && stale json w data
                                  then None else Some data
                   | None => None
                   end.
Proof.
  intros Hflat Hen. unfold CleanExpired. rewrite Hen. cbn [negb].
  destruct (ReadDir (dir c) w) as [es|err] eqn:Hrd.
  - apply ReadDir_spec in Hrd as (Hd & Hnd & Hnames & Hfiles).
    destruct (CleanExpired_loop_spec json c es 0 w Hnd Hfiles) as (f' & n & Hrun & Hf').
    exists f', n. rewrite Hrun. split; [reflexivity|].
    intros p. rewrite Hf'. unfold swept.
    destruct (files w !! p) as [data|] eqn:Hp; [|reflexivity].
    destruct (entry_file c p) eqn:Hef; [|reflexivity]. cbn [andb].
    rewrite bool_decide_eq_true_2; [reflexivity|].
    apply entry_file_spec in Hef as [Hfst _]. apply Hnames.
    destruct p as [d n']. cbn in *. subst d. eauto.
  - exists (files w), 0. rewrite set_files_same. split; [reflexivity|].
    intros p. destruct (files w !! p) as [data|] eqn:Hp; [|reflexivity].
    destruct (entry_file c p) eqn:Hef; [|reflexivity].
    apply entry_file_spec in Hef as [Hfst _].
    unfold ReadDir in Hrd. destruct (decide (dir c ∈ dirs w)) as [|Hd]; [discriminate|].
    destruct p as [d n']. cbn in Hfst. subst d.
    rewrite (ReadDir_missing _ _ Hflat Hd) in Hp. discriminate.
Qed.

Lemma CleanExpired_loop_fresh json c : forall es removed w,
  (forall e data, e ∈ es -> Ext (Name e) = ".json" ->
                  files w !! (dir c, Name e) = Some data -> stale json w data = false) ->
  CleanExpired_loop json c es removed w = (removed, w).
Proof.
  induction es as [|e es IH]; intros removed w H; [reflexivity|].
  assert (Hrest : CleanExpired_loop json c es removed w = (removed, w)).
  { apply IH. intros e' data He'. apply H. right. assumption. }
  cbn [CleanExpired_loop]. cbv zeta.
  destruct (IsDir e || negb (String.eqb (Ext (Name e)) ".json")) eqn:Hc; [assumption|].
  apply orb_false_iff in Hc as [_ Hx]. apply negb_false_iff, String.eqb_eq in Hx.
  destruct (ReadFile (dir c, Name e) w) as [data|err] eqn:Hrf; [|assumption].
  apply ReadFile_Ok in Hrf.
  pose proof (H e data ltac:(left) Hx Hrf) as Hfresh. unfold stale in Hfresh.
  destruct (Unmarshal json data) as [entry|]; [|discriminate].
  rewrite Hfresh. assumption.
Qed.

(** X3.  [CleanExpired] does not change what [Get] returns: under every
    key, [Get] after [CleanExpired] gives the data and the found flag it
    would have given before. *)
Theorem CleanExpired_preserves_Get :
  forall json c w key,
    flat w ->
    fst (Get json c key (snd (CleanExpired json c w))) = fst (Get json c key w).
Proof.
  intros json c w key Hflat.
  destruct (enabled c) eqn:Hen.
  2:{ unfold CleanExpired, Get. rewrite Hen. reflexivity. }
  destruct (CleanExpired_files json c w Hflat Hen) as (f' & n & Hrun & Hf').
  rewrite Hrun. cbn [snd]. unfold Get. rewrite Hen. cbn [negb].
  unfold ReadFile. cbn [files set_files]. rewrite Hf'.
  replace (entry_file c (getPath c key)) with true
    by (symmetry; apply entry_file_spec; split; [reflexivity|apply Ext_json]).
  cbn [andb]. destruct (files w !! getPath c key) as [data|]; [|reflexivity].
  unfold stale. destruct (Unmarshal json data) as [entry|err] eqn:Hu.
  - change (time_Now (set_files f' w)) with (time_Now w).
    destruct (Time_After (time_Now w) (ExpiresAt entry)) eqn:Hexp.
    + reflexivity.
    + rewrite Hu. change (time_Now (set_files f' w)) with (time_Now w).
      rewrite Hexp. reflexivity.
  - reflexivity.
Qed.

Lemma CleanExpired_preserves_Get_shelf :
  fst (Get EntryJson.codec switched_on "k"
         (snd (CleanExpired EntryJson.codec switched_on shelf)))
  = fst (Get EntryJson.codec switched_on "k" shelf).
Proof. apply CleanExpired_preserves_Get. exact flat_shelf. Defined.



(** The directory of the scenario, swept and cleared. *)
Example sweep_and_clear :
  CleanExpired EntryJson.codec switched_on shelf
  = ((2, None),
     set_files {[ ("cache", "k.json") := fresh_entry; ("cache", "notes.txt") := "keep" ]}
               shelf)
  /\ Stats switched_on shelf = ((3, 205), None)
  /\ Clear switched_on shelf
     = (None, set_files {[ ("cache", "notes.txt") := "keep" ]} shelf).
Proof. vm_compute. repeat split; reflexivity. Qed.


End CacheDirFacts.

Module RetryFacts.
Import Client ClientSpec RetrySpec.

Lemma doRequest_failed net c method url w :
  failed (net (sent w) method url) = true ->
  exists e w', doRequest net c method url w = (Err e, w')
               /\ sent w' = S (sent w) /\ log w' = log w
               /\ files w' = files w /\ dirs w' = dirs w.
Proof.
  unfold failed, doRequest. intros H.
  destruct (outcome (net (sent w) method url)) as [e|e|s e|s b];
    try (eexists _, _; repeat split; reflexivity).
  rewrite H. eexists _, _. repeat split; reflexivity.
Qed.

Lemma doRequest_answered net c method url w status body :
  outcome (net (sent w) method url) = Responded status body ->
  200 <= status < 300 ->
  exists w', doRequest net c method url w = (Ok body, w')
             /\ sent w' = S (sent w) /\ log w' = log w
             /\ files w' = files w /\ dirs w' = dirs w.
Proof.
  unfold doRequest. intros -> Hs.
  replace ((status <? 200) || (status >=? 300)) with false.
  - eexists. repeat split; reflexivity.
  - symmetry. apply orb_false_iff. split; [apply Z.ltb_ge; lia|].
    rewrite Z.geb_leb. apply Z.leb_gt. lia.
Qed.

Lemma doRequest_frame net c method url w :
  let w' := snd (doRequest net c method url w) in
  sent w' = S (sent w) /\ files w' = files w /\ dirs w' = dirs w.
Proof.
  unfold doRequest. destruct (outcome _); try (repeat split; reflexivity).
  destruct (_ || _); repeat split; reflexivity.
Qed.

Lemma doRequest_Ok net c method url w body w' :
  doRequest net c method url w = (Ok body, w') ->
  exists status,
    outcome (net (sent w) method url) = Responded status body /\ 200 <= status < 300.
Proof.
  unfold doRequest. destruct (outcome _) as [e|e|s e|s b]; try discriminate.
  destruct ((s <? 200) || (s >=? 300)) eqn:Hs; [discriminate|].
  intros [= <- _]. exists s. split; [reflexivity|].
  apply orb_false_iff in Hs as [H1 H2]. apply Z.ltb_ge in H1.
  rewrite Z.geb_leb in H2. apply Z.leb_gt in H2. lia.
Qed.

Lemma await_backoff_frame timer_first ctx a w :
  match await_backoff timer_first ctx a w with
  | inl (_, w1) | inr w1 => sent w1 = sent w /\ files w1 = files w /\ dirs w1 = dirs w
  end.
Proof.
  unfold await_backoff. destruct (doneAt ctx) as [t|]; [|repeat split; reflexivity].
  destruct (_ <? _); [repeat split; reflexivity|].
  destruct (_ <? _); [repeat split; reflexivity|].
  destruct (timer_first a); repeat split; reflexivity.
Qed.

Section FirstAnswer.

Variable net : Network.
Variable timer_first : Z -> bool.
Variable c : Client.
Variable ctx : Context.
Variables method url : string.

Hypothesis Hnever : never_done ctx.
Hypothesis Hmax : maxRetries c < two63 - 1.

(** The loop from the iteration [a] on, when the next [n] requests fail
    and the one after them is answered. *)
Lemma retry_from_answers n :
  forall a lastErr w fuel status body,
    0 <= a -> a + Z.of_nat n <= maxRetries c -> (n < fuel)%nat ->
    (forall j, (j < n)%nat -> failed (net (sent w + j)%nat method url) = true) ->
    outcome (net (sent w + n)%nat method url) = Responded status body ->
    200 <= status < 300 ->
    exists w',
      retry_from net timer_first fuel c ctx method url a lastErr w = Some (Ok body, w')
      /\ sent w' = (sent w + S n)%nat
      /\ steps (log w') = (steps (log w) ++ rounds a (S n))%list
      /\ files w' = files w /\ dirs w' = dirs w.
Proof.
  induction n as [|n IH]; intros a lastErr w fuel status body Ha Hn Hfuel Hfail Hok Hs;
    (destruct fuel as [|fuel]; [lia|]); cbn [retry_from];
    (replace (a <=? maxRetries c) with true by (symmetry; apply Z.leb_le; lia));
    set (w1 := if a >? 0
               then record (EvBackoff a (backoff a)) (set_now (now w + Z.max (backoff a) 0) w)
               else w);
    assert (Hsel : (if a >? 0 then await_backoff timer_first ctx a w else inr w) = inr w1)
      by (unfold w1; destruct (a >? 0);
          [apply (ClientFacts.await_never timer_first ctx Hnever) | reflexivity]);
    rewrite Hsel;
    assert (Hsent1 : sent w1 = sent w) by (unfold w1; destruct (a >? 0); reflexivity);
    assert (Hfiles1 : files w1 = files w /\ dirs w1 = dirs w)
      by (unfold w1; destruct (a >? 0); split; reflexivity);
    assert (Hsteps1 : steps (log w1)
                      = (steps (log w) ++ (if a >? 0 then [Sleep (backoff a)] else []))%list)
      by (unfold w1; destruct (a >? 0); cbn [log record set_now];
          [rewrite ClientFacts.steps_app; reflexivity | rewrite app_nil_r; reflexivity]).
  - rewrite Nat.add_0_r in Hok. rewrite <- Hsent1 in Hok.
    destruct (doRequest_answered net c method url w1 status body Hok Hs)
      as (w2 & -> & Hsent2 & Hlog2 & Hfiles2 & Hdirs2).
    eexists. split; [reflexivity|]. cbn [sent log files dirs record].
    split; [lia|]. split; [|split; [rewrite Hfiles2|rewrite Hdirs2]; tauto].
    rewrite ClientFacts.steps_app, Hlog2, Hsteps1. unfold rounds.
    rewrite ClientFacts.zrange_S. cbn [flat_map zrange seq map].
    destruct (a >? 0); cbn; rewrite ?app_nil_r, <- ?app_assoc; reflexivity.
  - pose proof (Hfail O ltac:(lia)) as Hf0. rewrite Nat.add_0_r, <- Hsent1 in Hf0.
    destruct (doRequest_failed net c method url w1 Hf0)
      as (e & w2 & -> & Hsent2 & Hlog2 & Hfiles2 & Hdirs2).
    cbv zeta. rewrite (ClientFacts.ctx_never ctx Hnever).
    set (w3 := record (EvAttempt a (now w2) (Some e)) w2).
    unfold int_add. rewrite ClientFacts.wrap64_id by (unfold int64_range, two63 in *; lia).
    destruct (IH (a + 1) (Some e) w3 fuel status body) as (w' & Hrun & Hsent & Hsteps & Hf & Hd).
    + lia.
    + lia.
    + lia.
    + intros j Hj. replace (sent w3 + j)%nat with (sent w + S j)%nat
        by (unfold w3; cbn [sent record]; lia).
      apply Hfail. lia.
    + replace (sent w3 + n)%nat with (sent w + S n)%nat
        by (unfold w3; cbn [sent record]; lia).
      exact Hok.
    + exact Hs.
    + exists w'. split; [exact Hrun|].
      split; [rewrite Hsent; unfold w3; cbn [sent record]; lia|].
      split; [|unfold w3 in Hf, Hd; cbn [files dirs record] in Hf, Hd;
               rewrite Hf, Hd, Hfiles2, Hdirs2; tauto].
      rewrite Hsteps. unfold w3. cbn [log record].
      rewrite ClientFacts.steps_app, Hlog2, Hsteps1. unfold rounds.
      rewrite (ClientFacts.zrange_S a). cbn [flat_map].
      destruct (a >? 0); cbn; rewrite <- ?app_assoc; reflexivity.
Qed.

End FirstAnswer.

(** X6.  Under a context that is never done, if the first [n] requests
    fail (no response, or a status outside 200-299) and the next one is
    answered with a 2xx status, with [n] at most [maxRetries]:
    [doRequestWithRetry] returns the body of that response after exactly
    [n + 1] requests, having waited the backoff before each retry, and
    touches no file. *)
Theorem retry_returns_first_answer :
  forall net timer_first c ctx method url w n status body,
    never_done ctx ->
    maxRetries c < two63 - 1 ->
    Z.of_nat n <= maxRetries c ->
    (forall j, (j < n)%nat -> failed (net (sent w + j)%nat method url) = true) ->
    outcome (net (sent w + n)%nat method url) = Responded status body ->
    200 <= status < 300 ->
    exists w',
      (forall fuel, (n < fuel)%nat ->
         doRequestWithRetry net timer_first fuel c ctx method url w = Some (Ok body, w'))
      /\ sent w' = (sent w + S n)%nat
      /\ steps (log w') = (steps (log w) ++ rounds 0 (S n))%list
      /\ files w' = files w /\ dirs w' = dirs w.
Proof.
  intros net timer_first c ctx method url w n status body Hnever Hmax Hn Hfail Hok Hs.
  destruct (retry_from_answers net timer_first c ctx method url Hnever Hmax n
              0 None w (S n) status body) as (w' & Hrun & Hrest); try assumption; try lia.
  exists w'. split; [|exact Hrest].
  intros fuel Hfuel. unfold doRequestWithRetry.
  exact (ClientFacts.retry_from_mono _ _ _ _ _ _ _ _ _ _ _ Hrun fuel ltac:(lia)).
Qed.

Lemma retry_returns_first_answer_recovering :
  exists w',
    (forall fuel, (2 < fuel)%nat ->
       doRequestWithRetry recovering (fun _ => true) fuel NewClient background "GET" "u" quiet
       = Some (Ok "ok", w'))
    /\ sent w' = (sent quiet + 3)%nat
    /\ steps (log w') = (steps (log quiet) ++ rounds 0 3)%list
    /\ files w' = files quiet /\ dirs w' = dirs quiet.
Proof.
  apply (retry_returns_first_answer recovering (fun _ => true) NewClient background
           "GET" "u" quiet 2 200 "ok").
  - reflexivity.
  - vm_compute. reflexivity.
  - vm_compute. discriminate.
  - intros [|[|j]] Hj; [reflexivity | reflexivity | lia].
  - reflexivity.
  - lia.
Defined.

Section EveryRun.

Variable net : Network.
Variable timer_first : Z -> bool.
Variable c : Client.
Variable ctx : Context.
Variables method url : string.

Hypothesis Hmax : maxRetries c < two63 - 1.

(** Every run of the loop that returns, from the iteration [a] on. *)
Lemma retry_from_frame fuel :
  forall a lastErr w r w',
    0 <= a ->
    retry_from net timer_first fuel c ctx method url a lastErr w = Some (r, w') ->
    files w' = files w /\ dirs w' = dirs w
    /\ (sent w <= sent w')%nat
    /\ Z.of_nat (sent w') - Z.of_nat (sent w) <= Z.max 0 (maxRetries c + 1 - a)
    /\ forall body, r = Ok body ->
         exists n status,
           sent w' = S n /\ (sent w <= n)%nat
           /\ outcome (net n method url) = Responded status body
           /\ 200 <= status < 300.
Proof.
  induction fuel as [|fuel IH]; intros a lastErr w r w' Ha H; [discriminate|].
  cbn [retry_from] in H.
  destruct (a <=? maxRetries c) eqn:Hle.
  2:{ injection H as <- <-. repeat split; try lia. intros body [=]. }
  apply Z.leb_le in Hle.
  assert (Hbody : forall w1,
             sent w1 = sent w -> files w1 = files w -> dirs w1 = dirs w ->
             match doRequest net c method url w1 with
             | (Ok resp, w2) => Some (Ok resp, record (EvAttempt a (now w2) None) w2)
             | (Err err, w2) =>
                 let w3 := record (EvAttempt a (now w2) (Some err)) w2 in
                 match ctx_Err ctx (now w3) with
                 | Some ce => Some (Err ce, w3)
                 | None => retry_from net timer_first fuel c ctx method url
                             (int_add a 1) (Some err) w3
                 end
             end = Some (r, w') ->
             files w' = files w /\ dirs w' = dirs w
             /\ (sent w <= sent w')%nat
             /\ Z.of_nat (sent w') - Z.of_nat (sent w) <= Z.max 0 (maxRetries c + 1 - a)
             /\ forall body, r = Ok body ->
                  exists n status,
                    sent w' = S n /\ (sent w <= n)%nat
                    /\ outcome (net n method url) = Responded status body
                    /\ 200 <= status < 300).
  { clear H. intros w1 Hs1 Hf1 Hd1 H.
    pose proof (doRequest_frame net c method url w1) as (Hs2 & Hf2 & Hd2).
    destruct (doRequest net c method url w1) as [[resp|err] w2] eqn:Hreq;
      cbn [snd] in Hs2, Hf2, Hd2.
    - injection H as <- <-. cbn [files dirs sent record].
      rewrite Hf2, Hd2, Hs2, Hf1, Hd1, Hs1. repeat split; try lia.
      intros body [= <-]. apply doRequest_Ok in Hreq as (status & Hout & Hst).
      rewrite Hs1 in Hout. exists (sent w), status.
      split; [reflexivity|]. split; [lia|]. split; assumption.
    - cbv zeta in H. cbn [now record] in H.
      destruct (ctx_Err ctx (now w2)).
      + injection H as <- <-. cbn [files dirs sent record].
        rewrite Hf2, Hd2, Hs2, Hf1, Hd1, Hs1. repeat split; try lia. intros body [=].
      + unfold int_add in H.
        rewrite ClientFacts.wrap64_id in H by (unfold int64_range, two63 in *; lia).
        apply IH in H as (Hf & Hd & Hs & Hn & Hok); [|lia].
        cbn [files dirs sent record] in Hf, Hd, Hs, Hn.
        rewrite Hf, Hd, Hf2, Hd2, Hf1, Hd1. rewrite Hs2, Hs1 in Hs, Hn.
        repeat split; try lia.
        intros body Hr. destruct (Hok body Hr) as (n & status & Hsn & Hle' & Hrest).
        exists n, status. cbn [sent record] in Hle'. rewrite Hs2, Hs1 in Hle'.
        split; [assumption|]. split; [lia|assumption]. }
  destruct (a >? 0).
  - pose proof (await_backoff_frame timer_first ctx a w) as Hfr.
    destruct (await_backoff timer_first ctx a w) as [[e w1]|w1].
    + injection H as <- <-. destruct Hfr as (Hs & Hf & Hd).
      rewrite Hs, Hf, Hd. repeat split; try lia. intros body [=].
    + destruct Hfr as (Hs & Hf & Hd). apply (Hbody w1); assumption.
  - apply (Hbody w); auto.
Qed.

(** The loop returns once the fuel exceeds the iterations that are
    left. *)
Lemma retry_from_returns fuel :
  forall a lastErr w,
    0 <= a ->
    (Z.to_nat (maxRetries c + 1 - a) < fuel)%nat ->
    exists r, retry_from net timer_first fuel c ctx method url a lastErr w = Some r.
Proof.
  induction fuel as [|fuel IH]; intros a lastErr w Ha Hfuel; [lia|].
  cbn [retry_from]. destruct (a <=? maxRetries c) eqn:Hle; [|eexists; reflexivity].
  apply Z.leb_le in Hle.
  destruct (if a >? 0 then _ else _) as [[e w1]|w1]; [eexists; reflexivity|].
  destruct (doRequest net c method url w1) as [[resp|err] w2]; [eexists; reflexivity|].
  cbv zeta. destruct (ctx_Err ctx _); [eexists; reflexivity|].
  unfold int_add. rewrite ClientFacts.wrap64_id by (unfold int64_range, two63 in *; lia).
  apply IH; lia.
Qed.

End EveryRun.

(** X7.  Whatever the network and the context do, a call of
    [doRequestWithRetry] returns (the loop ends within [maxRetries + 1]
    iterations), and it has then sent at most [maxRetries + 1] requests
    (none if [maxRetries] is negative) and has touched no file and no
    directory. *)
Theorem retry_sends_at_most :
  forall net timer_first fuel c ctx method url w,
    maxRetries c < two63 - 1 ->
    (Z.to_nat (maxRetries c + 1) < fuel)%nat ->
    exists r w',
      doRequestWithRetry net timer_first fuel c ctx method url w = Some (r, w')
      /\ (sent w <= sent w')%nat
      /\ Z.of_nat (sent w') - Z.of_nat (sent w) <= Z.max 0 (maxRetries c + 1)
      /\ files w' = files w /\ dirs w' = dirs w.
Proof.
  intros net timer_first fuel c ctx method url w Hmax Hfuel.
  destruct (retry_from_returns net timer_first c ctx method url Hmax fuel 0 None w
              ltac:(lia) ltac:(rewrite Z.sub_0_r; exact Hfuel)) as [[r w'] H].
  exists r, w'. split; [exact H|].
  destruct (retry_from_frame net timer_first c ctx method url Hmax fuel 0 None w r w'
              ltac:(lia) H) as (Hf & Hd & Hs & Hn & _).
  rewrite Z.sub_0_r in Hn. auto.
Qed.

Lemma retry_sends_at_most_recovering :
  exists r w',
    doRequestWithRetry recovering (fun _ => true) 5 NewClient background "GET" "u" quiet
    = Some (r, w')
    /\ (sent quiet <= sent w')%nat
    /\ Z.of_nat (sent w') - Z.of_nat (sent quiet) <= Z.max 0 (maxRetries NewClient + 1)
    /\ files w' = files quiet /\ dirs w' = dirs quiet.
Proof.
  apply (retry_sends_at_most recovering (fun _ => true) 5 NewClient background "GET" "u"
           quiet).
  - vm_compute. reflexivity.
  - vm_compute. lia.
Defined.

(** X8.  A result without error is the body of a response with a status
    from 200 to 299, and that response answered the last request the call
    sent. *)
Theorem retry_success_is_2xx :
  forall net timer_first fuel c ctx method url w body w',
    maxRetries c < two63 - 1 ->
    doRequestWithRetry net timer_first fuel c ctx method url w = Some (Ok body, w') ->
    exists n status,
      sent w' = S n /\ (sent w <= n)%nat
      /\ outcome (net n method url) = Responded status body
      /\ 200 <= status < 300.
Proof.
  intros net timer_first fuel c ctx method url w body w' Hmax H.
  destruct (retry_from_frame net timer_first c ctx method url Hmax fuel 0 None w _ w'
              ltac:(lia) H) as (_ & _ & _ & _ & Hok).
  exact (Hok body eq_refl).
Qed.

Lemma retry_success_is_2xx_recovering :
  exists n status,
    sent recovered = S n /\ (sent quiet <= n)%nat
    /\ outcome (recovering n "GET" "u") = Responded status "ok"
    /\ 200 <= status < 300.
Proof.
  apply (retry_success_is_2xx recovering (fun _ => true) 3 NewClient background "GET" "u"
           quiet "ok" recovered).
  - vm_compute. reflexivity.
  - vm_compute. reflexivity.
Defined.

(** X9.  With a negative [maxRetries] the loop body never runs: no
    request is sent, and the call fails with an error that wraps no
    cause. *)
Theorem negative_retries_send_nothing :
  forall net timer_first fuel c ctx method url w,
    maxRetries c < 0 ->
    doRequestWithRetry net timer_first (S fuel) c ctx method url w
    = Some (Err (WrapfNil ("request failed after "
                             ++ itoa (int_add (maxRetries c) 1) ++ " attempts")), w).
Proof.
  intros net timer_first fuel c ctx method url w H.
  unfold doRequestWithRetry. cbn [retry_from].
  replace (0 <=? maxRetries c) with false by (symmetry; apply Z.leb_gt; lia).
  reflexivity.
Qed.

Lemma negative_retries_send_nothing_minus_one :
  doRequestWithRetry recovering (fun _ => true) 1 (WithMaxRetries (-1) NewClient)
    background "GET" "u" quiet
  = Some (Err (WrapfNil "request failed after 0 attempts"), quiet).
Proof.
  apply (negative_retries_send_nothing recovering (fun _ => true) 0
           (WithMaxRetries (-1) NewClient) background "GET" "u" quiet).
  vm_compute. reflexivity.
Defined.

End RetryFacts.

Module UrlFacts.
Import Params GoUrl ICS UrlSpec.

Lemma all_bytes_app p s t : all_bytes p (s ++ t) = all_bytes p s && all_bytes p t.
Proof.
  unfold all_bytes. rewrite StringFacts.list_ascii_of_string_app. apply forallb_app.
Qed.

Lemma count_app a s t : count a (s ++ t) = (count a s + count a t)%nat.
Proof.
  induction s as [|c s IH]; [reflexivity|].
  change (String c s ++ t) with (String c (s ++ t)). cbn [count]. rewrite IH. lia.
Qed.

Lemma escape_byte_safe c :
  all_bytes query_byte (escape_byte c) = true
  /\ count "=" (escape_byte c) = O /\ count "&" (escape_byte c) = O.
Proof. destruct c as [[] [] [] [] [] [] [] []]; vm_compute; auto. Qed.

Lemma QueryEscape_safe s :
  all_bytes query_byte (QueryEscape s) = true
  /\ count "=" (QueryEscape s) = O /\ count "&" (QueryEscape s) = O.
Proof.
  induction s as [|c s (IH1 & IH2 & IH3)]; [auto|]. cbn [QueryEscape].
  destruct (escape_byte_safe c) as (H1 & H2 & H3).
  rewrite all_bytes_app, !count_app, H1, H2, H3, IH1, IH2, IH3. auto.
Qed.

Lemma pair_safe kv :
  all_bytes query_byte (pair_text kv) = true
  /\ count "=" (pair_text kv) = 1%nat /\ count "&" (pair_text kv) = O.
Proof.
  destruct (QueryEscape_safe (fst kv)) as (K1 & K2 & K3).
  destruct (QueryEscape_safe (snd kv)) as (X1 & X2 & X3).
  unfold pair_text. rewrite !all_bytes_app, !count_app, K1, K2, K3, X1, X2, X3. auto.
Qed.

Lemma join_safe (l : Values) :
  let q := join (map pair_text l) in
  all_bytes query_byte q = true
  /\ count "=" q = List.length l /\ count "&" q = Nat.pred (List.length l).
Proof.
  induction l as [|kv l IH]; [cbn; auto|].
  destruct (pair_safe kv) as (P1 & P2 & P3). cbv zeta in *.
  destruct l as [|kv' l]; [cbn [map join List.length Nat.pred]; auto|].
  destruct IH as (I1 & I2 & I3).
  change (join (map pair_text (kv :: kv' :: l)))
    with (pair_text kv ++ "&" ++ join (map pair_text (kv' :: l))).
  rewrite !all_bytes_app, !count_app, P1, P2, P3, I1, I2, I3.
  cbn [List.length Nat.pred]. split; [reflexivity|]. split; reflexivity.
Qed.

Lemma Encode_safe (v : Values) :
  all_bytes query_byte (Encode v) = true
  /\ count "=" (Encode v) = List.length v
  /\ count "&" (Encode v) = Nat.pred (List.length v).
Proof.
  unfold Encode. pose proof (join_safe (merge_sort key_le v)) as H. cbv zeta in H.
  rewrite (Permutation_length (merge_sort_Permutation key_le v)) in H. exact H.
Qed.

Lemma Set_nonempty k x v : Set_ k x v <> [].
Proof. destruct v as [|[k' x'] v]; cbn; [discriminate|]. destruct (String.eqb k' k); discriminate. Qed.

Lemma set_if_nonempty b k x v : v <> [] -> set_if b k x v <> [].
Proof. intros H. unfold set_if. destruct b; [apply Set_nonempty|exact H]. Qed.

(** X10.  The URL [BuildICSURL] returns is the address of the calendar
    endpoint, a question mark and a query made of unreserved bytes, [+],
    [%XX] escapes and the separators only: whatever the address, the
    alarm, the events and the other texts contain, the query has one [=]
    for each parameter set and one [&] between two of them, and at least
    one parameter. *)
Theorem BuildICSURL_query_is_escaped :
  forall params,
    let q := Encode (query_of params) in
    BuildICSURL params = "https://pray.ahmedelywa.com/api/prayer-times.ics?" ++ q
    /\ all_bytes query_byte q = true
    /\ count "=" q = List.length (query_of params)
    /\ S (count "&" q) = List.length (query_of params).
Proof.
  intros params q. destruct (Encode_safe (query_of params)) as (H1 & H2 & H3).
  split; [reflexivity|]. split; [exact H1|]. split; [exact H2|].
  unfold q. rewrite H3.
  assert (Hne : query_of params <> []).
  { unfold query_of. cbv zeta. repeat apply set_if_nonempty.
    destruct (negb _); apply Set_nonempty. }
  destruct (query_of params); [contradiction|reflexivity].
Qed.

Example BuildICSURL_cairo :
  BuildICSURL cairo_calendar
  = "https://pray.ahmedelywa.com/api/prayer-times.ics?address=Cairo%2C+Egypt&color=%231e90ff&duration=25&lang=en&method=5&months=3".
Proof. vm_compute. reflexivity. Qed.

End UrlFacts.

(** ** Comparisons of [float64] *)

Module FloatFacts.

Lemma SFcompare_antisym x y :
  SFcompare y x = option_map CompOpp (SFcompare x y).
Proof.
  destruct x as [sx|sx| |sx mx ex], y as [sy|sy| |sy my ey]; cbn;
    try reflexivity; try (destruct sx; reflexivity); try (destruct sy; reflexivity);
    try (destruct sx, sy; reflexivity).
  pose proof (Pos.compare_cont_antisym mx my Eq) as Hm. cbn [CompOpp] in Hm.
  destruct sx, sy; try reflexivity;
    rewrite (Z.compare_antisym ex ey); destruct (ex ?= ey); cbn [CompOpp];
    try reflexivity; rewrite <- Hm; destruct (Pos.compare_cont Eq mx my); reflexivity.
Qed.

Lemma is_nan_spec x : PrimFloat.is_nan x = true <-> Prim2SF x = S754_nan.
Proof.
  unfold PrimFloat.is_nan. rewrite FloatAxioms.eqb_spec. unfold SFeqb.
  pose proof (FloatAxioms.Prim2SF_valid x) as Hv.
  destruct (Prim2SF x) as [s|s| |s m e]; cbn.
  - split; discriminate.
  - destruct s; split; discriminate.
  - tauto.
  - destruct s; rewrite Z.compare_refl, Pos.compare_cont_refl; cbn; split; discriminate.
Qed.

(** Two numbers compare; an order that does not hold one way holds the
    other way. *)
Lemma ltb_false_leb x y :
  PrimFloat.is_nan x = false -> PrimFloat.is_nan y = false ->
  PrimFloat.ltb x y = false -> PrimFloat.leb y x = true.
Proof.
  intros Hx Hy. rewrite FloatAxioms.ltb_spec, FloatAxioms.leb_spec.
  unfold SFltb, SFleb. rewrite (SFcompare_antisym (Prim2SF x) (Prim2SF y)).
  assert (Hnx : Prim2SF x <> S754_nan)
    by (intros H; apply is_nan_spec in H; congruence).
  assert (Hny : Prim2SF y <> S754_nan)
    by (intros H; apply is_nan_spec in H; congruence).
  destruct (SFcompare (Prim2SF x) (Prim2SF y)) as [[]|] eqn:Hc; cbn; try congruence.
  destruct (Prim2SF x), (Prim2SF y); cbn in Hc; congruence.
Qed.

Lemma leb_true_ltb x y : PrimFloat.leb y x = true -> PrimFloat.ltb x y = false.
Proof.
  rewrite FloatAxioms.ltb_spec, FloatAxioms.leb_spec. unfold SFltb, SFleb.
  rewrite (SFcompare_antisym (Prim2SF x) (Prim2SF y)).
  destruct (SFcompare (Prim2SF x) (Prim2SF y)) as [[]|]; cbn; congruence.
Qed.

Lemma leb_not_nan x y :
  PrimFloat.leb x y = true -> PrimFloat.is_nan x = false /\ PrimFloat.is_nan y = false.
Proof.
  rewrite FloatAxioms.leb_spec. unfold SFleb. intros H.
  split; apply not_true_is_false; intros Hn; apply is_nan_spec in Hn; rewrite Hn in H.
  - discriminate.
  - destruct (Prim2SF x); discriminate.
Qed.

(** Nothing is below or above what is no number, and it equals
    nothing. *)
Lemma nan_compares x y :
  PrimFloat.is_nan x = true ->
  PrimFloat.ltb x y = false /\ PrimFloat.ltb y x = false
  /\ PrimFloat.leb x y = false /\ PrimFloat.leb y x = false
  /\ PrimFloat.eqb x y = false.
Proof.
  intros H. apply is_nan_spec in H.
  rewrite !FloatAxioms.ltb_spec, !FloatAxioms.leb_spec, FloatAxioms.eqb_spec.
  unfold SFltb, SFleb, SFeqb. rewrite H. cbn.
  destruct (Prim2SF y); auto.
Qed.

(** Zero, of either sign, lies within bounds of opposite signs. *)
Lemma zero_between lo hi x :
  PrimFloat.eqb x 0 = true ->
  PrimFloat.ltb lo 0 = true -> PrimFloat.ltb 0 hi = true ->
  PrimFloat.ltb x lo = false /\ PrimFloat.ltb hi x = false
  /\ PrimFloat.leb lo x = true /\ PrimFloat.leb x hi = true.
Proof.
  rewrite !FloatAxioms.ltb_spec, !FloatAxioms.leb_spec, FloatAxioms.eqb_spec.
  unfold SFltb, SFleb, SFeqb.
  change (Prim2SF 0) with (S754_zero false).
  destruct (Prim2SF x) as [s|s| |s m e]; cbn; try discriminate;
    try (destruct s; discriminate).
  intros _. destruct (Prim2SF lo) as [sl|sl| |sl ml el], (Prim2SF hi) as [sh|sh| |sh mh eh];
    cbn; try discriminate; try (destruct sl; discriminate); try (destruct sh; discriminate);
    try (destruct sl, sh; try discriminate; auto).
Qed.

End FloatFacts.

Module ValidatorFacts.
Import Params Validator ValidatorSpec.

Lemma ValidMethodID_range id : Config.ValidMethodID id = true <-> 0 <= id <= 23.
Proof.
  unfold Config.ValidMethodID, Config.GetMethodByID, Config.CalculationMethods.
  split.
  - cbn [Config.find_method Config.ID].
    repeat (destruct (_ =? id) eqn:?H; [apply Z.eqb_eq in H; lia|clear H]).
    discriminate.
  - intros H.
    assert (Hcases : id = 0 \/ id = 1 \/ id = 2 \/ id = 3 \/ id = 4 \/ id = 5 \/ id = 6
                     \/ id = 7 \/ id = 8 \/ id = 9 \/ id = 10 \/ id = 11 \/ id = 12
                     \/ id = 13 \/ id = 14 \/ id = 15 \/ id = 16 \/ id = 17 \/ id = 18
                     \/ id = 19 \/ id = 20 \/ id = 21 \/ id = 22 \/ id = 23) by lia.
    repeat destruct Hcases as [->|Hcases]; try subst id; reflexivity.
Qed.

(** A coordinate that is checked only when it is not zero is in range
    when the check passes. *)
Lemma checked_if_nonzero lo hi x :
  PrimFloat.ltb lo 0 = true -> PrimFloat.ltb 0 hi = true ->
  nonzero x && outside lo hi x = false -> outside lo hi x = false.
Proof.
  intros Hlo Hhi H. unfold nonzero in H.
  destruct (PrimFloat.eqb x 0) eqn:Hz; [|exact H].
  destruct (FloatFacts.zero_between lo hi x Hz Hlo Hhi) as (H1 & H2 & _).
  unfold outside. rewrite H1, H2. reflexivity.
Qed.

Lemma outside_leb lo hi x :
  PrimFloat.is_nan lo = false -> PrimFloat.is_nan hi = false -> PrimFloat.is_nan x = false ->
  outside lo hi x = false <-> PrimFloat.leb lo x && PrimFloat.leb x hi = true.
Proof.
  intros Hlo Hhi Hx. unfold outside. rewrite orb_false_iff, andb_true_iff. split.
  - intros [H1 H2]. split; apply FloatFacts.ltb_false_leb; assumption.
  - intros [H1 H2]. split; apply FloatFacts.leb_true_ltb; assumption.
Qed.

(** X11.  Parameters that [ValidateParams] accepts have coordinates that
    [ValidateCoordinates] accepts and a method that [ValidateMethod]
    accepts. *)
Theorem ValidateParams_implies_parts :
  forall p,
    ValidateParams p = None ->
    ValidateCoordinates (Latitude p) (Longitude p) = None
    /\ ValidateMethod (Method p) = None.
Proof.
  intros p. unfold ValidateParams, ValidateCoordinates, ValidateMethod.
  destruct (_ && (_ && _)); [discriminate|].
  destruct (nonzero (Latitude p) && _) eqn:Hlat; [discriminate|].
  destruct (nonzero (Longitude p) && _) eqn:Hlon; [discriminate|].
  destruct ((Method p <? 0) || _); [discriminate|]. intros _.
  rewrite (checked_if_nonzero (-90) 90 (Latitude p) eq_refl eq_refl Hlat).
  rewrite (checked_if_nonzero (-180) 180 (Longitude p) eq_refl eq_refl Hlon).
  auto.
Qed.

Lemma ValidateParams_implies_parts_delta :
  ValidateCoordinates (Latitude delta) (Longitude delta) = None
  /\ ValidateMethod (Method delta) = None.
Proof. apply ValidateParams_implies_parts. reflexivity. Defined.

Lemma in_range_settings p :
  settings_in_range p ->
  (Method p <? 0) || (Method p >? 23) = false
  /\ (School p <? 0) || (School p >? 1) = false
  /\ (Adjustment p <? -30) || (Adjustment p >? 30) = false.
Proof.
  intros (Hm & Hs & Ha). repeat split; apply orb_false_iff; split;
    try (apply Z.ltb_ge; lia); rewrite Z.gtb_ltb; apply Z.ltb_ge; lia.
Qed.

(** X12.  For parameters without an address whose coordinates are
    numbers and whose method, school and adjustment are in range:
    [ValidateParams] accepts them exactly when [Location.IsValid] holds
    of the coordinates, that is when both are in range and not both are
    zero. *)
Theorem ValidateParams_agrees_with_IsValid :
  forall p,
    Address p = "" ->
    PrimFloat.is_nan (Latitude p) = false ->
    PrimFloat.is_nan (Longitude p) = false ->
    settings_in_range p ->
    ValidateParams p = None
    <-> Location.IsValid (Location.FromCoordinates (Latitude p) (Longitude p)) = true.
Proof.
  intros p Haddr Hlat Hlon Hset.
  destruct (in_range_settings p Hset) as (Hm & Hs & Ha).
  unfold ValidateParams, Location.IsValid, Location.FromCoordinates.
  cbn [Location.Latitude Location.Longitude].
  rewrite Haddr, Hm, Hs, Ha. cbn [String.eqb andb].
  pose proof (outside_leb (-90) 90 (Latitude p) eq_refl eq_refl Hlat) as Hla.
  pose proof (outside_leb (-180) 180 (Longitude p) eq_refl eq_refl Hlon) as Hlo.
  destruct (PrimFloat.eqb (Latitude p) 0) eqn:Hz1;
    destruct (PrimFloat.eqb (Longitude p) 0) eqn:Hz2; unfold nonzero;
    rewrite ?Hz1, ?Hz2; cbn [negb andb orb].
  - rewrite andb_false_r. split; discriminate.
  - destruct (FloatFacts.zero_between (-90) 90 _ Hz1 eq_refl eq_refl) as (_ & _ & L1 & L2).
    rewrite L1, L2. cbn [andb]. rewrite andb_true_r.
    destruct (outside (-180) 180 (Longitude p)) eqn:Ho.
    + split; [discriminate|]. intros H. apply Hlo in H. discriminate.
    + split; [intros _; apply Hlo; reflexivity | reflexivity].
  - destruct (FloatFacts.zero_between (-180) 180 _ Hz2 eq_refl eq_refl) as (_ & _ & L1 & L2).
    rewrite L1, L2. rewrite !andb_true_r.
    destruct (outside (-90) 90 (Latitude p)) eqn:Ho.
    + split; [discriminate|]. intros H. apply Hla in H. discriminate.
    + split; [intros _; apply Hla; reflexivity | reflexivity].
  - rewrite andb_true_r.
    rewrite <- (andb_assoc (PrimFloat.leb (-90) (Latitude p)
                            && PrimFloat.leb (Latitude p) 90)).
    rewrite andb_true_iff, <- Hla, <- Hlo.
    destruct (outside (-90) 90 (Latitude p)); [split; [discriminate|intros []; discriminate]|].
    destruct (outside (-180) 180 (Longitude p)); [split; [discriminate|intros []; discriminate]|].
    tauto.
Qed.

Lemma ValidateParams_agrees_with_IsValid_delta :
  ValidateParams delta = None
  <-> Location.IsValid (Location.FromCoordinates (Latitude delta) (Longitude delta)) = true.
Proof.
  apply ValidateParams_agrees_with_IsValid.
  - reflexivity.
  - reflexivity.
  - reflexivity.
  - unfold settings_in_range. cbn. lia.
Defined.

(** X13.  A latitude that is no number passes every check:
    [ValidateParams] accepts it, with or without an address, when the
    longitude and the settings pass, and so does [ValidateCoordinates];
    [Location.IsValid] rejects it. *)
Theorem ValidateParams_accepts_nan_latitude :
  forall p,
    PrimFloat.is_nan (Latitude p) = true ->
    outside (-180) 180 (Longitude p) = false ->
    settings_in_range p ->
    ValidateParams p = None
    /\ ValidateCoordinates (Latitude p) (Longitude p) = None
    /\ Location.IsValid (Location.FromCoordinates (Latitude p) (Longitude p)) = false.
Proof.
  intros p Hnan Hlon Hset.
  destruct (in_range_settings p Hset) as (Hm & Hs & Ha).
  destruct (FloatFacts.nan_compares (Latitude p) 0 Hnan) as (_ & _ & _ & _ & Hz).
  destruct (FloatFacts.nan_compares (Latitude p) (-90) Hnan) as (L1 & _ & _ & L2 & _).
  destruct (FloatFacts.nan_compares (Latitude p) 90 Hnan) as (_ & L3 & _ & _ & _).
  unfold ValidateParams, ValidateCoordinates, Location.IsValid, Location.FromCoordinates.
  cbn [Location.Latitude Location.Longitude]. unfold outside in *.
  rewrite Hz, L1, L2, L3, Hlon, Hm, Hs, Ha.
  cbn [andb orb]. rewrite !andb_false_r. auto.
Qed.

Lemma ValidateParams_accepts_nan_latitude_nowhere :
  ValidateParams nowhere = None
  /\ ValidateCoordinates (Latitude nowhere) (Longitude nowhere) = None
  /\ Location.IsValid (Location.FromCoordinates (Latitude nowhere) (Longitude nowhere))
     = false.
Proof.
  apply ValidateParams_accepts_nan_latitude.
  - reflexivity.
  - reflexivity.
  - unfold settings_in_range. cbn. lia.
Defined.

(** X14.  The method ids [ValidateMethod] accepts are those of the table
    of calculation methods, 0 to 23: [ValidMethodID] holds of exactly
    them, and [GetMethodName] answers [Unknown] for exactly the others. *)
Theorem ValidateMethod_agrees_with_table :
  forall id,
    (ValidateMethod id = None <-> Config.ValidMethodID id = true)
    /\ (Config.ValidMethodID id = true <-> 0 <= id <= 23)
    /\ (Config.GetMethodName id = "Unknown" <-> Config.ValidMethodID id = false).
Proof.
  intros id. pose proof (ValidMethodID_range id) as Hr. split; [|split; [exact Hr|]].
  - rewrite Hr. unfold ValidateMethod.
    destruct ((id <? 0) || (id >? 23)) eqn:H.
    + split; [discriminate|]. intros Hid. apply orb_true_iff in H as [H|H].
      * apply Z.ltb_lt in H. lia.
      * rewrite Z.gtb_ltb in H. apply Z.ltb_lt in H. lia.
    + split; [|reflexivity]. intros _. apply orb_false_iff in H as [H1 H2].
      apply Z.ltb_ge in H1. rewrite Z.gtb_ltb in H2. apply Z.ltb_ge in H2. lia.
  - destruct (Config.ValidMethodID id) eqn:Hv.
    + split; [|discriminate]. intros Hname. exfalso.
      assert (Hrange : 0 <= id <= 23) by (apply Hr; reflexivity).
      assert (Hcases : id = 0 \/ id = 1 \/ id = 2 \/ id = 3 \/ id = 4 \/ id = 5 \/ id = 6
                       \/ id = 7 \/ id = 8 \/ id = 9 \/ id = 10 \/ id = 11 \/ id = 12
                       \/ id = 13 \/ id = 14 \/ id = 15 \/ id = 16 \/ id = 17 \/ id = 18
                       \/ id = 19 \/ id = 20 \/ id = 21 \/ id = 22 \/ id = 23) by lia.
      repeat destruct Hcases as [->|Hcases]; try subst id; vm_compute in Hname;
        discriminate.
    + split; [reflexivity|]. intros _. unfold Config.GetMethodName.
      unfold Config.ValidMethodID in Hv. destruct (Config.GetMethodByID id); [discriminate|].
      reflexivity.
Qed.

Lemma Date_month_range t :
  let '(_, m, _) := GoTime.Date t in 1 <= m <= 12.
Proof.
  unfold GoTime.Date.
  set (days := (wall t + zone t * Second) / (86400 * Second)).
  pose proof (ParamsFacts.civil_month_day days) as Hmd.
  pose proof (ParamsFacts.month_day_range ((days + 306) mod 146097)
                ltac:(apply Z.mod_pos_bound; lia)) as Hr.
  destruct (GoTime.civil days) as [[y m] d]. rewrite Hmd in Hr. tauto.
Qed.

(** X15.  The defaults of [NewCalendarParams], given coordinates that
    [Location.IsValid] accepts, pass [ValidateCalendarParams] exactly
    while the local date of the clock is in a year from 2000 to 2100. *)
Theorem default_calendar_params_valid :
  forall w lat lon,
    Location.IsValid (Location.FromCoordinates lat lon) = true ->
    ValidateCalendarParams
      (CalendarParams.WithCoordinates lat lon (CalendarParams.NewCalendarParams w)) = None
    <-> 2000 <= calendar_year w <= 2100.
Proof.
  intros w lat lon Hvalid.
  unfold Location.IsValid, Location.FromCoordinates in Hvalid.
  cbn [Location.Latitude Location.Longitude] in Hvalid.
  apply andb_true_iff in Hvalid as [Hvalid Hnz].
  apply andb_true_iff in Hvalid as [Hvalid L4].
  apply andb_true_iff in Hvalid as [Hvalid L3].
  apply andb_true_iff in Hvalid as [L1 L2].
  assert (Ho1 : outside (-90) 90 lat = false).
  { unfold outside. rewrite (FloatFacts.leb_true_ltb _ _ L1), (FloatFacts.leb_true_ltb _ _ L2).
    reflexivity. }
  assert (Ho2 : outside (-180) 180 lon = false).
  { unfold outside. rewrite (FloatFacts.leb_true_ltb _ _ L3), (FloatFacts.leb_true_ltb _ _ L4).
    reflexivity. }
  assert (Hloc : PrimFloat.eqb lat 0 && PrimFloat.eqb lon 0 = false).
  { destruct (PrimFloat.eqb lat 0), (PrimFloat.eqb lon 0); try reflexivity. discriminate. }
  unfold calendar_year, CalendarParams.NewCalendarParams.
  pose proof (Date_month_range (time_Now w)) as Hm.
  destruct (GoTime.Date (time_Now w)) as [[year month] day].
  unfold ValidateCalendarParams, CalendarParams.WithCoordinates.
  cbn [cAddress cLatitude cLongitude cMethod Duration Months Year Month fst].
  rewrite Hloc, Ho1, Ho2. cbn [String.eqb andb orb Z.ltb Z.gtb Z.compare Pos.compare
                               Pos.compare_cont].
  rewrite !andb_false_r.
  replace ((month <? 1) || (month >? 12)) with false
    by (symmetry; apply orb_false_iff; split; [apply Z.ltb_ge|rewrite Z.gtb_ltb; apply Z.ltb_ge];
        lia).
  destruct ((year <? 2000) || (year >? 2100)) eqn:Hy.
  - split; [discriminate|]. intros H. apply orb_true_iff in Hy as [Hy|Hy].
    + apply Z.ltb_lt in Hy. lia.
    + rewrite Z.gtb_ltb in Hy. apply Z.ltb_lt in Hy. lia.
  - split; [|reflexivity]. intros _. apply orb_false_iff in Hy as [H1 H2].
    apply Z.ltb_ge in H1. rewrite Z.gtb_ltb in H2. apply Z.ltb_ge in H2. lia.
Qed.

Lemma default_calendar_params_valid_today :
  ValidateCalendarParams
    (CalendarParams.WithCoordinates 30.5 31.25
       (CalendarParams.NewCalendarParams CacheSpec.stocked)) = None
  <-> 2000 <= calendar_year CacheSpec.stocked <= 2100.
Proof. apply default_calendar_params_valid. reflexivity. Defined.

End ValidatorFacts.

Module CachedMoreFacts.
Import CachedClient CachedSpec CachedMoreSpec.



(** The plain client writes no file. *)
Lemma Client_GetPrayerTimes_files net timer_first codec Encode fuel c ctx params w r p' w' :
  Client.maxRetries c < two63 - 1 ->
  Client.GetPrayerTimes net timer_first codec Encode fuel c ctx params w = Some (r, p', w') ->
  files w' = files w /\ dirs w' = dirs w.
Proof.
  intros Hmax. unfold Client.GetPrayerTimes.
  destruct (Params.GetDateString params w) as [date p1].
  destruct (Client.doRequestWithRetry _ _ _ _ _ _ _ _) as [[r0 w0]|] eqn:Hrun;
    [|discriminate].
  destruct (RetryFacts.retry_from_frame net timer_first c ctx "GET" _ Hmax fuel 0 None w r0 w0
              ltac:(lia) Hrun) as (Hf & Hd & _).
  destruct r0 as [resp|err].
  - destruct (Types.UnmarshalPrayerTimes codec resp) as [result|err].
    + destruct (negb _); intros [= _ _ <-]; auto.
    + intros [= _ _ <-]; auto.
  - intros [= _ _ <-]; auto.
Qed.

Lemma Get_files json ch key w :
  forall p, p <> Cache.getPath ch key ->
            files (snd (Cache.Get json ch key w)) !! p = files w !! p.
Proof.
  intros p Hp. unfold Cache.Get. destruct (negb _); [reflexivity|].
  destruct (Cache.ReadFile _ _) as [data|]; [|reflexivity].
  assert (Hrm : files (snd (Cache.Remove (Cache.getPath ch key) w)) !! p = files w !! p).
  { unfold Cache.Remove. destruct (files w !! Cache.getPath ch key); [|reflexivity].
    cbn [snd files set_files]. apply lookup_delete_ne. congruence. }
  destruct (Cache.Unmarshal json data) as [entry|]; [|exact Hrm].
  destruct (Time_After _ _); [exact Hrm|reflexivity].
Qed.

(** X17.  A call of [CachedClient.GetPrayerTimes] that returns an error
    has written nothing: the files are those [Cache.Get] left, so every
    file but the entry of the request is as it was, and no directory was
    made. *)
Theorem failed_fetch_caches_nothing :
  forall net timer_first codec Encode json fuel cc ch ctx params w key p1 err p2 w',
    Client.maxRetries (client cc) < two63 - 1 ->
    consulted cc = Some ch ->
    times_key params w = (key, p1) ->
    GetPrayerTimes net timer_first codec Encode json fuel cc ctx params w
    = Some (Err err, p2, w') ->
    files w' = files (snd (Cache.Get json ch key w))
    /\ dirs w' = dirs w
    /\ forall p, p <> Cache.getPath ch key -> files w' !! p = files w !! p.
Proof.
  intros net timer_first codec Encode json fuel cc ch ctx params w key p1 err p2 w'
         Hmax Hcc Hkey.
  unfold GetPrayerTimes. rewrite Hcc, Hkey. unfold lookup.
  assert (Hdirs : dirs (snd (Cache.Get json ch key w)) = dirs w).
  { unfold Cache.Get. destruct (negb _); [reflexivity|].
    destruct (Cache.ReadFile _ _) as [data|]; [|reflexivity].
    assert (Hrm : dirs (snd (Cache.Remove (Cache.getPath ch key) w)) = dirs w)
      by (unfold Cache.Remove; destruct (files w !! _); reflexivity).
    destruct (Cache.Unmarshal json data); [|exact Hrm].
    destruct (Time_After _ _); [exact Hrm|reflexivity]. }
  pose proof (Get_files json ch key w) as Hframe.
  destruct (Cache.Get json ch key w) as [[data found] w1]. cbn [snd] in *.
  assert (Hfetch : match Client.GetPrayerTimes net timer_first codec Encode fuel (client cc)
                           ctx p1 w1 with
                   | None => None
                   | Some (Err e, p, w2) => Some (Err e, p, w2)
                   | Some (Ok r, p, w2) =>
                       Some (Ok r, p, store json (Types.MarshalPrayerTimes codec) ch key r w2)
                   end = Some (Err err, p2, w') ->
                   files w' = files w1 /\ dirs w' = dirs w
                   /\ forall p, p <> Cache.getPath ch key -> files w' !! p = files w !! p).
  { destruct (Client.GetPrayerTimes _ _ _ _ _ _ _ _ _) as [[[[r|e] p] w2]|] eqn:Hrun;
      try discriminate.
    intros [= _ _ <-].
    destruct (Client_GetPrayerTimes_files _ _ _ _ _ _ _ _ _ _ _ _ Hmax Hrun) as [Hf Hd].
    rewrite Hf, Hd. split; [reflexivity|]. split; [assumption|]. exact Hframe. }
  destruct found.
  - destruct (Types.UnmarshalPrayerTimes codec data); [discriminate|exact Hfetch].
  - exact Hfetch.
Qed.

Lemma failed_fetch_caches_nothing_offline :
  exists w',
    files w' = files (snd (Cache.Get EntryJson.codec CacheSpec.switched_on request_key
                             CacheSpec.stocked))
    /\ dirs w' = dirs CacheSpec.stocked
    /\ forall p, p <> Cache.getPath CacheSpec.switched_on request_key ->
                 files w' !! p = files CacheSpec.stocked !! p.
Proof.
  eexists.
  eapply (failed_fetch_caches_nothing ClientSpec.unreachable (fun _ => true)
           ApiSpec.rejecting_codec ApiSpec.no_encoding EntryJson.codec 5 caching
           CacheSpec.switched_on ClientSpec.background request CacheSpec.stocked
           request_key request).
  - vm_compute. reflexivity.
  - vm_compute. reflexivity.
  - vm_compute. reflexivity.
  - vm_compute. reflexivity.
Defined.

End CachedMoreFacts.

Module ClearCacheFacts.
Import CachedClient CachedCache CachedSpec CachedMoreSpec CacheDirSpec.

(** A response the plain client returns without error was decoded from
    a 2xx answer to a request of the call, and its code is 200. *)
Lemma Client_GetPrayerTimes_Ok net timer_first codec Encode fuel c ctx params w r p' w' :
  Client.maxRetries c < two63 - 1 ->
  Client.GetPrayerTimes net timer_first codec Encode fuel c ctx params w
  = Some (Ok r, p', w') ->
  exists n url status body,
    (sent w <= n < sent w')%nat
    /\ outcome (net n "GET" url) = Responded status body
    /\ 200 <= status < 300
    /\ Types.UnmarshalPrayerTimes codec body = Ok r
    /\ Types.Code r = 200.
Proof.
  intros Hmax. unfold Client.GetPrayerTimes.
  destruct (Params.GetDateString params w) as [date p1].
  destruct (Client.doRequestWithRetry _ _ _ _ _ _ _ _) as [[[resp|err] w0]|] eqn:Hrun;
    [|discriminate|discriminate].
  destruct (RetryFacts.retry_from_frame net timer_first c ctx "GET" _ Hmax fuel 0 None w _ w0
              ltac:(lia) Hrun) as (_ & _ & _ & _ & Hok).
  destruct (Hok resp eq_refl) as (n & status & Hn & Hle & Hout & Hst).
  destruct (Types.UnmarshalPrayerTimes codec resp) as [result|err] eqn:Hdec; [|discriminate].
  destruct (Types.Code result =? 200) eqn:Hcode; cbn [negb]; [|discriminate].
  intros [= <- _ <-]. apply Z.eqb_eq in Hcode.
  eexists n, _, status, resp. repeat split; try eassumption; lia.
Qed.

Lemma store_sent {A : Type} json (encode : A -> result string) ch key r w :
  sent (store json encode ch key r w) = sent w.
Proof.
  unfold store. destruct (encode r) as [data|]; [|reflexivity].
  unfold Cache.Set_. destruct (negb _); [reflexivity|].
  destruct (Cache.Marshal json _); [|reflexivity].
  unfold Cache.WriteFile. destruct (decide _); reflexivity.
Qed.

(** X30.  After [ClearCache] no answer comes from the cache: a response
    that [CachedClient.GetPrayerTimes] then returns without error was
    decoded from the body of a 2xx answer to a request sent during the
    call, and its code is 200; this for a client with a cache, without
    one, or bypassing it. *)
Theorem ClearCache_forces_fetch :
  forall net timer_first codec Encode json fuel cc ctx params w r p2 w2,
    flat w ->
    Client.maxRetries (client cc) < two63 - 1 ->
    GetPrayerTimes net timer_first codec Encode json fuel cc ctx params
      (snd (ClearCache cc w)) = Some (Ok r, p2, w2) ->
    exists n url status body,
      (sent w <= n < sent w2)%nat
      /\ outcome (net n "GET" url) = Responded status body
      /\ 200 <= status < 300
      /\ Types.UnmarshalPrayerTimes codec body = Ok r
      /\ Types.Code r = 200.
Proof.
  intros net timer_first codec Encode json fuel cc ctx params w r p2 w2 Hflat Hmax.
  unfold GetPrayerTimes, ClearCache, consulted.
  destruct (cache cc) as [ch|].
  - destruct (CacheDirFacts.Get_after_Clear json ch w "" Hflat) as [_ Hsent].
    destruct (bypass cc || negb (Cache.IsEnabled ch)).
    + intros H. rewrite <- Hsent.
      exact (Client_GetPrayerTimes_Ok _ _ _ _ _ _ _ _ _ _ _ _ Hmax H).
    + destruct (times_key params _) as [key p1]. unfold lookup.
      rewrite (proj1 (CacheDirFacts.Get_after_Clear json ch w key Hflat)).
      destruct (Client.GetPrayerTimes _ _ _ _ _ _ _ _ _) as [[[[r0|e] p] w3]|] eqn:Hrun;
        try discriminate.
      intros [= <- _ <-]. rewrite store_sent, <- Hsent.
      exact (Client_GetPrayerTimes_Ok _ _ _ _ _ _ _ _ _ _ _ _ Hmax Hrun).
  - cbn [snd]. intros H. exact (Client_GetPrayerTimes_Ok _ _ _ _ _ _ _ _ _ _ _ _ Hmax H).
Qed.

Lemma flat_tampered : flat tampered.
Proof.
  unfold flat, tampered. cbn [files set_files dirs CacheSpec.stocked].
  apply map_Forall_singleton. split; [set_solver|vm_compute; reflexivity].
Qed.

Lemma ClearCache_forces_fetch_tampered :
  exists n url status body,
    (sent tampered <= n < 1)%nat
    /\ outcome (serving n "GET" url) = Responded status body
    /\ 200 <= status < 300
    /\ Types.UnmarshalPrayerTimes serving_codec body = Ok answer
    /\ Types.Code answer = 200.
Proof.
  eapply (ClearCache_forces_fetch serving (fun _ => true) serving_codec ApiSpec.no_encoding
            EntryJson.codec 5 caching ClientSpec.background request tampered answer request
            (mkWorld (now tampered) (tz tampered) 1 _ (dirs tampered) _)).
  - exact flat_tampered.
  - vm_compute. reflexivity.
  - vm_compute. reflexivity.
Defined.

End ClearCacheFacts.

Module KeyShapeFacts.
Import Cache KeyShapeSpec.

Lemma append_cons a s t : String a s ++ t = String a (s ++ t).
Proof. reflexivity. Qed.

Lemma append_nil t : "" ++ t = t.
Proof. reflexivity. Qed.

Lemma substring_none s : substring 0 0 s = "".
Proof. destruct s; reflexivity. Qed.

Lemma round_length s kw : List.length (Sha256.round s kw) = List.length s.
Proof.
  unfold Sha256.round.
  destruct s as [|a [|b [|c [|d [|e [|f [|g [|h [|i s]]]]]]]]]; reflexivity.
Qed.

Lemma rounds_length l : forall s, List.length (fold_left Sha256.round l s) = List.length s.
Proof.
  induction l as [|kw l IH]; intros s; [reflexivity|].
  cbn [fold_left]. rewrite IH. apply round_length.
Qed.

Lemma compress_length h block : List.length (Sha256.compress h block) = List.length h.
Proof.
  unfold Sha256.compress. rewrite length_map, length_combine, rounds_length. lia.
Qed.

Lemma blocks_length n : forall h bs, List.length (Sha256.blocks n h bs) = List.length h.
Proof.
  induction n as [|n IH]; intros h bs; [reflexivity|].
  cbn [Sha256.blocks]. rewrite IH. apply compress_length.
Qed.

Lemma Sum256_length s : List.length (Sha256.Sum256 s) = 8%nat.
Proof. unfold Sha256.Sum256. rewrite blocks_length. reflexivity. Qed.

Lemma hex_digit_lower n : 0 <= n < 16 -> lower_hex (Sha256.hex_digit n) = true.
Proof.
  intros H.
  assert (Hall : forallb (fun k => lower_hex (Sha256.hex_digit k))
                   (ParamsSpec.upto (Z.to_nat 16) 0) = true) by (vm_compute; reflexivity).
  rewrite forallb_forall in Hall. apply Hall. apply ParamsFacts.in_upto. exact H.
Qed.

Lemma hex_word_shape x :
  exists d0 d1 d2 d3 d4 d5 d6 d7,
    Sha256.hex_word x
    = String d0 (String d1 (String d2 (String d3 (String d4 (String d5 (String d6
        (String d7 "")))))))
    /\ forallb lower_hex [d0; d1; d2; d3; d4; d5; d6; d7] = true.
Proof.
  unfold Sha256.hex_word. cbn [seq map string_of_list_ascii].
  eexists _, _, _, _, _, _, _, _. split; [reflexivity|].
  cbn [forallb]. rewrite !hex_digit_lower by (apply Z.mod_pos_bound; lia). reflexivity.
Qed.

(** X18.  Whatever the parameters, [GenerateKey] returns sixteen bytes,
    each a lowercase hexadecimal digit: the key holds no path separator
    and no dot, and the file of its entry has the extension [.json]. *)
Theorem GenerateKey_is_sixteen_hex_digits :
  forall params,
    String.length (GenerateKey params) = 16%nat
    /\ forallb lower_hex (list_ascii_of_string (GenerateKey params)) = true
    /\ CacheDirSpec.no_separator (GenerateKey params) = true
    /\ forall c, CacheDir.Ext (snd (getPath c (GenerateKey params))) = ".json".
Proof.
  intros params. unfold GenerateKey, Sha256.hexdigest.
  pose proof (Sum256_length (key_text params)) as Hlen.
  destruct (Sha256.Sum256 (key_text params)) as [|x0 [|x1 rest]]; try discriminate.
  cbn [fold_right].
  destruct (hex_word_shape x0) as (a0 & a1 & a2 & a3 & a4 & a5 & a6 & a7 & -> & Ha).
  destruct (hex_word_shape x1) as (b0 & b1 & b2 & b3 & b4 & b5 & b6 & b7 & -> & Hb).
  rewrite !append_cons, !append_nil. cbn [substring]. rewrite substring_none.
  assert (Hhex : forallb lower_hex [a0; a1; a2; a3; a4; a5; a6; a7;
                                    b0; b1; b2; b3; b4; b5; b6; b7] = true).
  { change [a0; a1; a2; a3; a4; a5; a6; a7; b0; b1; b2; b3; b4; b5; b6; b7]
      with ([a0; a1; a2; a3; a4; a5; a6; a7] ++ [b0; b1; b2; b3; b4; b5; b6; b7])%list.
    rewrite forallb_app, Ha, Hb. reflexivity. }
  split; [reflexivity|]. cbn [list_ascii_of_string]. split; [exact Hhex|].
  split; [|intros c; apply CacheDirFacts.Ext_json].
  unfold CacheDirSpec.no_separator. cbn [list_ascii_of_string].
  apply forallb_forall. intros a Hin. rewrite forallb_forall in Hhex.
  specialize (Hhex a Hin). destruct (Ascii.eqb_spec a "/") as [->|]; [discriminate|reflexivity].
Qed.

End KeyShapeFacts.

Module ParamsMoreFacts.
Import Params ParamsMoreSpec.

(** X19.  [GetDateString] pins the date: once it has been called, with
    a date set or at an instant that is not the zero time, every later
    call on the same parameters returns the same text and leaves them
    alone, whatever the clock reads by then. *)
Theorem GetDateString_pins_the_date :
  forall p w w',
    Time_IsZero (Date p) = false \/ now w <> 0 ->
    GetDateString (snd (GetDateString p w)) w' = GetDateString p w.
Proof.
  intros p w w' H. unfold GetDateString.
  destruct (Time_IsZero (Date p)) eqn:Hz; cbn [snd].
  - assert (Hset : Time_IsZero (Date (WithDate (time_Now w) p)) = false).
    { destruct H as [H|H]; [discriminate|].
      unfold WithDate, Time_IsZero, time_Now. cbn [Date wall]. apply Z.eqb_neq. exact H. }
    rewrite Hset. reflexivity.
  - rewrite Hz. reflexivity.
Qed.

Lemma GetDateString_pins_the_date_overnight :
  GetDateString (snd (GetDateString unset evening)) (elapse (2 * Second) evening)
  = GetDateString unset evening.
Proof.
  apply GetDateString_pins_the_date. right. vm_compute. discriminate.
Defined.

(** The date that was pinned is the one of the evening, also after
    midnight. *)
Example pinned_before_midnight :
  fst (GetDateString (snd (GetDateString unset evening)) (elapse (2 * Second) evening))
  = "30-10-2026"
  /\ fst (GetDateString unset (elapse (2 * Second) evening)) = "31-10-2026".
Proof. vm_compute. split; reflexivity. Qed.

(** X20.  The query of [ToQueryParams] names each key once and always
    the method; it holds the latitude and the longitude together, and
    exactly when one of them is not zero, so that the coordinates (0, 0)
    are never sent; and it never holds the address, which
    [GetPrayerTimesByAddress] adds. *)
Theorem ToQueryParams_keys :
  forall p,
    NoDup (keys (ToQueryParams p ++ [("address", Address p)])%list)
    /\ In "method" (keys (ToQueryParams p))
    /\ (In "latitude" (keys (ToQueryParams p))
        <-> nonzero (Latitude p) || nonzero (Longitude p) = true)
    /\ (In "longitude" (keys (ToQueryParams p))
        <-> nonzero (Latitude p) || nonzero (Longitude p) = true).
Proof.
  intros p. unfold ToQueryParams, keys.
  destruct (nonzero (Latitude p) || nonzero (Longitude p));
    destruct (School p >? 0); destruct (negb (String.eqb (Timezone p) ""));
    destruct (negb (Adjustment p =? 0)); destruct (ISO8601 p);
    cbn [app map fst];
    (split; [apply (bool_decide_unpack _); vm_compute; exact I
            |cbn [In]; intuition (try discriminate; auto)]).
Qed.

End ParamsMoreFacts.

(** ** Texts *)

Module TextFacts.
Import Calendar CalendarSpec.

Lemma length_app s t : String.length (s ++ t) = (String.length s + String.length t)%nat.
Proof.
  induction s as [|c s IH]; [reflexivity|].
  change (String c s ++ t) with (String c (s ++ t)). cbn [String.length]. rewrite IH.
  reflexivity.
Qed.

Lemma app_assoc s t u : (s ++ t) ++ u = s ++ (t ++ u).
Proof.
  induction s as [|c s IH]; [reflexivity|].
  change (String c s ++ t) with (String c (s ++ t)).
  change (String c (s ++ t) ++ u) with (String c ((s ++ t) ++ u)).
  rewrite IH. reflexivity.
Qed.

Lemma app_nil_r s : s ++ "" = s.
Proof.
  induction s as [|c s IH]; [reflexivity|].
  change (String c s ++ "") with (String c (s ++ "")). rewrite IH. reflexivity.
Qed.

Lemma app_cons c s t : String c s ++ t = String c (s ++ t).
Proof. reflexivity. Qed.

Lemma app_nil_l t : "" ++ t = t.
Proof. reflexivity. Qed.

Lemma substring_zero n s : substring n 0 s = "".
Proof.
  revert s. induction n as [|n IH]; intros [|c s]; try reflexivity. cbn. apply IH.
Qed.

Lemma substring_all s : substring 0 (String.length s) s = s.
Proof. induction s as [|c s IH]; [reflexivity|]. cbn. rewrite IH. reflexivity. Qed.

Lemma substring_app_skip a b i n :
  substring (String.length a + i) n (a ++ b) = substring i n b.
Proof. induction a as [|c a IH]; [reflexivity|]. cbn. exact IH. Qed.

Lemma substring_app_left a b n :
  (n <= String.length a)%nat -> substring 0 n (a ++ b) = substring 0 n a.
Proof.
  revert n. induction a as [|c a IH]; intros n Hn.
  - cbn in Hn. assert (n = O) by lia. subst n. rewrite !substring_zero. reflexivity.
  - destruct n as [|n]; [reflexivity|]. rewrite app_cons. cbn [substring].
    rewrite IH by (cbn in Hn; lia). reflexivity.
Qed.

Lemma substring_prefix a b : substring 0 (String.length a) (a ++ b) = a.
Proof. rewrite substring_app_left by lia. apply substring_all. Qed.

Lemma drop_app a b : drop (String.length a) (a ++ b) = b.
Proof.
  unfold drop. rewrite length_app.
  replace (String.length a + String.length b - String.length a)%nat
    with (String.length b) by lia.
  rewrite <- (Nat.add_0_r (String.length a)) at 1.
  rewrite substring_app_skip. apply substring_all.
Qed.

(** A text splits at every index within it. *)
Lemma split_at n s :
  (n <= String.length s)%nat -> s = substring 0 n s ++ drop n s.
Proof.
  revert n. induction s as [|c s IH]; intros n Hn.
  - cbn in Hn. assert (n = O) by lia. subst n. reflexivity.
  - destruct n as [|n].
    + unfold drop. rewrite Nat.sub_0_r, substring_all. reflexivity.
    + cbn [substring]. rewrite app_cons. f_equal.
      change (drop (S n) (String c s)) with (drop n s).
      apply IH. cbn in Hn. lia.
Qed.

Lemma length_substring_0 n s :
  (n <= String.length s)%nat -> String.length (substring 0 n s) = n.
Proof.
  revert n. induction s as [|c s IH]; intros n Hn.
  - cbn in Hn. assert (n = O) by lia. subst n. reflexivity.
  - destruct n as [|n]; [reflexivity|]. cbn. rewrite IH by (cbn in Hn; lia). reflexivity.
Qed.

Lemma prefix_split old rest :
  String.prefix old rest = true <-> rest = old ++ drop (String.length old) rest.
Proof.
  rewrite prefix_correct. split.
  - intros H.
    assert (Hlen : (String.length old <= String.length rest)%nat).
    { destruct (Nat.le_gt_cases (String.length old) (String.length rest)) as [|Hgt];
        [assumption|].
      exfalso. assert (Hl : String.length (substring 0 (String.length old) rest)
                            = String.length old) by (rewrite H; reflexivity).
      clear H. revert Hl Hgt. generalize (String.length old). clear old.
      induction rest as [|c r IH]; intros [|n]; cbn; try lia.
      intros Hl Hgt. apply (IH n); lia. }
    rewrite <- H at 1. apply split_at. exact Hlen.
  - intros H. rewrite H at 1. apply substring_prefix.
Qed.

Lemma list_ascii_length s : List.length (list_ascii_of_string s) = String.length s.
Proof. induction s as [|c s IH]; [reflexivity|]. cbn. rewrite IH. reflexivity. Qed.

Lemma has_app c s t : has c (s ++ t) <-> has c s \/ has c t.
Proof. unfold has. rewrite StringFacts.list_ascii_of_string_app. apply in_app_iff. Qed.

Lemma has_cons c x s : has c (String x s) <-> x = c \/ has c s.
Proof. reflexivity. Qed.

Lemma has_nil c : ~ has c "".
Proof. intros []. Qed.

End TextFacts.

Module CalendarFacts.
Import Calendar CalendarSpec TextFacts UrlSpec UrlFacts ParamsMoreSpec.

Lemma len_app s t : len (s ++ t) = len s + len t.
Proof. unfold len. rewrite length_app. lia. Qed.

Lemma slice_left a b : slice (a ++ b) 0 (len a) = a.
Proof.
  unfold slice, len. rewrite Z.sub_0_r, Nat2Z.id. cbn [Z.to_nat]. apply substring_prefix.
Qed.

Lemma slice_right a b : slice (a ++ b) (len a) (len (a ++ b)) = b.
Proof.
  unfold slice. rewrite len_app. unfold len.
  replace (Z.of_nat (String.length a) + Z.of_nat (String.length b)
           - Z.of_nat (String.length a)) with (Z.of_nat (String.length b)) by lia.
  rewrite !Nat2Z.id. rewrite <- (Nat.add_0_r (String.length a)).
  rewrite substring_app_skip. apply substring_all.
Qed.

Lemma slice_middle a b n :
  slice (a ++ b) (len a) (len a + Z.of_nat n) = substring 0 n b.
Proof.
  unfold slice, len.
  replace (Z.of_nat (String.length a) + Z.of_nat n - Z.of_nat (String.length a))
    with (Z.of_nat n) by lia.
  rewrite !Nat2Z.id. rewrite <- (Nat.add_0_r (String.length a)).
  apply substring_app_skip.
Qed.

(** [replaceAll], at the index [len(done)] of the text [done ++ rest]. *)
Lemma replaceAll_loop_rewritten fuel old new :
  forall done rest,
    replaceAll_loop fuel (done ++ rest) old new (len done)
    = option_map (append done) (rewritten fuel old new rest).
Proof.
  induction fuel as [|fuel IH]; intros done rest; [reflexivity|].
  cbn [replaceAll_loop rewritten]. rewrite len_app.
  destruct (Nat.ltb_spec (String.length rest) (String.length old)) as [Hlt|Hge].
  - replace (len done <=? len done + len rest - len old) with false
      by (symmetry; apply Z.leb_gt; unfold len; lia).
    reflexivity.
  - replace (len done <=? len done + len rest - len old) with true
      by (symmetry; apply Z.leb_le; unfold len; lia).
    replace (len done + len rest >=? len done + len old) with true
      by (symmetry; rewrite Z.geb_leb; apply Z.leb_le; unfold len; lia).
    cbn [andb]. unfold len at 3. rewrite slice_middle.
    destruct (String.prefix old rest) eqn:Hp.
    + pose proof Hp as Hsplit. apply prefix_split in Hsplit.
      apply prefix_correct in Hp. rewrite Hp, String.eqb_refl.
      cbv zeta.
      replace ((if differs new "" then len done + (len new - 1) else len done - 1) + 1)
        with (len (done ++ new)).
      2:{ rewrite len_app. unfold differs.
          destruct (String.eqb_spec new "") as [->|]; cbn [negb]; unfold len; cbn; lia. }
      replace (slice (done ++ rest) 0 (len done) ++ new
               ++ slice (done ++ rest) (len done + len old) (len done + len rest))
        with ((done ++ new) ++ drop (String.length old) rest).
      2:{ rewrite slice_left, app_assoc. do 2 f_equal.
          rewrite Hsplit at 2. rewrite <- app_assoc.
          replace (len done + len old) with (len (done ++ old))
            by (rewrite len_app; reflexivity).
          replace (len done + len rest)
            with (len ((done ++ old) ++ drop (String.length old) rest))
            by (rewrite app_assoc, <- Hsplit, len_app; reflexivity).
          symmetry. apply slice_right. }
      rewrite IH. destruct (rewritten fuel old new _) as [out|]; [|reflexivity].
      cbn [option_map]. rewrite app_assoc. reflexivity.
    + replace (String.eqb (substring 0 (String.length old) rest) old) with false
        by (symmetry; apply String.eqb_neq; intros H; apply prefix_correct in H; congruence).
      destruct rest as [|c r].
      * exfalso. cbn in Hge. destruct old; [discriminate|cbn in Hge; lia].
      * replace (done ++ String c r) with ((done ++ String c "") ++ r)
          by (rewrite app_assoc; reflexivity).
        replace (len done + 1) with (len (done ++ String c ""))
          by (rewrite len_app; reflexivity).
        rewrite IH. destruct (rewritten fuel old new r) as [out|]; [|reflexivity].
        cbn [option_map]. rewrite app_assoc. reflexivity.
Qed.

Lemma replaceAll_rewritten s old new :
  replaceAll s old new = rewritten (S (String.length s)) old new s.
Proof.
  unfold replaceAll.
  pose proof (replaceAll_loop_rewritten (S (String.length s)) old new "" s) as H.
  change ("" ++ s) with s in H. change (len "") with 0 in H. rewrite H.
  destruct (rewritten _ old new s); reflexivity.
Qed.

Lemma length_drop_prefix old rest :
  String.prefix old rest = true ->
  String.length rest = (String.length old + String.length (drop (String.length old) rest))%nat.
Proof. intros H. apply prefix_split in H. rewrite H at 1. apply length_app. Qed.

(** With an [old] that is not empty the loop ends within the fuel
    [replaceAll] gives it. *)
Lemma rewritten_total old new :
  old <> "" ->
  forall fuel rest, (String.length rest < fuel)%nat ->
                    exists out, rewritten fuel old new rest = Some out.
Proof.
  intros Hold. induction fuel as [|fuel IH]; intros rest Hfuel; [lia|].
  cbn [rewritten].
  destruct (Nat.ltb_spec (String.length rest) (String.length old)) as [Hlt|Hge]; [eauto|].
  assert (Hpos : (0 < String.length old)%nat) by (destruct old; [congruence|cbn; lia]).
  destruct (String.prefix old rest) eqn:Hp.
  - pose proof (length_drop_prefix old rest Hp) as Hlen.
    destruct (IH (drop (String.length old) rest) ltac:(lia)) as [out ->]. cbn. eauto.
  - destruct rest as [|c r]; [cbn in Hge; lia|].
    destruct (IH r ltac:(cbn in Hfuel; lia)) as [out ->]. cbn. eauto.
Qed.

(** Every byte of the result is one of the text or one of [new]. *)
Lemma rewritten_has old new c :
  forall fuel rest out,
    rewritten fuel old new rest = Some out -> has c out -> has c rest \/ has c new.
Proof.
  induction fuel as [|fuel IH]; intros rest out H Hc; [discriminate|].
  cbn [rewritten] in H.
  destruct (String.length rest <? String.length old)%nat; [injection H as <-; auto|].
  destruct (String.prefix old rest) eqn:Hp.
  - destruct (rewritten fuel old new _) as [out'|] eqn:Hrec; [|discriminate].
    injection H as <-. apply has_app in Hc as [Hc|Hc]; [auto|].
    destruct (IH _ _ Hrec Hc) as [Hr|Hn]; [|auto].
    left. apply prefix_split in Hp. rewrite Hp. apply has_app. auto.
  - destruct rest as [|x r]; [discriminate|].
    destruct (rewritten fuel old new r) as [out'|] eqn:Hrec; [|discriminate].
    injection H as <-. apply has_cons in Hc as [Hc|Hc]; [left; left; exact Hc|].
    destruct (IH _ _ Hrec Hc) as [Hr|Hn]; [|auto]. left. right. exact Hr.
Qed.

(** A byte that is replaced by a text without it is gone. *)
Lemma rewritten_removes x new :
  ~ has x new ->
  forall fuel rest out,
    rewritten fuel (String x "") new rest = Some out -> ~ has x out.
Proof.
  intros Hnew. induction fuel as [|fuel IH]; intros rest out H Hc; [discriminate|].
  cbn [rewritten] in H.
  destruct (Nat.ltb_spec (String.length rest) (String.length (String x ""))) as [Hlt|Hge].
  - injection H as <-. destruct rest; [exact (has_nil _ Hc)|cbn in Hlt; lia].
  - destruct (String.prefix (String x "") rest) eqn:Hp.
    + destruct (rewritten fuel _ new _) as [out'|] eqn:Hrec; [|discriminate].
      injection H as <-. apply has_app in Hc as [Hc|Hc]; [auto|]. exact (IH _ _ Hrec Hc).
    + destruct rest as [|c r]; [discriminate|].
      destruct (rewritten fuel _ new r) as [out'|] eqn:Hrec; [|discriminate].
      injection H as <-. apply has_cons in Hc as [Hc|Hc]; [|exact (IH _ _ Hrec Hc)].
      subst c.
      assert (String.prefix (String x "") (String x r) = true); [|congruence].
      apply prefix_correct. cbn. rewrite substring_zero. reflexivity.
Qed.

(** A replacement by a text that is not longer does not lengthen the
    text, and shortens it when [new] is shorter and [old] occurs. *)
Lemma rewritten_length old new :
  (String.length new <= String.length old)%nat ->
  forall fuel rest out,
    rewritten fuel old new rest = Some out ->
    (String.length out <= String.length rest)%nat
    /\ ((String.length new < String.length old)%nat -> occurs old rest ->
        (String.length out < String.length rest)%nat).
Proof.
  intros Hlen. induction fuel as [|fuel IH]; intros rest out H; [discriminate|].
  cbn [rewritten] in H.
  destruct (Nat.ltb_spec (String.length rest) (String.length old)) as [Hlt|Hge].
  - injection H as <-. split; [lia|]. intros _ (l & r & ->).
    rewrite !length_app in Hlt. lia.
  - destruct (String.prefix old rest) eqn:Hp.
    + destruct (rewritten fuel old new _) as [out'|] eqn:Hrec; [|discriminate].
      injection H as <-. destruct (IH _ _ Hrec) as [Hle _].
      pose proof (length_drop_prefix old rest Hp) as Hl.
      rewrite length_app. split; lia.
    + destruct rest as [|c r]; [discriminate|].
      destruct (rewritten fuel old new r) as [out'|] eqn:Hrec; [|discriminate].
      injection H as <-. destruct (IH _ _ Hrec) as [Hle Hstrict].
      cbn [String.length]. split; [lia|]. intros Hs (l & t & Hocc).
      destruct l as [|c' l].
      * exfalso. rewrite app_nil_l in Hocc.
        assert (String.prefix old (String c r) = true); [|congruence].
        apply prefix_correct. rewrite Hocc. apply substring_prefix.
      * rewrite app_cons in Hocc. injection Hocc as _ ->.
        assert (occurs old (l ++ old ++ t)) by (exists l, t; reflexivity).
        specialize (Hstrict Hs H). lia.
Qed.

Lemma occurs_cons sub c r :
  String.prefix sub (String c r) = false -> occurs sub (String c r) <-> occurs sub r.
Proof.
  intros Hp. split.
  - intros ([|c' l] & t & Hocc).
    + exfalso. rewrite app_nil_l in Hocc.
      assert (String.prefix sub (String c r) = true); [|congruence].
      apply prefix_correct. rewrite Hocc. apply substring_prefix.
    + rewrite app_cons in Hocc. injection Hocc as _ ->. exists l, t. reflexivity.
  - intros (l & t & ->). exists (String c l), t. reflexivity.
Qed.

Lemma contains_loop_occurs sub :
  forall n done rest,
    n = (String.length rest + 1 - String.length sub)%nat ->
    contains_loop n (done ++ rest) sub (len done) = true <-> occurs sub rest.
Proof.
  induction n as [|n IH]; intros done rest Hn.
  - cbn [contains_loop]. split; [discriminate|]. intros (l & r & ->).
    rewrite !length_app in Hn. lia.
  - cbn [contains_loop]. unfold len at 3. rewrite slice_middle.
    destruct (String.prefix sub rest) eqn:Hp.
    + pose proof Hp as Hc. apply prefix_correct in Hc. rewrite Hc, String.eqb_refl.
      split; [|reflexivity]. intros _. apply prefix_split in Hp.
      exists "", (drop (String.length sub) rest). exact Hp.
    + replace (String.eqb (substring 0 (String.length sub) rest) sub) with false
        by (symmetry; apply String.eqb_neq; intros H; apply prefix_correct in H; congruence).
      destruct rest as [|c r].
      * exfalso. destruct sub; [discriminate|]. cbn in Hn. lia.
      * rewrite (occurs_cons sub c r Hp).
        replace (done ++ String c r) with ((done ++ String c "") ++ r)
          by (rewrite app_assoc; reflexivity).
        replace (len done + 1) with (len (done ++ String c ""))
          by (rewrite len_app; reflexivity).
        apply IH. cbn [String.length] in Hn. lia.
Qed.

Lemma contains_occurs s substr : contains s substr = true <-> occurs substr s.
Proof.
  unfold contains.
  pose proof (contains_loop_occurs substr
                (Z.to_nat (len s - len substr + 1)) "" s) as H.
  change ("" ++ s) with s in H. change (len "") with 0 in H. apply H.
  unfold len. lia.
Qed.

(** X21.  [contains] is the test of [strings.Contains]: it answers true
    exactly when the text holds the other one, the empty text
    included. *)
Theorem contains_iff_occurs :
  forall s substr, contains s substr = true <-> occurs substr s.
Proof. exact contains_occurs. Qed.

(** ** [trim] *)

Lemma snoc_inv s : s <> "" -> exists s0 c, s = s0 ++ String c "".
Proof.
  induction s as [|x s IH]; intros H; [congruence|].
  destruct s as [|y s].
  - exists "", x. reflexivity.
  - destruct (IH ltac:(discriminate)) as (s0 & c & Hs). exists (String x s0), c.
    rewrite app_cons, <- Hs. reflexivity.
Qed.

Lemma last_byte_snoc s0 c : last_byte (s0 ++ String c "") = Some c.
Proof.
  unfold last_byte. rewrite length_app. cbn [String.length].
  replace (String.length s0 + 1 - 1)%nat with (0 + String.length s0)%nat by lia.
  rewrite <- append_correct2. reflexivity.
Qed.

Lemma slice_init s0 c :
  slice (s0 ++ String c "") 0 (len (s0 ++ String c "") - 1) = s0.
Proof.
  replace (len (s0 ++ String c "") - 1) with (len s0)
    by (rewrite len_app; unfold len; cbn; lia).
  apply slice_left.
Qed.

Lemma first_byte_app r t : r <> "" -> first_byte (r ++ t) = first_byte r.
Proof. destruct r; [congruence|reflexivity]. Qed.

Lemma trim_front_spec cutset s :
  exists l,
    s = l ++ trim_front s cutset
    /\ (forall c, has c l -> found_in cutset c = true)
    /\ (forall c, first_byte (trim_front s cutset) = Some c -> found_in cutset c = false).
Proof.
  induction s as [|x s (l & Hs & Hl & Hf)].
  - exists "". split; [reflexivity|]. split; [intros c []|discriminate].
  - cbn [trim_front]. destruct (found_in cutset x) eqn:Hx.
    + exists (String x l). rewrite app_cons, <- Hs. split; [reflexivity|].
      split; [|exact Hf]. intros c [<-|Hc]; [exact Hx|exact (Hl c Hc)].
    + exists "". split; [reflexivity|]. split; [intros c []|].
      intros c [= <-]. exact Hx.
Qed.

Lemma trim_back_spec cutset :
  forall n s,
    n = String.length s ->
    exists t,
      s = trim_back n s cutset ++ t
      /\ (forall c, has c t -> found_in cutset c = true)
      /\ (forall c, last_byte (trim_back n s cutset) = Some c -> found_in cutset c = false).
Proof.
  induction n as [|n IH]; intros s Hn.
  - destruct s; [|discriminate]. exists "". split; [reflexivity|].
    split; [intros c []|discriminate].
  - destruct (snoc_inv s ltac:(destruct s; [discriminate|congruence])) as (s0 & x & ->).
    cbn [trim_back]. fold (last_byte (s0 ++ String x "")).
    rewrite last_byte_snoc, slice_init.
    destruct (found_in cutset x) eqn:Hx.
    + destruct (IH s0) as (t & Hs & Ht & Hl).
      { rewrite length_app in Hn. cbn in Hn. lia. }
      exists (t ++ String x ""). rewrite <- app_assoc, <- Hs. split; [reflexivity|].
      split; [|exact Hl]. intros c Hc. apply has_app in Hc as [Hc|[<-|[]]]; auto.
    + exists "". rewrite app_nil_r. split; [reflexivity|]. split; [intros c []|].
      intros c Hc. rewrite last_byte_snoc in Hc. injection Hc as <-. exact Hx.
Qed.

Lemma trim_spec s cutset :
    exists l t,
      s = l ++ trim s cutset ++ t
      /\ (forall c, has c l \/ has c t -> found_in cutset c = true)
      /\ (forall c, first_byte (trim s cutset) = Some c -> found_in cutset c = false)
      /\ (forall c, last_byte (trim s cutset) = Some c -> found_in cutset c = false).
Proof.
  unfold trim.
  destruct (trim_front_spec cutset s) as (l & Hs & Hl & Hf).
  destruct (trim_back_spec cutset (String.length (trim_front s cutset))
              (trim_front s cutset) eq_refl) as (t & Hm & Ht & Hb).
  exists l, t. split; [rewrite <- Hm; exact Hs|].
  split; [intros c [Hc|Hc]; auto|]. split; [|exact Hb].
  intros c Hc. apply Hf. rewrite Hm.
  rewrite first_byte_app; [exact Hc|]. intros He. rewrite He in Hc. discriminate.
Qed.

(** X22.  [trim] is [strings.Trim] on bytes: the result is the text
    without a prefix and a suffix made of bytes of the cutset, and it
    neither starts nor ends with a byte of the cutset. *)
Theorem trim_removes_both_ends :
  forall s cutset,
    exists l t,
      s = l ++ trim s cutset ++ t
      /\ (forall c, has c l \/ has c t -> found_in cutset c = true)
      /\ (forall c, first_byte (trim s cutset) = Some c -> found_in cutset c = false)
      /\ (forall c, last_byte (trim s cutset) = Some c -> found_in cutset c = false).
Proof. exact trim_spec. Qed.

(** ** [sanitizeFilename] *)

Lemma replaceAll_total s old new :
  old <> "" -> exists out, replaceAll s old new = Some out.
Proof.
  intros H. rewrite replaceAll_rewritten. apply rewritten_total; [exact H|lia].
Qed.

Lemma replace_each_spec :
  forall rs s,
    Forall one_byte rs ->
    exists r,
      replace_each rs s = Some r
      /\ (forall c, has c r -> has c s \/ c = "-"%char)
      /\ (forall x n, In (String x "", n) rs -> ~ has x r).
Proof.
  induction rs as [|[o n] rs IH]; intros s Hok.
  - exists s. split; [reflexivity|]. split; [auto|intros x n []].
  - apply Forall_cons in Hok as [(x & Ho & Hx & Hn) Hok]. cbn [fst snd] in Ho, Hn. subst o.
    cbn [replace_each fst snd].
    destruct (replaceAll_total s (String x "") n ltac:(discriminate)) as [s1 Hs1].
    rewrite Hs1. rewrite replaceAll_rewritten in Hs1.
    assert (Hnew : forall c, has c n -> c = "-"%char).
    { intros c Hc. destruct Hn as [->| ->]; [destruct Hc|].
      destruct Hc as [<-|[]]. reflexivity. }
    assert (Hgone : ~ has x s1).
    { apply (rewritten_removes x n) with (fuel := S (String.length s)) (rest := s);
        [|exact Hs1]. intros Hc. apply Hx. exact (Hnew x Hc). }
    destruct (IH s1 Hok) as (r & Hr & Hchars & Holds).
    exists r. split; [exact Hr|]. split.
    + intros c Hc. destruct (Hchars c Hc) as [H1|H1]; [|auto].
      destruct (rewritten_has _ _ c _ _ _ Hs1 H1) as [H2|H2]; [auto|].
      right. exact (Hnew c H2).
    + intros y m [Hin|Hin].
      * injection Hin as <- _. intros Hc.
        destruct (Hchars x Hc) as [H1|H1]; [exact (Hgone H1)|exact (Hx H1)].
      * exact (Holds y m Hin).
Qed.

Lemma replacer_one_byte : Forall one_byte replacer.
Proof.
  unfold replacer.
  repeat (apply Forall_cons; split;
          [eexists; cbn [fst snd]; split; [reflexivity|]; split; [discriminate|auto]|]).
  apply Forall_nil. exact I.
Qed.

Lemma replacer_unwanted x :
  In x unwanted -> exists n, In (String x "", n) replacer.
Proof.
  unfold unwanted, replacer. cbn [In].
  intros H.
  repeat (destruct H as [<-|H]; [eexists; cbn [In]; tauto|]). destruct H.
Qed.

Lemma has_toLowerCase c s :
  has c (toLowerCase s) ->
  exists c0, has c0 s
             /\ c = if GoUrl.byte_between 65 90 c0 then ascii_of_nat (nat_of_ascii c0 + 32)
                    else c0.
Proof.
  unfold has, toLowerCase. rewrite list_ascii_of_string_of_list_ascii.
  intros H. apply in_map_iff in H as (c0 & <- & Hc0). eauto.
Qed.

Lemma lower_name_byte c0 :
  existsb (Ascii.eqb c0) unwanted = false ->
  name_byte (if GoUrl.byte_between 65 90 c0 then ascii_of_nat (nat_of_ascii c0 + 32)
             else c0) = true.
Proof. destruct c0 as [[] [] [] [] [] [] [] []]; vm_compute; congruence. Qed.

Lemma not_unwanted c s :
  (forall x, In x unwanted -> ~ has x s) -> has c s ->
  existsb (Ascii.eqb c) unwanted = false.
Proof.
  intros H Hc. apply not_true_is_false. intros He.
  apply existsb_exists in He as (x & Hx & Heq). apply Ascii.eqb_eq in Heq. subst x.
  exact (H c Hx Hc).
Qed.

Lemma collapse_dashes_spec :
  forall fuel s,
    (String.length s < fuel)%nat -> clean s ->
    exists r, collapse_dashes fuel s = Some r /\ contains r "--" = false /\ clean r.
Proof.
  induction fuel as [|fuel IH]; intros s Hfuel Hclean; [lia|].
  cbn [collapse_dashes]. destruct (contains s "--") eqn:Hc; [|eauto].
  destruct (replaceAll_total s "--" "-" ltac:(discriminate)) as [s1 Hs1].
  rewrite Hs1. rewrite replaceAll_rewritten in Hs1.
  destruct (rewritten_length "--" "-" ltac:(cbn; lia) _ _ _ Hs1) as [_ Hshort].
  apply contains_occurs in Hc. specialize (Hshort ltac:(cbn; lia) Hc).
  apply IH; [lia|].
  intros c Hin. destruct (rewritten_has _ _ c _ _ _ Hs1 Hin) as [H|[<-|[]]];
    [exact (Hclean c H)|reflexivity].
Qed.

Lemma sanitizeFilename_spec name :
  exists r,
    sanitizeFilename name = Some r
    /\ clean r
    /\ contains r "--" = false
    /\ first_byte r <> Some "-"%char
    /\ last_byte r <> Some "-"%char.
Proof.
  unfold sanitizeFilename.
  destruct (replace_each_spec replacer name replacer_one_byte) as (r1 & -> & _ & Hgone).
  assert (Hclean : clean (toLowerCase r1)).
  { intros c Hc. apply has_toLowerCase in Hc as (c0 & Hc0 & ->).
    apply lower_name_byte. apply (not_unwanted c0 r1); [|exact Hc0].
    intros x Hx. destruct (replacer_unwanted x Hx) as [n Hn]. exact (Hgone x n Hn). }
  destruct (collapse_dashes_spec (S (String.length (toLowerCase r1))) (toLowerCase r1)
              ltac:(lia) Hclean) as (r2 & -> & Hdash & Hclean2).
  destruct (trim_spec r2 "-") as (l & t & Hs & _ & Hfirst & Hlast).
  eexists. split; [reflexivity|]. split; [|split; [|split]].
  - intros c Hc. apply Hclean2. rewrite Hs. apply has_app. right. apply has_app. auto.
  - apply not_true_is_false. intros Hc. apply contains_occurs in Hc as (a & b & Hocc).
    assert (contains r2 "--" = true); [|congruence].
    apply contains_occurs. exists (l ++ a), (b ++ t).
    rewrite Hs, Hocc, !app_assoc. reflexivity.
  - intros H. specialize (Hfirst _ H). discriminate.
  - intros H. specialize (Hlast _ H). discriminate.
Qed.

(** X23.  [sanitizeFilename] returns for every name, and the text it
    returns holds none of the bytes it removes or replaces (the space,
    [,./\:*?<>|] and the quotation mark), no capital letter and no two
    dashes in a row, and neither starts nor ends with a dash. *)
Theorem sanitizeFilename_is_clean :
  forall name,
    exists r,
      sanitizeFilename name = Some r
      /\ forallb name_byte (list_ascii_of_string r) = true
      /\ contains r "--" = false
      /\ first_byte r <> Some "-"%char
      /\ last_byte r <> Some "-"%char.
Proof.
  intros name. destruct (sanitizeFilename_spec name) as (r & Hr & Hclean & Hrest).
  exists r. split; [exact Hr|]. split; [|exact Hrest].
  apply forallb_forall. exact Hclean.
Qed.

(** X24.  [GetDefaultFilename] returns for every location a name that
    ends in [.ics] after a stem that is not empty, [prayer-times] when
    nothing of the location is left, and that holds none of the unwanted
    bytes and no capital letter. *)
Theorem GetDefaultFilename_is_a_file_name :
  forall location,
    exists stem,
      GetDefaultFilename location = Some (stem ++ ".ics")
      /\ stem <> ""
      /\ forallb name_byte (list_ascii_of_string stem) = true
      /\ (sanitizeFilename location = Some "" -> stem = "prayer-times").
Proof.
  intros location. unfold GetDefaultFilename.
  destruct (sanitizeFilename_spec location) as (r & -> & Hclean & _).
  destruct (String.eqb_spec r "") as [->|Hne].
  - exists "prayer-times". split; [reflexivity|]. split; [discriminate|].
    split; [reflexivity|auto].
  - exists r. split; [reflexivity|]. split; [exact Hne|].
    split; [apply forallb_forall; exact Hclean|]. intros [= ->]. congruence.
Qed.

Lemma keys_Set k key x q : In k (keys (GoUrl.Set_ key x q)) <-> k = key \/ In k (keys q).
Proof.
  unfold keys. induction q as [|[k0 x0] q IH]; cbn [GoUrl.Set_ map fst In].
  - intuition.
  - destruct (String.eqb_spec k0 key) as [->|Hne]; cbn [map fst In]; intuition.
Qed.

Lemma notin_set_if b k key x q :
  ~ In k (keys q) -> k <> key -> ~ In k (keys (ICS.set_if b key x q)).
Proof.
  intros Hq Hk. unfold ICS.set_if. destruct b; [|exact Hq].
  rewrite keys_Set. intuition.
Qed.

Lemma In_Set_other k v key x q :
  In (k, v) q -> k <> key -> In (k, v) (GoUrl.Set_ key x q).
Proof.
  intros Hin Hk. induction q as [|[k0 x0] q IH]; [destruct Hin|].
  cbn [GoUrl.Set_]. destruct (String.eqb_spec k0 key) as [->|Hne].
  - destruct Hin as [[= -> ->]|Hin]; [congruence|right; exact Hin].
  - destruct Hin as [Hin|Hin]; [left; exact Hin|right; apply IH; exact Hin].
Qed.

Lemma In_set_if_other b k v key x q :
  In (k, v) q -> k <> key -> In (k, v) (ICS.set_if b key x q).
Proof. intros Hin Hk. unfold ICS.set_if. destruct b; [apply In_Set_other; assumption|exact Hin]. Qed.

(** X25.  The URL [GenerateICSURL] returns is the address of the
    calendar endpoint, a question mark and a query made of unreserved
    bytes, [+], [%XX] escapes and the separators only, with one [=] for
    each parameter set.  An address that is not empty is sent as it is,
    and then neither the latitude nor the longitude is. *)
Theorem GenerateICSURL_query_is_escaped :
  forall params,
    let q := GoUrl.Encode (query_of params) in
    GenerateICSURL params = "https://pray.ahmedelywa.com/api/prayer-times.ics?" ++ q
    /\ all_bytes query_byte q = true
    /\ count "=" q = List.length (query_of params)
    /\ (Address params <> "" ->
        In ("address", Address params) (query_of params)
        /\ ~ In "latitude" (keys (query_of params))
        /\ ~ In "longitude" (keys (query_of params))).
Proof.
  intros params q. destruct (Encode_safe (query_of params)) as (H1 & H2 & _).
  split; [reflexivity|]. split; [exact H1|]. split; [exact H2|].
  intros Ha.
  assert (Hd : differs (Address params) "" = true).
  { unfold differs. destruct (String.eqb_spec (Address params) ""); [contradiction|reflexivity]. }
  unfold query_of. cbv zeta. rewrite Hd. cbn [GoUrl.Set_]. split; [|split].
  - repeat (apply In_set_if_other; [|discriminate]). left. reflexivity.
  - repeat (apply notin_set_if; [|discriminate]). cbn. intuition discriminate.
  - repeat (apply notin_set_if; [|discriminate]). cbn. intuition discriminate.
Qed.

(** The cases of the test [TestGenerateICSURL] with coordinates and with
    an address, and the parameters left as they are: no location. *)
Example GenerateICSURL_cases :
  GenerateICSURL (mkCalendarParams 30%float 31%float "" 5 25 3 "5,10,15" "all" "en"
                    "#1e90ff" "desc" false 0 false false false false 0 0 0 false "")
  = "https://pray.ahmedelywa.com/api/prayer-times.ics?alarm=5%2C10%2C15&color=1e90ff&duration=25&hijri=desc&latitude=30.000000&longitude=31.000000&method=5&months=3"
  /\ GenerateICSURL (mkCalendarParams 30%float 31%float "Cairo, Egypt" 5 25 3 "5,10,15" "all"
                       "en" "#1e90ff" "desc" true 60 false false false false 0 0 0 false "")
     = "https://pray.ahmedelywa.com/api/prayer-times.ics?address=Cairo%2C+Egypt&alarm=5%2C10%2C15&color=1e90ff&duration=25&hijri=desc&jumuah=true&jumuahDuration=60&method=5&months=3"
  /\ GenerateICSURL NewCalendarParams
     = "https://pray.ahmedelywa.com/api/prayer-times.ics?alarm=5%2C10%2C15&color=1e90ff&duration=25&hijri=desc&method=5&months=3".
Proof. vm_compute. repeat split. Qed.

(** The cases of the tests [TestSanitizeFilename] and
    [TestGetDefaultFilename], and [replaceAll] where a replacement makes
    a new match, where it leaves one behind, and with nothing to look
    for. *)
Example sanitize_cases :
  sanitizeFilename "Cairo, Egypt" = Some "cairo-egypt"
  /\ sanitizeFilename "File:Name" = Some "file-name"
  /\ sanitizeFilename "  --Hello--  " = Some "hello"
  /\ GetDefaultFilename "London/UK" = Some "london-uk.ics"
  /\ GetDefaultFilename "" = Some "prayer-times.ics"
  /\ GetDefaultFilename "City With  Spaces" = Some "city-with-spaces.ics"
  /\ replaceAll "---" "--" "-" = Some "--"
  /\ replaceAll "aabb" "ab" "" = Some "ab"
  /\ replaceAll "abc" "" "x" = None.
Proof. vm_compute. repeat split. Qed.

End CalendarFacts.

Module PrayerFacts.
Import GoString Prayer Output PrayerSpec CalendarSpec TextFacts.

Lemma GetNextPrayer_loop_spec n i prayers :
  (i + n = List.length prayers)%nat ->
  (forall j q, (j < i)%nat -> prayers !! j = Some q -> IsPassed q = true) ->
  match GetNextPrayer_loop n i prayers with
  | (Some k, prayers') =>
      exists p, prayers !! k = Some p
                /\ IsPassed p = false
                /\ (forall j q, (j < k)%nat -> prayers !! j = Some q -> IsPassed q = true)
                /\ prayers' = <[k := mark_next p]> prayers
  | (None, prayers') =>
      prayers' = prayers /\ Forall (fun q => IsPassed q = true) prayers
  end.
Proof.
  revert i. induction n as [|n IH]; intros i Hlen Hbefore.
  - cbn. split; [reflexivity|]. apply Forall_lookup_2. intros j q Hq.
    apply (Hbefore j q); [|exact Hq]. apply lookup_lt_Some in Hq. lia.
  - cbn [GetNextPrayer_loop]. destruct (prayers !! i) as [p|] eqn:Hp.
    + destruct (IsPassed p) eqn:Hpassed; cbn [negb].
      * apply IH; [lia|]. intros j q Hj Hq.
        destruct (decide (j = i)) as [->|Hne].
        -- rewrite Hp in Hq. injection Hq as <-. exact Hpassed.
        -- apply (Hbefore j q); [lia|exact Hq].
      * exists p. repeat split; try assumption.
    + apply lookup_ge_None in Hp. lia.
Qed.

(** X26.  [GetNextPrayer] returns the first prayer of the slice that is
    not passed, whatever [now] is, and sets its [IsNext]; it changes no
    other element, so a flag set by an earlier call stays.  It returns
    nil, and changes nothing, exactly when every prayer is passed. *)
Theorem GetNextPrayer_is_first_not_passed :
  forall prayers now,
    match GetNextPrayer prayers now with
    | (Some k, prayers') =>
        exists p, prayers !! k = Some p
                  /\ IsPassed p = false
                  /\ (forall j q, (j < k)%nat -> prayers !! j = Some q -> IsPassed q = true)
                  /\ prayers' !! k = Some (mark_next p)
                  /\ (forall j, j <> k -> prayers' !! j = prayers !! j)
    | (None, prayers') =>
        prayers' = prayers /\ Forall (fun q => IsPassed q = true) prayers
    end.
Proof.
  intros prayers now. unfold GetNextPrayer.
  pose proof (GetNextPrayer_loop_spec (List.length prayers) 0 prayers eq_refl) as H.
  destruct (GetNextPrayer_loop _ 0 prayers) as [[k|] prayers'].
  - destruct H as (p & Hp & Hpassed & Hbefore & ->); [intros j q Hj; lia|].
    exists p. repeat split; try assumption.
    + apply list_lookup_insert_eq. apply lookup_lt_Some in Hp. exact Hp.
    + intros j Hj. apply list_lookup_insert_ne. congruence.
  - apply H. intros j q Hj. lia.
Qed.

Example GetNextPrayer_noon :
  GetNextPrayer noon 0
  = (Some 2%nat,
     [ mkPrayer "Fajr" 0 "04:30" 0 true true;
       mkPrayer "Sunrise" 0 "06:00" 1 true false;
       mkPrayer "Dhuhr" 0 "12:10" 2 false true;
       mkPrayer "Asr" 0 "15:40" 3 false false ]).
Proof. reflexivity. Qed.

End PrayerFacts.

Module OutputFacts.
Import GoString Output Cmd OutputSpec CalendarSpec TextFacts.

Lemma concat_repeat_S k :
  String.concat "" (repeat " " (S k)) = String " " (String.concat "" (repeat " " k)).
Proof. destruct k; reflexivity. Qed.

Lemma Repeat_length n : 0 <= n -> len (Repeat " " n) = n.
Proof.
  intros Hn. unfold len, Repeat. rewrite <- (Z2Nat.id n) at 2 by exact Hn.
  f_equal. induction (Z.to_nat n) as [|k IH]; [reflexivity|].
  rewrite concat_repeat_S. cbn [String.length]. rewrite IH. reflexivity.
Qed.

Lemma slice_prefix text width :
  0 <= width <= len text ->
  len (slice text 0 width) = width /\ exists rest, text = slice text 0 width ++ rest.
Proof.
  unfold len, slice. intros H. rewrite Z.sub_0_r. change (Z.to_nat 0) with O.
  split.
  - rewrite length_substring_0 by lia. lia.
  - exists (drop (Z.to_nat width) text). apply split_at. lia.
Qed.

Lemma before_split p s :
  exists rest,
    s = before p s ++ rest
    /\ forallb (fun c => negb (p c)) (list_ascii_of_string (before p s)) = true
    /\ (rest = "" \/ exists c, first_byte rest = Some c /\ p c = true).
Proof.
  induction s as [|c s (rest & Hs & Hclean & Hrest)].
  - exists "". repeat split. left. reflexivity.
  - cbn [before]. destruct (p c) eqn:Hc.
    + exists (String c s). repeat split. right. exists c. split; [reflexivity|exact Hc].
    + exists rest. rewrite app_cons, <- Hs. split; [reflexivity|].
      split; [|exact Hrest]. cbn. rewrite Hc. exact Hclean.
Qed.

Lemma Split_first s sep :
  exists parts, Split s sep = before (is_byte sep) s :: parts.
Proof.
  induction s as [|c s (parts & IH)]; [exists []; reflexivity|].
  cbn [Split before]. unfold is_byte. destruct (Ascii.eqb c sep); [eexists; reflexivity|].
  rewrite IH. eexists. reflexivity.
Qed.

Lemma Output_cleanTime_before s : Output.cleanTime s = before (is_byte " ") s.
Proof. unfold Output.cleanTime. destruct (Split_first s " ") as (parts & ->). reflexivity. Qed.

Lemma get_app_skip a b i : String.get (String.length a + i) (a ++ b) = String.get i b.
Proof. induction a as [|c a IH]; [reflexivity|]. exact IH. Qed.

Lemma cleanTime_loop_before a b :
  before stop a = a ->
  cleanTime_loop (String.length b) (a ++ b) (len a) = a ++ before stop b.
Proof.
  revert a. induction b as [|c b IH]; intros a Ha.
  - reflexivity.
  - cbn [String.length cleanTime_loop]. unfold len at 1. rewrite Nat2Z.id.
    rewrite <- (Nat.add_0_r (String.length a)) at 1. rewrite get_app_skip.
    cbn [String.get before]. fold (stop c). destruct (stop c) eqn:Hc.
    + unfold slice, len. rewrite Z.sub_0_r, Nat2Z.id. change (Z.to_nat 0) with O.
      rewrite substring_prefix, app_nil_r. reflexivity.
    + specialize (IH (a ++ String c "")).
      rewrite app_assoc in IH. change (String c "" ++ b) with (String c b) in IH.
      replace (len (a ++ String c "")) with (len a + 1) in IH
        by (rewrite CalendarFacts.len_app; reflexivity).
      rewrite IH; [rewrite app_assoc; reflexivity|].
      clear IH. induction a as [|x a IHa]; [rewrite app_nil_l; cbn [before]; rewrite Hc; reflexivity|].
      rewrite app_cons. cbn [before] in *. destruct (stop x); [discriminate|].
      f_equal. apply IHa. congruence.
Qed.

Lemma Cmd_cleanTime_before s : Cmd.cleanTime s = before stop s.
Proof. exact (cleanTime_loop_before "" s eq_refl). Qed.

Lemma before_weaker (p q : ascii -> bool) s :
  (forall c, q c = true -> p c = true) -> before p (before q s) = before p s.
Proof.
  intros Hpq. induction s as [|c s IH]; [reflexivity|].
  cbn [before]. destruct (q c) eqn:Hq.
  - rewrite (Hpq c Hq). reflexivity.
  - cbn [before]. destruct (p c); [reflexivity|]. rewrite IH. reflexivity.
Qed.

Lemma itoa_opp m : 0 < m -> itoa (- m) = "-" ++ itoa m.
Proof. destruct m as [|p|p]; [lia| |lia]. intros _. reflexivity. Qed.

(** X27.  For a width that is not negative [centerText] returns a text
    of exactly [width] bytes: the text between spaces, the spaces on the
    left at most one fewer than on the right, or the first [width] bytes
    of a text that is longer. *)
Theorem centerText_fills_width :
  forall text width,
    0 <= width ->
    exists r,
      centerText text width = Some r
      /\ len r = width
      /\ (len text <= width ->
          exists l, r = Repeat " " l ++ text ++ Repeat " " (width - len text - l)
                    /\ 2 * l <= width - len text <= 2 * l + 1)
      /\ (width < len text -> exists rest, text = r ++ rest).
Proof.
  intros text width Hw. unfold centerText.
  destruct (len text >=? width) eqn:Hge.
  - apply Z.geb_le in Hge. destruct (width <? 0) eqn:Hneg; [apply Z.ltb_lt in Hneg; lia|].
    destruct (slice_prefix text width) as (Hlen & rest & Hrest); [lia|].
    exists (slice text 0 width). split; [reflexivity|]. split; [exact Hlen|].
    split; [|intros _; exists rest; exact Hrest].
    intros Hle. assert (Heq : width = len text) by lia. exists 0.
    replace (width - len text - 0) with 0 by lia. cbn [Repeat Z.to_nat repeat String.concat].
    rewrite app_nil_l, app_nil_r. split; [|lia].
    subst width. unfold slice, len. rewrite Z.sub_0_r, Nat2Z.id. apply substring_all.
  - rewrite Z.geb_leb in Hge. apply Z.leb_gt in Hge.
    set (padding := Z.quot (width - len text) 2).
    assert (Hpad : 2 * padding <= width - len text <= 2 * padding + 1).
    { unfold padding. rewrite Z.quot_div_nonneg by lia.
      pose proof (Z.div_mod (width - len text) 2 ltac:(lia)) as Hd.
      pose proof (Z.mod_pos_bound (width - len text) 2 ltac:(lia)). lia. }
    eexists. split; [reflexivity|]. split; [|split].
    + rewrite !CalendarFacts.len_app, !Repeat_length by lia. lia.
    + intros _. exists padding. split; [|exact Hpad]. do 3 f_equal. lia.
    + intros Hlt. lia.
Qed.

Lemma centerText_fills_width_title :
  0 <= 9
  /\ exists r,
       centerText "Fajr" 9 = Some r
       /\ len r = 9
       /\ (len "Fajr" <= 9 ->
           exists l, r = Repeat " " l ++ "Fajr" ++ Repeat " " (9 - len "Fajr" - l)
                     /\ 2 * l <= 9 - len "Fajr" <= 2 * l + 1)
       /\ (9 < len "Fajr" -> exists rest, "Fajr" = r ++ rest).
Proof. split; [lia|]. apply (centerText_fills_width "Fajr" 9). lia. Defined.

Example centerText_cases :
  centerText "Fajr" 9 = Some "  Fajr   "
  /\ centerText "Maghrib" 4 = Some "Magh"
  /\ centerText "Isha" (-1) = None.
Proof. repeat split. Qed.

(** X28.  [cleanTime] of the commands returns the bytes in front of the
    first space or opening parenthesis, the whole text if it has none;
    [cleanTime] of the table cuts at the first space only, so the first
    applied to the result of the second gives what it gives alone. *)
Theorem cleanTime_cuts_at_first_stop :
  forall timeStr,
    (exists rest,
       timeStr = Cmd.cleanTime timeStr ++ rest
       /\ ~ has " " (Cmd.cleanTime timeStr)
       /\ ~ has "(" (Cmd.cleanTime timeStr)
       /\ (rest = "" \/ first_byte rest = Some " "%char \/ first_byte rest = Some "("%char))
    /\ (exists rest,
          timeStr = Output.cleanTime timeStr ++ rest
          /\ ~ has " " (Output.cleanTime timeStr)
          /\ (rest = "" \/ first_byte rest = Some " "%char))
    /\ Cmd.cleanTime (Output.cleanTime timeStr) = Cmd.cleanTime timeStr.
Proof.
  intros s. rewrite !Cmd_cleanTime_before, Output_cleanTime_before. split; [|split].
  - destruct (before_split stop s) as (rest & Hs & Hclean & Hrest).
    exists rest. split; [exact Hs|]. rewrite forallb_forall in Hclean.
    split; [|split].
    + intros Hin. apply Hclean in Hin. discriminate.
    + intros Hin. apply Hclean in Hin. discriminate.
    + destruct Hrest as [->|(c & Hc & Hstop)]; [left; reflexivity|right].
      unfold stop in Hstop. apply orb_true_iff in Hstop as [H|H];
        apply Ascii.eqb_eq in H; subst c; [left|right]; exact Hc.
  - destruct (before_split (is_byte " ") s) as (rest & Hs & Hclean & Hrest).
    exists rest. split; [exact Hs|]. rewrite forallb_forall in Hclean.
    split.
    + intros Hin. apply Hclean in Hin. discriminate.
    + destruct Hrest as [->|(c & Hc & Hstop)]; [left; reflexivity|right].
      unfold is_byte in Hstop. apply Ascii.eqb_eq in Hstop. subst c. exact Hc.
  - apply before_weaker. intros c Hc. unfold stop, is_byte in *. rewrite Hc. reflexivity.
Qed.

Example cleanTime_cases :
  Cmd.cleanTime "05:23 (EET)" = "05:23"
  /\ Output.cleanTime "05:23 (EET)" = "05:23"
  /\ Cmd.cleanTime "05:23(EET)" = "05:23"
  /\ Output.cleanTime "05:23(EET)" = "05:23(EET)"
  /\ Cmd.cleanTime "" = "".
Proof. repeat split. Qed.

(** X29.  [formatDiff] of a negative difference is a minus sign and
    [formatDiff] of the difference without its sign. *)
Theorem formatDiff_of_negative :
  forall mins,
    0 < mins < two63 ->
    formatDiff (- mins) = "-" ++ formatDiff mins.
Proof.
  intros mins Hm. unfold formatDiff.
  assert (H1 : (- mins =? 0) = false) by (apply Z.eqb_neq; lia).
  assert (H2 : (mins =? 0) = false) by (apply Z.eqb_neq; lia).
  assert (H3 : (- mins <? 0) = true) by (apply Z.ltb_lt; lia).
  assert (H4 : (mins <? 0) = false) by (apply Z.ltb_ge; lia).
  rewrite H1, H2, H3, H4, Z.opp_involutive.
  rewrite ClientFacts.wrap64_id by (unfold int64_range; lia).
  destruct (mins <? 60).
  - rewrite itoa_opp by lia. rewrite !app_assoc. reflexivity.
  - destruct (Z.rem mins 60 =? 0); reflexivity.
Qed.

Lemma formatDiff_of_negative_ninety :
  0 < 90 < two63 /\ formatDiff (- 90) = "-" ++ formatDiff 90.
Proof. split; [unfold two63; lia|]. apply (formatDiff_of_negative 90). unfold two63. lia. Defined.

Example formatDiff_cases :
  formatDiff 0 = "0m"
  /\ formatDiff 45 = "45m"
  /\ formatDiff (- 45) = "-45m"
  /\ formatDiff 120 = "2h"
  /\ formatDiff (- 95) = "-1h 35m"
  /\ formatDiff (- two63) = "-9223372036854775808m".
Proof. repeat split. Qed.

End OutputFacts.

(** * The library models on known values *)

Module LibraryFacts.

Example sha256_abc :
  Sha256.hexdigest "abc"
  = "ba7816bf8f01cfea414140de5dae2223b00361a396177a9cb410ff61f20015ad".
Proof. vm_compute. reflexivity. Qed.

Example sha256_empty :
  Sha256.hexdigest ""
  = "e3b0c44298fc1c149afbf4c8996fb92427ae41e4649b934ca495991b7852b855".
Proof. vm_compute. reflexivity. Qed.

(** A message that pads to two blocks. *)
Example sha256_two_blocks :
  Sha256.hexdigest "aaaaaaaaaaaaaaaaaaaaaaaaaaaaaaaaaaaaaaaaaaaaaaaaaaaaaaaa"
  = "b35439a4ac6f0948b6d6f9e3c6af0f5f590ce20f1bde7090ef7970686ec6738a".
Proof. vm_compute. reflexivity. Qed.

Example format_shortest :
  map GoFmt.FormatShortest
      [30.5; 31.25; 1; 100000; 1000000; 0x1.a36e2eb1c432dp-14; 0x1p-17; -180;
       0x1.e0b5dcc63f141p+4]%float
  = ["30.5"; "31.25"; "1"; "100000"; "1e+06"; "0.0001"; "7.62939453125e-06"; "-180";
     "30.0444"].
Proof. vm_compute. reflexivity. Qed.

Example format_fixed :
  map (GoFmt.FormatFixed 4) [30.5; 0.03125; 0x1.e0b5dcc63f141p+4; -0.5; 0x1.fffac1d29dc72p-1]%float
  = ["30.5000"; "0.0312"; "30.0444"; "-0.5000"; "1.0000"]
  /\ GoFmt.FormatFixed 6 30.5%float = "30.500000".
Proof. vm_compute. split; reflexivity. Qed.

Example format_date :
  map (fun d => GoTime.Format_02_01_2006 (mkTime (d * 86400 * Second) 0))
      [0; 719162; 730178; 739918]
  = ["01-01-0001"; "01-01-1970"; "29-02-2000"; "30-10-2026"].
Proof. vm_compute. reflexivity. Qed.

Example compact_json :
  map (fun src => GoJson.appendCompact (quoted src) true)
      ["{'a': 1}"; " [1, 2 , {'b' : 'x y'} ] "; "{'a':'<b>'}"; "null"; "garbage"; "{'a':1,}"; ""]
  = [Some (quoted "{'a':1}"); Some (quoted "[1,2,{'b':'x y'}]");
     Some (quoted "{'a':'\u003cb\u003e'}"); Some "null"; None; None; None].
Proof. vm_compute. reflexivity. Qed.

Example rfc3339 :
  EntryJson.FormatRFC3339Nano (mkTime (739918 * 86400 * Second + 17 * Hour + 500 * Millisecond) 7200)
  = Some "2026-10-30T19:00:00.5+02:00"
  /\ EntryJson.ParseRFC3339 "2026-10-30T19:00:00.5+02:00"
     = Some (mkTime (739918 * 86400 * Second + 17 * Hour + 500 * Millisecond) 7200).
Proof. vm_compute. split; reflexivity. Qed.

End LibraryFacts.
